(* ===== verification/_CoqProject ===== *)
-Q . S2P
Prelude.v
JsString.v
Colors.v
StableSort.v
JsNumber.v
Exact.v
Rounding.v
ToString.v
Table.v
JsValue.v
Json.v
Charts.v
Page.v
Controller.v
Invariants.v
Behaviour.v
Scenarios.v
