(* ===== verification/Prelude.v ===== *)
(** * Word-Frequency-Visualizer: a verification development of [src/static/script.js]

    The program is the client half of a word-frequency dashboard.  A user
    pastes text into a textarea; [analyzeText] (lines 4-40) trims it,
    refuses blank input, POSTs [JSON.stringify({text})] to [/analyze], and
    projects the JSON answer into three views: a stat summary
    ([displayStats], 59-75), a bar and a doughnut chart sharing one palette
    ([displayCharts], 77-216, [generateColors], 238-258) and a ranked table
    ([displayTable], 218-236).  Failures are shown in an error banner
    ([showError], [hideError], 273-288); a loading indicator and the results
    panel are toggled by [showLoading], [showResults], [hideResults]
    (260-271).  A [keydown] listener installed on [DOMContentLoaded]
    (291-301) runs [analyzeText] on Ctrl+Enter.

    The parts interact through the page (the DOM and the globals [barChart],
    [pieChart]) and through the JavaScript event loop: [analyzeText]
    suspends at two [await]s, so several submissions may be in flight and
    their continuations interleave with user events.

    ** Files, in dependency order

    - [Prelude] (this file): the scope [wfv_scope], the reflexive-transitive
      closure [star] with its invariant principle, the tactics [invc],
      [wfv_simpl] and [decide_by_eval], the hint database [wfv], and the
      list and [Z] lemmas the components share ([sumZ], [mapi_from]).
    - [JsString]: strings as lists of UTF-16 code units ([Z]); the
      WhiteSpace/LineTerminator classes, [String.prototype.trim] (line 6),
      truthiness (line 8), [String.prototype.replace] with a string pattern
      (line 96), integer [ToString] and [Array.prototype.join].
    - [Colors] ([Module Colors]): [generateColors] as its [for] loop with
      counter and accumulator ([color_loop]), and the border colours.
    - [StableSort]: [Array.prototype.sort] with a comparator (line 223) as
      an insertion sort, the ECMAScript 2019 contract it meets, and the
      proof that the contract has no other solution.
    - [JsNumber]: numbers as IEEE-754 binary64 values (the Standard
      Library's [SpecFloat]: [SFadd], [SFmul], [SFdiv], round to nearest
      even, no primitive floats), [Number::toString] (shortest round-trip
      digits) and [Number.prototype.toFixed], both for every value.
    - [Exact]: integers in binary64: below 2^53 an integer has one binary64
      form, and [SFadd] and [SFsub] of two integers are exact; a left fold of
      additions is the exact sum.
    - [ToString]: [Number::toString] of an integer below 2^53 is its
      decimal digits: the shortest-digits search, run on such an integer,
      only tries integers below 2^54, and division by one keeps those below
      2^53 exact and sends the others to a positive exponent.
    - [Rounding] (before [ToString], which uses it): the rounding error of [SFdiv] and [SFmul] on normal
      numbers is at most [2^-53] relative, from the meaning of the shift
      record [SpecFloat] rounds with; hence the percentage cell of a count
      [c] of a total [T] prints hundredths within one of [10000 c / T].
    - [Table]: [displayTable] as pure functions: the binary64 total folded in
      input order, the sort by the sign of the binary64 difference
      [b.count - a.count], the rows (numbers printed by [Number::toString])
      the exact row template of lines 227-234, and [table_body_html], the
      string [displayTable] assigns to [tableBody.innerHTML].
    - [JsValue]: the JSON values of the answer, truthiness, [ToString] and
      [||] (lines 29, 32, 63-71).
    - [Json]: [JSON.stringify({text: text})] (line 24) with QuoteJSONString,
      and a reader of JSON string literals written from the JSON grammar
      (the receiving side of the contract of spec section 6).
    - [Charts]: the two chart configurations (lines 88-157, 165-215), both
      tooltip callbacks, and the charting library's registry of live charts,
      whose constructor refuses a canvas that already holds a chart.
    - [Page]: the page state [Page] (textarea, [display] of [#loading] and
      [#results], banners, [innerHTML] of [#stats] and [#tableBody], the
      registry and the two globals, the request log), a state monad [M] with
      exceptions, and every handler as an [M] computation composed as the
      code composes them.
    - [Controller]: [analyzeText] split at its [await]s into
      [analyze_start], [handle_data] and [settle]; a [World] is the page with
      the suspended invocations; [handle_event] runs one event (page load,
      typing, Ctrl+Enter, click, fetch settled, body parsed); [step] and
      [reachable] are the step relation and its closure, [run] executes a
      sequence of events; its claims state what a submission and a
      settlement do.
    - [Invariants]: the page invariant (at most one banner; every live chart
      is held by its canvas's global, ids distinct; the globals hold issued
      ids), its preservation by every handler and event, the exact
      registry [displayCharts] leaves, and the invariant of worlds that the
      loading indicator shows only while an analysis is pending.
    - [Behaviour]: the behaviour of an analysis that runs alone, against
      [view_of], an abstract view of the page (results, or one error
      banner), the lemmas computing each handler's effect on it, what a
      settlement leaves on any page (success, failure, partial render), and
      the states the spec rules out that the code reaches.
    - [Scenarios]: the spec's examples run through the event loop from the
      page as served, as witnesses of the claims.

    ** Code and runtime

    Two kinds of definitions meet here.  Those that translate [script.js]
    keep its names and its order of calls: the handlers of [Page], the
    slices and listeners of [Controller], the configurations and callbacks
    of [Charts], [generateColors] in [Colors], the pieces of [displayTable]
    in [Table].  The others model what the code runs on: the built-ins
    ([String.prototype.trim], [Array.prototype.sort], [Number::toString],
    [toFixed], [JSON.stringify]) from ECMA-262, the page and the chart
    library's registry as state, the event loop as a step relation.  The
    built-ins are proved against their specifications where the code
    depends on them.

    ** What the theorems show (claim ids of PROJECT.json)

    - the controller (C1-C6, C9): an analysis running alone ends with
      loading hidden and exactly the view its answer calls for; at most one
      banner and at most one chart per canvas in every reachable state; the
      blank path sends nothing; a non-blank submission sends the trimmed
      text; every settlement hides the loading indicator; and [analyzeText]
      sends [JSON.stringify({text: t})] exactly when the abstract
      TrimString [t] of the textarea is not empty;
    - the table (C7, C8, C15): the rows are determined by the ES2019
      contract of [sort], whatever stable algorithm the engine runs; ranks
      are 1..n and counts decrease; words are embedded unescaped;
    - colours (C10, C16-C18): entry [i] is [palette[i mod 10]], the loop
      terminates with the palette entries in order, borders are opaque, and
      colours are distinct only up to 8 entries;
    - departures from the spec (C11-C14), for every world where they apply:
      a blank submission leaves shown results under the validation banner;
      every failing analysis leaves the results as they were and adds its
      banner, so both are visible after an earlier success; the settlement
      of one analysis hides the loading indicator while another is pending;
      an answer without [words_data] replaces the stat cards and the charts
      but not the table, behind a network-error banner;
    - the request (C19): [JSON.stringify({text})] reads back as the text
      sent, for every string of code units;
    - the loading indicator (C28): in every reachable world it shows only
      while some analysis is pending;
    - percentages (C27, spec 8.3): each printed percentage is within 0.01 of
      the exact one, and they add up to 100 within 0.01 per row;
    - decimal output (C25, C26): the table's rank and count cells and the
      three stat cards show the decimal digits of their integers;
    - composition (C24): a success settling after earlier renderings
      replaces the stat cards, the table and the two charts by those of its
      own answer, and leaves the error banners as they were;
    - binary64 exactness (C21, C22): the table's total is the exact sum
      below 2^53, and entries whose counts convert to one binary64 value
      (as [2^53] and [2^53 + 1] do) keep their input order in the table;
    - the tooltips (C23): the doughnut's percentage is taken against the
      exact sum of the chart's own counts (spec 4.3);
    - the charts' lifecycle (C20): after [displayCharts] exactly the two new
      charts, built on the chart data, are live.

    ** Bounds and fuel

    Counts are JSON integers kept in [Z]; every computation the code does
    with them (the totals, the comparator, the percentages) is binary64, as
    in the code.  [Exact] proves the totals and the comparator exact while
    the counts and their sum stay below 2^53 ([count_ok]); the theorems about
    the table's order carry that hypothesis, and C22 shows that the order is
    lost above it.  [color_loop] runs with
    fuel [count], which C16 shows is enough (any larger fuel gives the same
    list).  [Number::toString] tries at most 17 digits (every binary64 value
    is identified by 17) and corrects its decimal-exponent estimate by at
    most 8 steps each way (the estimate is within 2; [ToString] proves
    that on integers below 2^53 it is within 1, and that 16 digits are
    enough there).  The decimal claims C25 and C26 carry the bound 2^53 of
    [count_ok].  C27 needs no bound beyond 2^53: the
    binary64 quotient and product are within [2^-53] of their exact values
    because the counts, the total and 100 are normal numbers, and the
    results stay far inside the normal range.

    ** Not modelled

    The server behind [/analyze] and the charting library's drawing are not
    in the repository; the server's answers are the parameters of the fetch
    events, the library is modelled by its registry (what it does with the
    options it is given is drawing).  The HTML page and stylesheet, and
    [console.error] have no effect on the modelled state.  The calls to
    [getContext('2d')] (lines 83, 160) only name the canvas.  [scrollIntoView] only moves the
    viewport and is counted.  Answer fields that should be arrays are either
    arrays of [{word, count}] entries or missing; other shapes are not
    modelled. *)

From stdpp Require Import base list.
From Stdlib Require Import ZArith Lia.

Declare Scope wfv_scope.
Delimit Scope wfv_scope with wfv.
Open Scope wfv_scope.

Create HintDb wfv.
Create Rewrite HintDb wfv.

(** ** Reflexive-transitive closure of a step relation *)

Section Star.
Context {A : Type} (R : A -> A -> Prop).

Inductive star : A -> A -> Prop :=
| star_refl a : star a a
| star_step a b c : R a b -> star b c -> star a c.

Lemma star_one a b : R a b -> star a b.
Proof. eauto using star. Qed.

Lemma star_trans a b c : star a b -> star b c -> star a c.
Proof. induction 1; eauto using star. Qed.

Lemma star_right a b c : star a b -> R b c -> star a c.
Proof. eauto using star_trans, star_one. Qed.

(** An invariant preserved by every step holds along every path. *)
Lemma star_invariant (P : A -> Prop) :
  (forall a b, R a b -> P a -> P b) -> forall a b, star a b -> P a -> P b.
Proof. intros Hstep a b H; induction H; eauto. Qed.
End Star.

Notation "a =[ R ]=>* b" := (star R a b)
  (at level 70, format "a  =[ R ]=>*  b") : wfv_scope.

#[export] Hint Constructors star : wfv.
#[export] Hint Resolve star_one star_trans : wfv.

(** ** Tactics *)

Ltac invc H := inversion H; subst; clear H.

(** Split conjunctions and existentials in hypotheses, substitute equalities. *)
Ltac wfv_simpl :=
  repeat match goal with
         | H : _ /\ _ |- _ => destruct H
         | H : exists _, _ |- _ => destruct H
         | H : Some _ = Some _ |- _ => injection H as H
         | H : ?x = ?x |- _ => clear H
         end; subst.

(** ** Sums of integer lists *)

Local Open Scope Z_scope.

(** [xs.reduce((sum, x) => sum + f x, acc)] *)
Definition reduce_sum {A} (f : A -> Z) (acc : Z) (xs : list A) : Z :=
  fold_left (fun s x => s + f x) xs acc.

Fixpoint sumZ {A} (f : A -> Z) (xs : list A) : Z :=
  match xs with
  | [] => 0
  | x :: xs' => f x + sumZ f xs'
  end.

Lemma reduce_sum_acc {A} (f : A -> Z) acc xs :
  reduce_sum f acc xs = acc + sumZ f xs.
Proof.
  unfold reduce_sum. revert acc.
  induction xs as [|x xs IH]; intros acc; simpl; [lia|].
  rewrite IH. lia.
Qed.

Lemma sumZ_app {A} (f : A -> Z) xs ys : sumZ f (xs ++ ys) = sumZ f xs + sumZ f ys.
Proof. induction xs; simpl; lia. Qed.

Lemma sumZ_Permutation {A} (f : A -> Z) xs ys : xs ≡ₚ ys -> sumZ f xs = sumZ f ys.
Proof. induction 1; simpl; lia. Qed.

Lemma sumZ_fmap {A B} (f : B -> Z) (g : A -> B) xs : sumZ f (g <$> xs) = sumZ (fun x => f (g x)) xs.
Proof. induction xs as [|x xs IH]; [done|]. rewrite fmap_cons. cbn [sumZ]. by rewrite IH. Qed.

Lemma Forall2_exists {A B} (P : A -> Prop) (Q : A -> B -> Prop) l :
  (forall x, P x -> exists y, Q x y) -> Forall P l -> exists ys, Forall2 Q l ys.
Proof.
  intros H. induction 1 as [|x l Hx _ IH]; [by exists []|].
  destruct (H x Hx) as [y Hy], IH as [ys Hys]. exists (y :: ys). by constructor.
Qed.

Lemma sumZ_nonneg {A} (f : A -> Z) xs :
  Forall (fun x => 0 <= f x) xs -> 0 <= sumZ f xs.
Proof. induction 1; simpl; lia. Qed.

Lemma sumZ_elem_le {A} (f : A -> Z) xs x :
  Forall (fun x => 0 <= f x) xs -> x ∈ xs -> f x <= sumZ f xs.
Proof.
  induction 1 as [|y ys Hy Hys IH]; intros Hin; [by apply elem_of_nil in Hin|].
  simpl. apply elem_of_cons in Hin as [->|Hin].
  - pose proof (sumZ_nonneg f ys Hys). lia.
  - specialize (IH Hin). lia.
Qed.

#[export] Hint Rewrite @reduce_sum_acc @sumZ_app : wfv.
#[export] Hint Resolve sumZ_Permutation sumZ_nonneg : wfv.

Close Scope Z_scope.

(** ** Lists *)

(** [xs.map((x, i) => f x i)]: a map that also passes the index. *)
Fixpoint mapi_from {A B} (f : nat -> A -> B) (i : nat) (xs : list A) : list B :=
  match xs with
  | [] => []
  | x :: xs' => f i x :: mapi_from f (S i) xs'
  end.

Lemma length_mapi_from {A B} (f : nat -> A -> B) i xs :
  length (mapi_from f i xs) = length xs.
Proof. revert i; induction xs; simpl; auto. Qed.

Lemma lookup_mapi_from {A B} (f : nat -> A -> B) i xs k :
  mapi_from f i xs !! k = f (i + k) <$> xs !! k.
Proof.
  revert i k; induction xs as [|x xs IH]; intros i [|k]; simpl; auto.
  - by rewrite Nat.add_0_r.
  - rewrite IH. by rewrite Nat.add_succ_r.
Qed.

#[export] Hint Rewrite @length_mapi_from @lookup_mapi_from : wfv.

Lemma filter_Forall_not {A} (P : A -> Prop) `{forall x, Decision (P x)} (l : list A) :
  Forall (fun x => ~ P x) l -> filter P l = [].
Proof. induction 1; [done|]. by rewrite filter_cons_False. Qed.

(** Close a decidable goal about a closed term by evaluation. *)
Ltac decide_by_eval := apply (bool_decide_unpack _); vm_compute; exact I.

(** An element of a list of strings occurs verbatim in their concatenation. *)
Lemma mjoin_elem_split {A} (xs : list (list A)) x :
  x ∈ xs -> exists pre suf, mjoin xs = pre ++ x ++ suf.
Proof.
  intros (l1 & l2 & ->)%list_elem_of_split.
  exists (mjoin l1), (mjoin l2). by rewrite join_app.
Qed.
