(* ===== verification/JsString.v ===== *)
(** * JavaScript strings

    A JavaScript string is a sequence of UTF-16 code units; [jsstr] is a list
    of [Z] (each in [0, 0xFFFF]).  This file holds the string operations the
    code calls: [String.prototype.trim] (line 6 of [script.js]), the
    truthiness test [!text] (line 8), [String.prototype.replace] with a
    string pattern (line 96) and the [ToString] of integral numbers used by
    the template literals (lines 63, 67, 229, 231). *)

From stdpp Require Import base list strings pretty.
From Stdlib Require Import ZArith Lia.
From S2P Require Import Prelude.

Local Open Scope Z_scope.

Abbreviation jsstr := (list Z).

(** String literals of the source, written as ASCII Rocq strings. *)
Definition js (s : string) : jsstr :=
  map (fun a => Z.of_nat (Ascii.nat_of_ascii a)) (String.list_ascii_of_string s).

(** ** White space (ECMA-262, sections WhiteSpace and LineTerminator) *)

(** WhiteSpace: TAB, VT, FF, ZWNBSP and the Space_Separator (Zs) code points. *)
Definition is_white_space (c : Z) : bool :=
  (c =? 0x09) || (c =? 0x0B) || (c =? 0x0C) || (c =? 0xFEFF) ||
  (c =? 0x20) || (c =? 0xA0) || (c =? 0x1680) ||
  ((0x2000 <=? c) && (c <=? 0x200A)) ||
  (c =? 0x202F) || (c =? 0x205F) || (c =? 0x3000).

(** LineTerminator: LF, CR, LINE SEPARATOR, PARAGRAPH SEPARATOR. *)
Definition is_line_terminator (c : Z) : bool :=
  (c =? 0x0A) || (c =? 0x0D) || (c =? 0x2028) || (c =? 0x2029).

(** The code units [TrimString] removes.  All of them are BMP code points
    outside the surrogate range, so trimming by code unit and by code point
    agree. *)
Definition is_trim_ws (c : Z) : bool := is_white_space c || is_line_terminator c.

(** ** [String.prototype.trim] *)

Fixpoint trim_start (s : jsstr) : jsstr :=
  match s with
  | [] => []
  | c :: s' => if is_trim_ws c then trim_start s' else s
  end.

Definition trim_end (s : jsstr) : jsstr := rev (trim_start (rev s)).

(** [TrimString(S, start+end)]: leading and trailing white space removed. *)
Definition trim (s : jsstr) : jsstr := trim_end (trim_start s).

(** [ToBoolean] of a string: only the empty string is falsy. *)
Definition str_truthy (s : jsstr) : bool :=
  match s with [] => false | _ => true end.

(** ** [String.prototype.replace(pattern, replacement)] with string arguments *)

Fixpoint is_prefix (p s : jsstr) : bool :=
  match p, s with
  | [], _ => true
  | c :: p', d :: s' => (c =? d) && is_prefix p' s'
  | _ :: _, [] => false
  end.

(** [StringIndexOf(s, p, 0)]: the first position where [p] occurs. *)
Fixpoint index_of (p s : jsstr) : option nat :=
  if is_prefix p s then Some 0%nat
  else match s with
       | [] => None
       | _ :: s' => S <$> index_of p s'
       end.

(** Only the first occurrence is replaced.  The replacement strings of the
    source contain no [$], so [GetSubstitution] returns them unchanged. *)
Definition replace_first (p r s : jsstr) : jsstr :=
  match index_of p s with
  | None => s
  | Some i => take i s ++ r ++ drop (i + length p) s
  end.

(** ** [ToString] of an integral number (below 10^21 in magnitude) *)

Definition z_to_jsstr (z : Z) : jsstr := js (pretty z).

Definition nat_to_jsstr (n : nat) : jsstr := z_to_jsstr (Z.of_nat n).


(** ** Properties of [trim] *)

Abbreviation is_ws c := (is_trim_ws c = true).

(** A string whose first and last code units are not white space. *)
Definition no_ws_ends (t : jsstr) : Prop :=
  match t, last t with
  | c :: _, Some d => is_trim_ws c = false /\ is_trim_ws d = false
  | _, _ => True
  end.

Lemma trim_start_ws_app pre s :
  Forall (fun c => is_ws c) pre -> trim_start (pre ++ s) = trim_start s.
Proof. induction 1 as [|c pre Hc _ IH]; simpl; [done|]. by rewrite Hc. Qed.

Lemma trim_start_all_ws s : Forall (fun c => is_ws c) s -> trim_start s = [].
Proof. intros H. rewrite <- (app_nil_r s), trim_start_ws_app; done. Qed.

Lemma trim_start_keep c s : is_trim_ws c = false -> trim_start (c :: s) = c :: s.
Proof. simpl. by intros ->. Qed.

(** [trim_start] drops a white-space prefix and stops at a non-blank unit. *)
Lemma trim_start_split s :
  exists pre, s = pre ++ trim_start s /\ Forall (fun c => is_ws c) pre /\
    match trim_start s with [] => True | c :: _ => is_trim_ws c = false end.
Proof.
  induction s as [|c s IH]; [by exists []|]. simpl.
  destruct (is_trim_ws c) eqn:Hc.
  - destruct IH as (pre & Hs & Hpre & Hh). exists (c :: pre).
    split; [simpl; by f_equal|]. split; [by constructor|done].
  - exists []. simpl. rewrite Hc. auto.
Qed.

Lemma last_rev {A} (l : list A) : last (rev l) = head l.
Proof. destruct l; simpl; [done|]. apply last_snoc. Qed.

Lemma Forall_rev_iff {A} (P : A -> Prop) l : Forall P (rev l) <-> Forall P l.
Proof.
  split; [|apply Forall_rev]. intros H%Forall_rev. by rewrite rev_involutive in H.
Qed.

#[export] Hint Resolve trim_start_ws_app trim_start_all_ws : wfv.

(** The abstract [TrimString]: [s] splits as blank prefix, core with
    non-blank ends, blank suffix, and [trim] returns the core. *)
Definition trim_spec (s t : jsstr) : Prop :=
  exists pre suf, s = pre ++ t ++ suf /\
    Forall (fun c => is_ws c) pre /\ Forall (fun c => is_ws c) suf /\ no_ws_ends t.

(** [trim_end] drops a white-space suffix and stops at a non-blank unit. *)
Lemma trim_end_split s :
  exists suf, s = trim_end s ++ suf /\ Forall (fun c => is_ws c) suf /\
    match last (trim_end s) with None => True | Some d => is_trim_ws d = false end.
Proof.
  destruct (trim_start_split (rev s)) as (pre & Hs & Hpre & Hh).
  exists (rev pre). unfold trim_end. rewrite last_rev. split; [|split].
  - rewrite <- rev_app_distr, <- Hs. by rewrite rev_involutive.
  - by apply Forall_rev.
  - by destruct (trim_start (rev s)).
Qed.

Lemma trim_end_keep t :
  match last t with None => True | Some d => is_trim_ws d = false end ->
  trim_end t = t.
Proof.
  destruct (last t) as [d|] eqn:Hl; intros Hd.
  - apply last_Some in Hl as [t0 ->]. unfold trim_end.
    rewrite rev_app_distr. simpl. rewrite Hd. simpl. by rewrite rev_involutive.
  - apply last_None in Hl as ->. done.
Qed.

Lemma trim_end_ws_app t suf :
  Forall (fun c => is_ws c) suf -> trim_end (t ++ suf) = trim_end t.
Proof.
  intros Hsuf. unfold trim_end. rewrite rev_app_distr, trim_start_ws_app; [done|].
  by apply Forall_rev.
Qed.

(** [trim] meets the abstract [TrimString]. *)
Lemma trim_correct s : trim_spec s (trim s).
Proof.
  destruct (trim_start_split s) as (pre & Hs & Hpre & Hh).
  destruct (trim_end_split (trim_start s)) as (suf & Ht & Hsuf & Hl).
  exists pre, suf. split; [|split; [done|split; [done|]]].
  - unfold trim. by rewrite <- Ht.
  - unfold no_ws_ends, trim. revert Hh Hl. rewrite Ht at 1.
    destruct (trim_end (trim_start s)) as [|c t] eqn:E; [done|].
    simpl. destruct (last (c :: t)); auto.
Qed.

(** The result of [TrimString] is unique, so it is what [trim] computes. *)
Lemma trim_spec_unique s t : trim_spec s t -> trim s = t.
Proof.
  intros (pre & suf & -> & Hpre & Hsuf & Ht). unfold trim.
  rewrite trim_start_ws_app by done.
  destruct t as [|c t'] eqn:E.
  - simpl. rewrite (trim_start_all_ws suf) by done. done.
  - unfold no_ws_ends in Ht. destruct (last (c :: t')) as [d|] eqn:Hl; [|by apply last_None in Hl].
    destruct Ht as [Hc Hd].
    rewrite <- app_comm_cons, trim_start_keep by done.
    rewrite app_comm_cons, trim_end_ws_app by done.
    apply trim_end_keep. by rewrite Hl.
Qed.

(** A blank input is exactly one whose trim is empty. *)
Lemma trim_nil_iff_blank s : trim s = [] <-> Forall (fun c => is_ws c) s.
Proof.
  split.
  - intros Ht. destruct (trim_correct s) as (pre & suf & Hs & Hpre & Hsuf & _).
    rewrite Ht in Hs. rewrite Hs. by apply Forall_app.
  - intros H. apply (trim_spec_unique s []). exists s, []. by rewrite !app_nil_r.
Qed.

(** [Array.prototype.join(sep)] on strings. *)
Fixpoint join_with (sep : jsstr) (xs : list jsstr) : jsstr :=
  match xs with
  | [] => []
  | [x] => x
  | x :: xs' => x ++ sep ++ join_with sep xs'
  end.

(** The double quote, which Rocq string literals cannot hold alone. *)
Definition dq : jsstr := [34%Z].
