(* ===== verification/Colors.v ===== *)
(** * Chart colours: [generateColors] and the border colours

    [generateColors(count)] (lines 238-258 of [script.js]) fills a fresh
    array with [count] entries of a ten-entry palette, entry [i] being
    [colors[i % colors.length]].  The loop is modelled with its counter and
    accumulator; [displayCharts] derives the bar borders with
    [colors.map(color => color.replace('0.8', '1'))] (line 96). *)

From stdpp Require Import base list numbers strings.
From Stdlib Require Import ZArith Lia.
From S2P Require Import Prelude JsString.

Module Colors.

(** The array literal of lines 239-250, in order. *)
Definition palette : list jsstr :=
  [ js "rgba(102, 126, 234, 0.8)";
    js "rgba(118, 75, 162, 0.8)";
    js "rgba(255, 99, 132, 0.8)";
    js "rgba(54, 162, 235, 0.8)";
    js "rgba(255, 159, 64, 0.8)";
    js "rgba(75, 192, 192, 0.8)";
    js "rgba(255, 205, 86, 0.8)";
    js "rgba(153, 102, 255, 0.8)";
    js "rgba(255, 99, 132, 0.8)";
    js "rgba(201, 203, 207, 0.8)" ].

(** [colors[i % colors.length]]; the index is always in range (see
    [palette_at_in_range]), the default is never used. *)
Definition palette_at (i : nat) : jsstr :=
  default [] (palette !! (i mod length palette)).

(** [for (let i = 0; i < count; i++) { result.push(colors[i % colors.length]); }]
    run with [fuel] iterations at most. *)
Fixpoint color_loop (fuel : nat) (count i : nat) (result : list jsstr) : list jsstr :=
  match fuel with
  | O => result
  | S fuel' =>
      if decide (i < count) then color_loop fuel' count (S i) (result ++ [palette_at i])
      else result
  end.

(** The loop runs [count] times, so [count] is enough fuel
    ([color_loop_fuel] shows any larger fuel gives the same result). *)
Definition generateColors (count : nat) : list jsstr := color_loop count count 0 [].

(** [color.replace('0.8', '1')] *)
Definition border_color (color : jsstr) : jsstr := replace_first (js "0.8") (js "1") color.

Definition border_colors (colors : list jsstr) : list jsstr := map border_color colors.

(** ** The loop *)

Lemma color_loop_spec fuel count i result :
  count <= i + fuel ->
  color_loop fuel count i result = result ++ map palette_at (seq i (count - i)).
Proof.
  revert i result. induction fuel as [|fuel IH]; intros i result Hf; simpl.
  - replace (count - i) with 0 by lia. by rewrite app_nil_r.
  - case_decide.
    + rewrite IH by lia. replace (count - i) with (S (count - S i)) by lia.
      simpl. by rewrite <- app_assoc.
    + replace (count - i) with 0 by lia. by rewrite app_nil_r.
Qed.

Lemma palette_at_in_range i : palette !! (i mod 10) = Some (palette_at i).
Proof.
  unfold palette_at. simpl length. destruct (palette !! _) eqn:E; [done|].
  apply lookup_ge_None in E. pose proof (Nat.mod_upper_bound i 10). simpl in *. lia.
Qed.

Lemma palette_at_mod i : palette_at i = palette_at (i mod 10).
Proof. unfold palette_at. simpl length. by rewrite Nat.Div0.mod_mod. Qed.


Lemma color_loop_fuel fuel count :
  count <= fuel -> color_loop fuel count 0 [] = generateColors count.
Proof. intros H. unfold generateColors. rewrite !color_loop_spec by lia. done. Qed.

Lemma lookup_generateColors_map n :
  generateColors n = map palette_at (seq 0 n).
Proof. unfold generateColors. rewrite color_loop_spec by lia. by rewrite Nat.sub_0_r. Qed.

Lemma lookup_generateColors count i :
  i < count -> generateColors count !! i = palette !! (i mod 10).
Proof.
  intros Hi. rewrite lookup_generateColors_map, list_lookup_fmap, lookup_seq_lt by done.
  by rewrite palette_at_in_range.
Qed.

(** ** Claims *)

(** C16: the [for] loop of [generateColors] terminates with any fuel at least
    [count], and computes [colors[i % 10]] for [i = 0 .. count-1], in order. *)
Theorem generateColors_loop_equiv fuel count :
  count <= fuel -> color_loop fuel count 0 [] = map palette_at (seq 0 count).
Proof. intros H. rewrite color_loop_fuel by done. apply lookup_generateColors_map. Qed.

(** Witness of C16: twelve colours computed with twenty iterations of fuel. *)
Lemma generateColors_loop_equiv_witness :
  12 <= 20 /\ color_loop 20 12 0 [] = map palette_at (seq 0 12).
Proof. split; [lia|]. apply generateColors_loop_equiv. lia. Defined.

(** C10: [generateColors count] has exactly [count] entries, entry [i] is the
    palette colour [i mod 10], and the assignment is periodic with period 10
    (spec 8.2). *)
Theorem generateColors_cycles count :
  length (generateColors count) = count /\
  (forall i, i < count -> generateColors count !! i = palette !! (i mod 10)) /\
  (forall i, i + 10 < count -> generateColors count !! (i + 10) = generateColors count !! i).
Proof.
  rewrite lookup_generateColors_map, length_map, length_seq.
  split; [done|split]; intros i Hi.
  - rewrite <-lookup_generateColors_map. by apply lookup_generateColors.
  - rewrite !list_lookup_fmap, !lookup_seq_lt by lia. simpl. f_equal.
    rewrite (palette_at_mod (i + 10)), (palette_at_mod i). f_equal.
    replace (i + 10) with (i + 1 * 10) by lia. by rewrite Nat.Div0.mod_add.
Qed.

Lemma palette_opaque_borders :
  Forall (fun c => c = take (length c - 6) c ++ js ", 0.8)" /\
                   border_color c = take (length c - 6) c ++ js ", 1)") palette.
Proof. repeat constructor. Qed.

(** C17: every bar border colour is its fill colour with the alpha component
    [0.8] replaced by [1]: the first occurrence of ['0.8'] in each palette
    entry is its alpha. *)
Theorem border_colors_opaque n i c :
  generateColors n !! i = Some c ->
  c = take (length c - 6) c ++ js ", 0.8)" /\
  border_colors (generateColors n) !! i = Some (take (length c - 6) c ++ js ", 1)").
Proof.
  intros Hc.
  assert (c ∈ palette) as Hin.
  { rewrite lookup_generateColors_map, list_lookup_fmap in Hc.
    destruct (seq 0 n !! i) as [k|]; simplify_eq/=.
    eapply list_elem_of_lookup_2, palette_at_in_range. }
  pose proof palette_opaque_borders as Hall. rewrite Forall_forall in Hall.
  destruct (Hall c Hin) as [H1 H2]. split; [done|].
  unfold border_colors. rewrite list_lookup_fmap, Hc. simpl. by rewrite H2.
Qed.

(** Witness of C17: the second bar. *)
Lemma border_colors_opaque_witness :
  generateColors 3 !! 1 = Some (js "rgba(118, 75, 162, 0.8)") /\
  border_colors (generateColors 3) !! 1 = Some (js "rgba(118, 75, 162, 1)").
Proof.
  assert (generateColors 3 !! 1 = Some (js "rgba(118, 75, 162, 0.8)")) as H by reflexivity.
  split; [done|]. destruct (border_colors_opaque 3 1 _ H) as [_ ->]. reflexivity.
Defined.

(** C18: the palette holds the pink [rgba(255, 99, 132, 0.8)] twice (entries
    2 and 8), so the colours of a chart are pairwise distinct only up to 8
    entries, not up to the palette's length 10. *)
Theorem generateColors_NoDup_iff n : NoDup (generateColors n) <-> n <= 8.
Proof.
  split.
  - intros Hnd. destruct (decide (n <= 8)) as [|Hn]; [done|exfalso].
    assert (generateColors n !! 2 = Some (js "rgba(255, 99, 132, 0.8)")) as E2
      by (rewrite lookup_generateColors by lia; reflexivity).
    assert (generateColors n !! 8 = Some (js "rgba(255, 99, 132, 0.8)")) as E8
      by (rewrite lookup_generateColors by lia; reflexivity).
    pose proof (NoDup_lookup _ 2 8 _ Hnd E2 E8). lia.
  - intros Hn. do 9 (destruct n as [|n]; [decide_by_eval|]). lia.
Qed.

End Colors.
