(* ===== verification/StableSort.v ===== *)
(** * [Array.prototype.sort] with a comparator

    [displayTable] sorts with [wordsData.sort((a, b) => b.count - a.count)]
    (line 223 of [script.js]).  ECMAScript leaves the algorithm to the
    engine but, since ES2019, fixes the contract for a consistent comparator:
    the result is a permutation of the input, ordered by the comparator, and
    stable (elements the comparator calls equal keep their relative order).

    [sort_by] is an insertion sort over a comparator returning a number,
    testing [SortCompare(x, y) <= 0] as the engines do.  The section
    [KeySort] proves, for comparators [(a, b) => key b - key a], that
    [sort_by] meets the contract and that the contract has one solution:
    every conforming engine returns [sort_by]'s result. *)

From stdpp Require Import base list numbers sorting.
From Stdlib Require Import ZArith Lia Sorted.
From S2P Require Import Prelude.

Local Open Scope Z_scope.

Section Sort.
Context {A : Type}.

(** Insert [x] before the first element [y] with [SortCompare(x, y) <= 0]. *)
Fixpoint insert_by (cmp : A -> A -> Z) (x : A) (l : list A) : list A :=
  match l with
  | [] => [x]
  | y :: l' => if cmp x y <=? 0 then x :: y :: l' else y :: insert_by cmp x l'
  end.

Fixpoint sort_by (cmp : A -> A -> Z) (l : list A) : list A :=
  match l with
  | [] => []
  | x :: l' => insert_by cmp x (sort_by cmp l')
  end.

Lemma insert_by_Permutation cmp x l : insert_by cmp x l ≡ₚ x :: l.
Proof.
  induction l as [|y l IH]; simpl; [done|].
  case_match; [done|]. rewrite IH. constructor.
Qed.

Lemma sort_by_Permutation cmp l : sort_by cmp l ≡ₚ l.
Proof.
  induction l as [|x l IH]; simpl; [done|].
  by rewrite insert_by_Permutation, IH.
Qed.

Lemma length_sort_by cmp l : length (sort_by cmp l) = length l.
Proof. apply Permutation_length, sort_by_Permutation. Qed.

(** Comparators that agree on the test [SortCompare(x, y) <= 0] over the
    elements of the list sort it the same way. *)
Lemma insert_by_ext (P : A -> Prop) cmp1 cmp2 x l :
  (forall a b, P a -> P b -> (cmp1 a b <=? 0) = (cmp2 a b <=? 0)) ->
  P x -> Forall P l -> insert_by cmp1 x l = insert_by cmp2 x l.
Proof.
  intros Hc Hx. induction 1 as [|y l Hy Hl IH]; [done|]. simpl.
  rewrite (Hc x y Hx Hy). case_match; [done|]. by rewrite IH.
Qed.

Lemma sort_by_ext (P : A -> Prop) cmp1 cmp2 l :
  (forall a b, P a -> P b -> (cmp1 a b <=? 0) = (cmp2 a b <=? 0)) ->
  Forall P l -> sort_by cmp1 l = sort_by cmp2 l.
Proof.
  intros Hc. induction 1 as [|x l Hx Hl IH]; [done|]. simpl. rewrite IH.
  apply (insert_by_ext P); [done|done|].
  by rewrite (sort_by_Permutation cmp2 l).
Qed.

(** A comparator that calls every two elements of [l] equal leaves [l] as
    it is: insertion stops at once, each element in front of the others. *)
Lemma sort_by_all_ties cmp l :
  (forall a b, a ∈ l -> b ∈ l -> cmp a b = 0) -> sort_by cmp l = l.
Proof.
  induction l as [|x l IH]; intros Ht; simpl; [done|].
  rewrite IH by (intros a b Ha Hb; apply Ht; by constructor).
  destruct l as [|y l]; simpl; [done|].
  by rewrite (Ht x y) by (left + (right; left)).
Qed.
End Sort.

#[export] Hint Resolve insert_by_Permutation sort_by_Permutation : wfv.

Section KeySort.
Context {A : Type} (key : A -> Z).

(** The comparator [(a, b) => key(b) - key(a)]: descending by key. *)
Definition desc_cmp (a b : A) : Z := key b - key a.

Definition sorted_desc (l : list A) : Prop := Sorted (fun a b => key b <= key a) l.

(** Stability: for every key, the elements with that key appear in the
    same order in [l'] as in [l]. *)
Definition same_key_order (l' l : list A) : Prop :=
  forall k, filter (fun x => key x = k) l' = filter (fun x => key x = k) l.

(** The ES2019 contract of [sort] for the comparator [desc_cmp]. *)
Definition sort_contract (l l' : list A) : Prop :=
  l' ≡ₚ l /\ sorted_desc l' /\ same_key_order l' l.

Lemma insert_by_sorted x l :
  sorted_desc l -> sorted_desc (insert_by desc_cmp x l).
Proof.
  unfold sorted_desc, desc_cmp. induction 1 as [|y l Hl IH Hhd]; simpl.
  - repeat constructor.
  - case_match eqn:E.
    + constructor; [by constructor|]. constructor. lia.
    + constructor; [done|].
      destruct l as [|z l]; simpl in *.
      * constructor. lia.
      * case_match; constructor; [lia|]. by invc Hhd.
Qed.

Lemma sort_by_sorted l : sorted_desc (sort_by desc_cmp l).
Proof. induction l; simpl; [constructor|]. by apply insert_by_sorted. Qed.

(** [x] goes after a prefix of strictly larger keys only. *)
Lemma insert_by_split x l :
  exists pre post, l = pre ++ post /\ insert_by desc_cmp x l = pre ++ x :: post /\
    Forall (fun y => key x < key y) pre.
Proof.
  unfold desc_cmp. induction l as [|y l IH]; simpl.
  - by exists [], [].
  - case_match eqn:E.
    + by exists [], (y :: l).
    + destruct IH as (pre & post & -> & -> & Hpre).
      exists (y :: pre), post. split; [done|split; [done|]]. constructor; [lia|done].
Qed.

Lemma filter_insert_by k x l :
  filter (fun y => key y = k) (insert_by desc_cmp x l) =
  filter (fun y => key y = k) (x :: l).
Proof.
  destruct (insert_by_split x l) as (pre & post & -> & -> & Hpre).
  rewrite filter_app, !filter_cons, !filter_app.
  assert (filter (fun y => key y = k) pre = [] \/ key x <> k) as [Hnil|Hne].
  { destruct (decide (key x = k)) as [<-|]; [left|by right].
    apply filter_Forall_not. eapply Forall_impl; [done|]. simpl. lia. }
  - rewrite Hnil. by case_decide.
  - by rewrite !decide_False.
Qed.

Lemma sort_by_stable l : same_key_order (sort_by desc_cmp l) l.
Proof.
  intros k. induction l as [|x l IH]; simpl; [done|].
  rewrite filter_insert_by, !filter_cons. by rewrite IH.
Qed.

(** In a list sorted by descending key, the head has the largest key. *)
Lemma sorted_desc_head x l y : sorted_desc (x :: l) -> y ∈ l -> key y <= key x.
Proof.
  intros Hs%Sorted_StronglySorted Hy; [|intros a b c; lia].
  invc Hs. rewrite Forall_forall in *. auto.
Qed.

Lemma sorted_desc_tail x l : sorted_desc (x :: l) -> sorted_desc l.
Proof. intros H. by invc H. Qed.

Lemma sorted_desc_lookup l i j a b :
  sorted_desc l -> (i < j)%nat -> l !! i = Some a -> l !! j = Some b -> key b <= key a.
Proof.
  revert i j. induction l as [|x l IH]; intros i j Hs Hij Ha Hb; [done|].
  destruct i as [|i], j as [|j]; simpl in *; try lia.
  - injection Ha as <-. apply (sorted_desc_head x l); [done|].
    by eapply list_elem_of_lookup_2.
  - apply (IH i j); eauto using sorted_desc_tail. lia.
Qed.

Lemma filter_key_nil_iff l :
  (forall k, filter (fun x => key x = k) l = []) -> l = [].
Proof.
  destruct l as [|x l]; [done|]. intros H. specialize (H (key x)).
  rewrite filter_cons_True in H; done.
Qed.

(** Two lists sorted by descending key with the same elements per key, in
    the same order, are equal. *)
Lemma sorted_same_key_order_eq l1 l2 :
  sorted_desc l1 -> sorted_desc l2 -> same_key_order l1 l2 -> l1 = l2.
Proof.
  revert l2. induction l1 as [|x r1 IH]; intros l2 H1 H2 Hf.
  - symmetry. apply filter_key_nil_iff. intros k. by rewrite <- Hf.
  - destruct l2 as [|y r2].
    + apply filter_key_nil_iff. intros k. apply Hf.
    + assert (key x = key y) as Hxy.
      { destruct (Z.lt_total (key x) (key y)) as [Hlt|[|Hlt]]; [exfalso| done | exfalso].
        - pose proof (Hf (key y)) as E. rewrite (filter_cons_True _ y) in E by done.
          assert (y ∈ filter (fun z => key z = key y) (x :: r1)) as Hy
            by (rewrite E; left).
          apply list_elem_of_filter in Hy as [Hky [<-|Hy]%elem_of_cons]; [lia|].
          pose proof (sorted_desc_head _ _ _ H1 Hy). lia.
        - pose proof (Hf (key x)) as E. rewrite (filter_cons_True _ x) in E by done.
          assert (x ∈ filter (fun z => key z = key x) (y :: r2)) as Hx
            by (rewrite <- E; left).
          apply list_elem_of_filter in Hx as [Hkx [<-|Hx]%elem_of_cons]; [lia|].
          pose proof (sorted_desc_head _ _ _ H2 Hx). lia. }
      pose proof (Hf (key x)) as E.
      rewrite !filter_cons_True in E by done. injection E as <- Er.
      f_equal. apply IH; eauto using sorted_desc_tail.
      intros k. specialize (Hf k). rewrite !filter_cons in Hf.
      case_decide; [by injection Hf|done].
Qed.

Lemma sort_by_contract l : sort_contract l (sort_by desc_cmp l).
Proof.
  split; [apply sort_by_Permutation|split]; [apply sort_by_sorted|apply sort_by_stable].
Qed.

(** Two lists meeting the contract for the same input are equal. *)
Lemma sort_contract_sort_by l l' : sort_contract l l' -> sort_by desc_cmp l = l'.
Proof.
  intros (_ & Hs & Hst). apply sorted_same_key_order_eq; [apply sort_by_sorted|done|].
  intros k. by rewrite sort_by_stable, Hst.
Qed.

End KeySort.
