(* ===== verification/JsNumber.v ===== *)
(** * JavaScript numbers, [Number::toString] and [Number.prototype.toFixed]

    A JavaScript number is an IEEE-754 binary64 value.  [number] is the
    Standard Library's [spec_float] (the Flocq-derived reference semantics of
    binary floating point, round-to-nearest-even), instantiated at precision
    53 and maximal exponent 1024; no primitive floats and no axioms are
    involved, and every operation computes by [vm_compute].

    The code divides and multiplies numbers in the percentage columns
    (lines 202 and 226 of [script.js]) and renders them with
    [toFixed(1)] and [toFixed(2)], and interpolates numbers into templates
    (lines 63-71, 119, 203, 231), which applies [Number::toString].  The
    rounding of [toFixed] is written after step 8.a of ECMA-262: the
    integer [n] nearest to [x * 10^f], the larger on a tie, computed exactly
    on the dyadic value of [x]. *)

From stdpp Require Import base list numbers strings pretty.
From Stdlib Require Import ZArith Lia SpecFloat.
From S2P Require Import Prelude JsString.

Local Open Scope Z_scope.

Definition number := spec_float.

#[export] Instance number_eq_dec : EqDecision number.
Proof. unfold number. solve_decision. Defined.

Definition prec : Z := 53.
Definition emax : Z := 1024.

(** [𝔽(z)]: the number nearest to the integer [z] (what [JSON.parse] yields
    for an integer literal and what the engine uses for an integer index). *)
Definition of_Z (z : Z) : number := binary_normalize prec emax z 0 false.

Definition js_add (x y : number) : number := SFadd prec emax x y.
Definition js_sub (x y : number) : number := SFsub prec emax x y.
Definition js_mul (x y : number) : number := SFmul prec emax x y.
Definition js_div (x y : number) : number := SFdiv prec emax x y.

(** ** The exact value of a finite number *)

(** [m * 2^e] as the integer pair (numerator, power of two of the
    denominator): [m * 2^e = num / 2^den]. *)
Definition scaled (m : positive) (e : Z) : Z * Z :=
  if 0 <=? e then (Z.pos m * 2 ^ e, 0) else (Z.pos m, - e).

(** [n] with [n / 10^f - x] closest to zero, the larger on a tie, for
    [x = m * 2^e >= 0]: [floor(x * 10^f + 1/2)]. *)
Definition round_fixed (f : nat) (m : positive) (e : Z) : Z :=
  let '(num, den) := scaled m e in
  (2 * num * 10 ^ Z.of_nat f + 2 ^ den) / (2 * 2 ^ den).

(** The decimal digits of a non-negative integer, ["0"] for zero. *)
Definition digits_of (n : Z) : jsstr := z_to_jsstr n.

(** Steps 8.b-8.e of [toFixed]: insert the decimal point [f] digits from
    the right, padding with zeros on the left. *)
Definition fixed_digits (f : nat) (n : Z) : jsstr :=
  let m := digits_of n in
  match f with
  | O => m
  | S _ =>
      let m := if decide (length m <= f)%nat
               then replicate (f + 1 - length m) (Z.of_nat 48) ++ m else m in
      let k := length m in
      take (k - f) m ++ js "." ++ drop (k - f) m
  end.

(** ** [Number::toString] (ECMA-262 6.1.6.1.20, radix 10)

    For a finite [x > 0], [k], [n], [s] are chosen with [10^(k-1) <= s < 10^k],
    [𝔽(s * 10^(n-k)) = x] and [k] as small as possible; among several [s]
    the one whose value is closest to [x], the even one on a tie. *)

(** The nearest number to the positive rational [p / q], rounded as the
    division of [SpecFloat] rounds its exact quotient. *)
Definition round_q (p q : Z) : number :=
  let '(m, e, l) := SFdiv_core_binary prec emax p 0 q 0 in
  binary_round_aux prec emax false m e l.

(** [x = num / 2^den >= 10^j] *)
Definition ge_pow10 (num den j : Z) : bool :=
  if 0 <=? j then 10 ^ j * 2 ^ den <=? num else 2 ^ den <=? num * 10 ^ (- j).

Fixpoint adjust_up (num den n : Z) (fuel : nat) : Z :=
  match fuel with
  | O => n
  | S f => if ge_pow10 num den n then adjust_up num den (n + 1) f else n
  end.

Fixpoint adjust_down (num den n : Z) (fuel : nat) : Z :=
  match fuel with
  | O => n
  | S f => if ge_pow10 num den (n - 1) then n else adjust_down num den (n - 1) f
  end.

Definition ndigits (x : Z) : Z := Z.of_nat (length (digits_of x)).

(** The decimal exponent [n] with [10^(n-1) <= x < 10^n].  The estimate
    [ndigits num - den * log10 2] is within 2 of [n] for every binary64
    value ([den <= 1074]), so 8 adjustment steps each way are enough. *)
Definition dec_exponent (num den : Z) : Z :=
  let n0 := ndigits num - den * 30103 / 100000 in
  adjust_down num den (adjust_up num den n0 8) 8.

(** A candidate [(s, n)] with [k] digits as a fraction [a / b]. *)
Definition cand_frac (k : Z) (c : Z * Z) : Z * Z :=
  if 0 <=? c.2 - k then (c.1 * 10 ^ (c.2 - k), 1) else (c.1, 10 ^ (k - c.2)).

Definition cand_rounds_to (xv : number) (k : Z) (c : Z * Z) : bool :=
  let '(a, b) := cand_frac k c in bool_decide (round_q a b = xv).

(** [|s * 10^(n-k) - x|] as a fraction over [b * 2^den]. *)
Definition cand_dist (num den k : Z) (c : Z * Z) : Z * Z :=
  let '(a, b) := cand_frac k c in (Z.abs (a * 2 ^ den - num * b), b).

(** The [k]-digit truncation of [x] and its successor. *)
Definition candidates (num den n k : Z) : list (Z * Z) :=
  let lo := if 0 <=? k - n then num * 10 ^ (k - n) / 2 ^ den
            else num / (2 ^ den * 10 ^ (n - k)) in
  let hi := if lo + 1 =? 10 ^ k then (10 ^ (k - 1), n + 1) else (lo + 1, n) in
  [(lo, n); hi].

Definition best_candidate (xv : number) (num den n k : Z) : option (Z * Z) :=
  match filter (fun c => cand_rounds_to xv k c = true) (candidates num den n k) with
  | [] => None
  | [c] => Some c
  | c1 :: c2 :: _ =>
      let '(d1, b1) := cand_dist num den k c1 in
      let '(d2, b2) := cand_dist num den k c2 in
      if d1 * b2 <? d2 * b1 then Some c1
      else if d2 * b1 <? d1 * b2 then Some c2
      else if Z.even c1.1 then Some c1 else Some c2
  end.

(** Try [k = 1, 2, ...]; 17 digits always identify a binary64 value, so
    [fuel = 17] is enough. *)
Fixpoint shortest_from (xv : number) (num den n k : Z) (fuel : nat) : option (Z * Z * Z) :=
  match fuel with
  | O => None
  | S fuel' =>
      match best_candidate xv num den n k with
      | Some (s, n') => Some (s, n', k)
      | None => shortest_from xv num den n (k + 1) fuel'
      end
  end.

(** Steps 6-10 of [Number::toString]: the digits [s] of length [k] placed
    by the exponent [n]. *)
Definition format_decimal (s n k : Z) : jsstr :=
  let d := digits_of s in
  if (k <=? n) && (n <=? 21) then d ++ replicate (Z.to_nat (n - k)) 48
  else if (0 <? n) && (n <=? 21) then
    take (Z.to_nat n) d ++ js "." ++ drop (Z.to_nat n) d
  else if (-6 <? n) && (n <=? 0) then
    js "0." ++ replicate (Z.to_nat (- n)) 48 ++ d
  else
    let e := n - 1 in
    let esign := if e <? 0 then js "-" else js "+" in
    match d with
    | [c] => c :: js "e" ++ esign ++ digits_of (Z.abs e)
    | c :: rest => c :: js "." ++ rest ++ js "e" ++ esign ++ digits_of (Z.abs e)
    | [] => []
    end.

Definition pos_to_string (m : positive) (e : Z) : jsstr :=
  let '(num, den) := scaled m e in
  let xv := S754_finite false m e in
  match shortest_from xv num den (dec_exponent num den) 1 17 with
  | Some (s, n, k) => format_decimal s n k
  | None => []
  end.

Definition number_to_string (x : number) : jsstr :=
  match x with
  | S754_nan => js "NaN"
  | S754_zero _ => js "0"
  | S754_infinity false => js "Infinity"
  | S754_infinity true => js "-Infinity"
  | S754_finite false m e => pos_to_string m e
  | S754_finite true m e => js "-" ++ pos_to_string m e
  end.

(** ** [Number.prototype.toFixed(f)] *)

Definition to_fixed (f : nat) (x : number) : jsstr :=
  match x with
  | S754_nan => js "NaN"
  | S754_infinity false => js "Infinity"
  | S754_infinity true => js "-Infinity"
  | S754_zero _ => fixed_digits f 0
  | S754_finite s m e =>
      let sign := if s then js "-" else [] in
      let '(num, den) := scaled m e in
      if 10 ^ 21 * 2 ^ den <=? num
      then sign ++ number_to_string (S754_finite false m e)
      else sign ++ fixed_digits f (round_fixed f m e)
  end.

(** The sign [SortCompare] takes from a comparator's result: [Array.prototype.sort]
    only asks whether it is negative, zero or positive ([NaN] counts as
    [+0], ECMA-262 23.1.3.30.2). *)
Definition number_sign (x : number) : Z :=
  match x with
  | S754_finite s _ _ | S754_infinity s => if s then -1 else 1
  | _ => 0
  end.

(** ** Lemmas *)

(** [x - x] is [+0] or [NaN]: a comparator returning it calls the two
    arguments equal, whatever [x] is. *)
Lemma js_sub_self_sign x : number_sign (js_sub x x) = 0.
Proof.
  destruct x as [s|s| |s m e]; [by destruct s..|done|].
  unfold js_sub, SFsub. by rewrite Z.sub_diag.
Qed.
