(* ===== verification/Exact.v ===== *)
(** * Integers in binary64: exactness below 2^53

    The counts of the answer are integers, and the code adds them
    ([wordsData.reduce], line 220; [dataset.data.reduce], line 201) and
    subtracts them (the comparator, line 223) as JavaScript numbers.  This
    file shows that these operations are exact while the integers and the
    results stay below 2^53: an integer [p < 2^53] has one binary64 form,
    its 53-digit mantissa [canon_mant p] with exponent [canon_exp p]; every
    rounding of [p * 2^k] at exponent [-k] lands on it ([binary_round_shl]),
    so [SFadd] and [SFsub] of two such integers give the form of their exact
    sum or difference ([js_add_exact], [js_sub_exact]).  The proofs follow
    [SpecFloat]'s definitions step by step: alignment ([shl_align]), the
    right shifts of the rounding ([shr_fexp], exact when only zero bits are
    dropped) and the final range check. *)

From stdpp Require Import base list numbers.
From Stdlib Require Import ZArith Lia SpecFloat.
From S2P Require Import Prelude JsString JsNumber.

Local Open Scope Z_scope.
(** [p * 2^n] as a positive. *)
Definition shl (n : nat) (p : positive) : positive := Nat.iter n xO p.

(** The canonical binary64 form of the integer [p < 2^53]: 53 digits. *)
Definition canon_exp (p : positive) : Z := Zpos (digits2_pos p) - 53.
Definition canon_mant (p : positive) : positive := shl (Z.to_nat (53 - Zpos (digits2_pos p))) p.

(** ** Shifts and digits *)

Lemma shl_Z n p : Zpos (shl n p) = Zpos p * 2 ^ Z.of_nat n.
Proof.
  induction n as [|n IH]; simpl; [lia|].
  rewrite Pos2Z.inj_xO, IH, Nat2Z.inj_succ, Z.pow_succ_r by lia. lia.
Qed.

Lemma shl_0 p : shl 0 p = p.
Proof. done. Qed.

Lemma shl_add n m p : shl n (shl m p) = shl (n + m) p.
Proof. unfold shl. by rewrite Nat.iter_add. Qed.

Lemma digits2_shl n p : Zpos (digits2_pos (shl n p)) = Zpos (digits2_pos p) + Z.of_nat n.
Proof. induction n as [|n IH]; simpl; [lia|]. rewrite Pos2Z.inj_succ, IH. lia. Qed.

Lemma digits2_size p : digits2_pos p = Pos.size p.
Proof. induction p; simpl; congruence. Qed.

Lemma digits2_bounds p :
  2 ^ (Zpos (digits2_pos p) - 1) <= Zpos p < 2 ^ Zpos (digits2_pos p).
Proof.
  rewrite digits2_size. pose proof (Pos.size_gt p) as H1. pose proof (Pos.size_le p) as H2.
  assert (Zpos p < Zpos (2 ^ Pos.size p)) as H1' by exact H1.
  assert (Zpos (2 ^ Pos.size p) <= Zpos p~0) as H2' by exact H2. clear H1 H2.
  rename H1' into H1. rename H2' into H2.
  rewrite Pos2Z.inj_pow in H1, H2. replace (Zpos p~0) with (2 * Zpos p) in H2 by lia.
  split; [|done].
  assert (2 ^ Zpos (Pos.size p) = 2 * 2 ^ (Zpos (Pos.size p) - 1)) as E
    by (rewrite <-Z.pow_succ_r by lia; f_equal; lia).
  lia.
Qed.

Lemma iter_pos_nat {A} (f : A -> A) p x : iter_pos f p x = Nat.iter (Pos.to_nat p) f x.
Proof.
  revert x. induction p as [p IH|p IH|]; intros x; cbn [iter_pos]; [| |done].
  - rewrite Pos2Nat.inj_xI, !IH, <-Nat.iter_add, <-Nat.iter_succ_r. f_equal. lia.
  - rewrite Pos2Nat.inj_xO, !IH, <-Nat.iter_add. f_equal. lia.
Qed.

Lemma iter_shr_1_shl n q :
  Nat.iter n shr_1 {| shr_m := Zpos (shl n q); shr_r := false; shr_s := false |} =
  {| shr_m := Zpos q; shr_r := false; shr_s := false |}.
Proof. induction n as [|n IH]; [done|]. by rewrite Nat.iter_succ_r. Qed.

Lemma fexp_eq x : -1021 <= x -> fexp prec emax x = x - 53.
Proof. intros Hx. unfold fexp, emin, prec, emax. lia. Qed.

Lemma fexp_53 e : -1074 <= e -> fexp prec emax (53 + e) = e.
Proof. intros He. rewrite fexp_eq; lia. Qed.

(** Dropping [j] zero bits is exact. *)
Lemma shr_fexp_shl j m e :
  fexp prec emax (Zpos (digits2_pos (shl j m)) + e) - e = Z.of_nat j ->
  shr_fexp prec emax (Zpos (shl j m)) e loc_Exact =
  ({| shr_m := Zpos m; shr_r := false; shr_s := false |}, e + Z.of_nat j).
Proof.
  intros H. unfold shr_fexp. cbn [Zdigits2 shr_record_of_loc]. rewrite H.
  destruct j as [|j]; [by rewrite Z.add_0_r|].
  change (Z.of_nat (S j)) with (Zpos (Pos.of_succ_nat j)). unfold shr.
  by rewrite iter_pos_nat, SuccNat2Pos.id_succ, iter_shr_1_shl.
Qed.

(** A rounding whose first shift is exact and leaves 53 digits returns
    that mantissa. *)
Lemma binary_round_aux_exact s M E m e :
  shr_fexp prec emax M E loc_Exact = ({| shr_m := Zpos m; shr_r := false; shr_s := false |}, e) ->
  Zpos (digits2_pos m) = 53 -> -1074 <= e <= 971 ->
  binary_round_aux prec emax s M E loc_Exact = S754_finite s m e.
Proof.
  intros H Hm He. unfold binary_round_aux. rewrite H. cbn [shr_m loc_of_shr_record round_nearest_even].
  unfold shr_fexp. cbn [Zdigits2 shr_record_of_loc]. rewrite Hm, fexp_53 by lia.
  rewrite Z.sub_diag. cbn [shr shr_m]. replace (e <=? emax - prec) with true by (unfold emax, prec; lia).
  done.
Qed.


Lemma digits2_le_53 p : Zpos p < 2 ^ 53 -> Zpos (digits2_pos p) <= 53.
Proof.
  intros H. pose proof (digits2_bounds p) as [H1 _].
  destruct (Z.le_gt_cases (Zpos (digits2_pos p)) 53) as [|Hgt]; [done|].
  assert (2 ^ 53 <= 2 ^ (Zpos (digits2_pos p) - 1)) by (apply Z.pow_le_mono_r; lia). lia.
Qed.

Lemma digits2_canon_mant p :
  Zpos p < 2 ^ 53 -> Zpos (digits2_pos (canon_mant p)) = 53.
Proof. intros H. pose proof (digits2_le_53 p H). unfold canon_mant. rewrite digits2_shl. lia. Qed.

Lemma binary_round_shl s p k :
  Zpos p < 2 ^ 53 ->
  binary_round prec emax s (shl k p) (- Z.of_nat k) = S754_finite s (canon_mant p) (canon_exp p).
Proof.
  intros Hp. pose proof (digits2_le_53 p Hp) as Hd. pose proof (digits2_canon_mant p Hp) as Hc.
  unfold binary_round, canon_exp. rewrite digits2_shl.
  replace (Zpos (digits2_pos p) + Z.of_nat k + - Z.of_nat k)
    with (53 + (Zpos (digits2_pos p) - 53)) by lia.
  rewrite fexp_53 by lia. unfold shl_align.
  destruct (Zpos (digits2_pos p) - 53 - - Z.of_nat k) as [|q|q] eqn:E.
  - apply binary_round_aux_exact; [|done|lia].
    replace (shl k p) with (shl 0 (canon_mant p)).
    2:{ unfold canon_mant. rewrite shl_0. f_equal. lia. }
    rewrite shr_fexp_shl; [f_equal; lia|]. rewrite shl_0, Hc, fexp_53; lia.
  - apply binary_round_aux_exact; [|done|lia].
    replace (shl k p) with (shl (Pos.to_nat q) (canon_mant p)).
    2:{ unfold canon_mant. rewrite shl_add. f_equal. lia. }
    rewrite shr_fexp_shl; [f_equal; lia|].
    rewrite digits2_shl, Hc, fexp_eq; lia.
  - rewrite Pos2Nat.inj_iter.
    change (nat_rect _ (shl k p) (fun _ => xO) (Pos.to_nat q)) with (shl (Pos.to_nat q) (shl k p)).
    rewrite shl_add. apply binary_round_aux_exact; [|lia|lia].
    replace (shl (Pos.to_nat q + k) p) with (shl 0 (canon_mant p)).
    2:{ unfold canon_mant. rewrite shl_0. f_equal. lia. }
    rewrite shr_fexp_shl; [f_equal; lia|]. rewrite shl_0, Hc, fexp_53; lia.
Qed.

Lemma canon_exp_nat p :
  Zpos p < 2 ^ 53 -> canon_exp p = - Z.of_nat (Z.to_nat (53 - Zpos (digits2_pos p))).
Proof. intros H. pose proof (digits2_le_53 p H). unfold canon_exp. lia. Qed.

Lemma binary_normalize_shl z M :
  Z.abs z < 2 ^ 53 ->
  binary_normalize prec emax (z * 2 ^ Z.of_nat M) (- Z.of_nat M) false = of_Z z.
Proof.
  intros Hz. unfold of_Z. destruct z as [|r|r]; [done| |].
  - rewrite <-shl_Z. cbn [binary_normalize].
    rewrite (binary_round_shl false r M) by lia. symmetry. exact (binary_round_shl false r 0 ltac:(lia)).
  - replace (Zneg r * 2 ^ Z.of_nat M) with (Zneg (shl M r)) by (rewrite <-Pos2Z.opp_pos, shl_Z; lia).
    cbn [binary_normalize].
    rewrite (binary_round_shl true r M) by lia. symmetry. exact (binary_round_shl true r 0 ltac:(lia)).
Qed.

Lemma of_Z_canon p :
  Zpos p < 2 ^ 53 -> of_Z (Zpos p) = S754_finite false (canon_mant p) (canon_exp p).
Proof. intros H. exact (binary_round_shl false p 0 H). Qed.

Lemma shl_align_shl n M p :
  (n <= M)%nat -> fst (shl_align (shl n p) (- Z.of_nat n) (- Z.of_nat M)) = shl M p.
Proof.
  intros H. unfold shl_align.
  destruct (- Z.of_nat M - - Z.of_nat n) as [|q|q] eqn:E; cbn [fst].
  - f_equal. lia.
  - lia.
  - rewrite Pos2Nat.inj_iter.
    change (nat_rect _ (shl n p) (fun _ => xO) (Pos.to_nat q)) with (shl (Pos.to_nat q) (shl n p)).
    rewrite shl_add. f_equal. lia.
Qed.

(** The mantissas of two integers aligned to the smaller exponent. *)
Lemma aligned_sum (f : Z -> Z -> Z) pa pb :
  Zpos pa < 2 ^ 53 -> Zpos pb < 2 ^ 53 ->
  (forall x y c, f (x * c) (y * c) = f x y * c) ->
  let na := Z.to_nat (53 - Zpos (digits2_pos pa)) in
  let nb := Z.to_nat (53 - Zpos (digits2_pos pb)) in
  let ez := Z.min (canon_exp pa) (canon_exp pb) in
  f (Zpos (fst (shl_align (canon_mant pa) (canon_exp pa) ez)))
    (Zpos (fst (shl_align (canon_mant pb) (canon_exp pb) ez))) =
  f (Zpos pa) (Zpos pb) * 2 ^ Z.of_nat (Nat.max na nb) /\
  ez = - Z.of_nat (Nat.max na nb).
Proof.
  intros Ha Hb Hf na nb ez.
  assert (ez = - Z.of_nat (Nat.max na nb)) as Hez.
  { subst ez. rewrite !canon_exp_nat by done. lia. }
  split; [|done]. rewrite Hez, !canon_exp_nat by done. unfold canon_mant.
  rewrite !shl_align_shl by lia. rewrite !shl_Z. apply Hf.
Qed.

(** Binary64 addition of two non-negative integers is exact while the sum
    stays below [2^53]. *)
Lemma js_add_exact a b :
  0 <= a -> 0 <= b -> a + b < 2 ^ 53 -> js_add (of_Z a) (of_Z b) = of_Z (a + b).
Proof.
  intros Ha Hb Hab.
  destruct a as [|pa|pa], b as [|pb|pb]; try lia; [done|..].
  - rewrite Z.add_0_l, of_Z_canon by lia. done.
  - rewrite Z.add_0_r, of_Z_canon by lia. done.
  - rewrite !of_Z_canon by lia. unfold js_add. cbn [SFadd cond_Zopp].
    pose proof (aligned_sum Z.add pa pb ltac:(lia) ltac:(lia) ltac:(intros; lia)) as H.
    cbv zeta in H. destruct H as [-> ->]. apply binary_normalize_shl. lia.
Qed.

(** Binary64 subtraction of two integers in [[0, 2^53)] is exact. *)
Lemma js_sub_exact a b :
  0 <= a < 2 ^ 53 -> 0 <= b < 2 ^ 53 -> js_sub (of_Z a) (of_Z b) = of_Z (a - b).
Proof.
  intros Ha Hb.
  destruct a as [|pa|pa], b as [|pb|pb]; try lia; [done|..].
  - rewrite Z.sub_0_l, of_Z_canon by lia. unfold of_Z. cbn [Z.opp binary_normalize].
    exact (eq_sym (binary_round_shl true pb 0 ltac:(lia))).
  - rewrite Z.sub_0_r, of_Z_canon by lia. done.
  - rewrite !of_Z_canon by lia. unfold js_sub. cbn [SFsub cond_Zopp].
    pose proof (aligned_sum Z.sub pa pb ltac:(lia) ltac:(lia) ltac:(intros; lia)) as H.
    cbv zeta in H. destruct H as [-> ->]. apply binary_normalize_shl. lia.
Qed.

Lemma of_Z_canon_neg p :
  Zpos p < 2 ^ 53 -> of_Z (Zneg p) = S754_finite true (canon_mant p) (canon_exp p).
Proof. intros H. exact (binary_round_shl true p 0 H). Qed.

(** The sign a comparator's result has for [SortCompare] is the sign of
    the integer. *)
Lemma number_sign_of_Z z : Z.abs z < 2 ^ 53 -> number_sign (of_Z z) = Z.sgn z.
Proof.
  destruct z as [|p|p]; intros H; [done| |].
  - by rewrite of_Z_canon by lia.
  - by rewrite of_Z_canon_neg by lia.
Qed.

(** A left fold of binary64 additions of non-negative integers is the
    exact sum while it stays below [2^53]. *)
Lemma fold_add_exact {A} (f : A -> Z) xs s :
  0 <= s -> Forall (fun x => 0 <= f x) xs -> s + sumZ f xs < 2 ^ 53 ->
  fold_left (fun acc x => js_add acc (of_Z (f x))) xs (of_Z s) = of_Z (s + sumZ f xs).
Proof.
  revert s. induction xs as [|x xs IH]; intros s Hs Hall Hlt; simpl in *; [by rewrite Z.add_0_r|].
  inversion Hall as [|? ? Hx Hall']; subst. pose proof (sumZ_nonneg f xs Hall').
  rewrite js_add_exact by lia. rewrite IH; [f_equal; lia|lia|done|lia].
Qed.
