(* ===== verification/Rounding.v ===== *)
(** * Rounding error of binary64 division and multiplication

    The percentage column (line 226) computes [(count / total) * 100] in
    binary64 and prints it with [toFixed(2)].  This file bounds the error of
    [SFdiv] and [SFmul] on normal numbers by the unit roundoff [2^-53],
    following [SpecFloat]'s definitions: [shr_sem] gives a shift record
    (truncated mantissa, round bit, sticky bit) its meaning relative to an
    exact rational [num / den]; [shr_1] and the division's [new_location]
    keep that meaning; [round_nearest_even] is then within half a unit; the
    second shift of [binary_round_aux] only absorbs the carry.  The bounds
    are stated in [R]. *)

From Stdlib Require Import ZArith Lia SpecFloat Reals Lra.
From S2P Require Import Prelude JsNumber Exact.

Local Open Scope Z_scope.

(** ** The meaning of a shift record *)

(** [R] describes [x = num / den]: [shr_m R] is [floor x], the round bit
    tells whether the fraction is at least [1/2], the sticky bit whether it
    is neither [0] nor [1/2]. *)
Definition shr_sem (R : shr_record) (num den : Z) : Prop :=
  0 < den /\ den * shr_m R <= num < den * (shr_m R + 1) /\
  shr_r R = (den * (2 * shr_m R + 1) <=? 2 * num) /\
  shr_s R = negb ((num =? den * shr_m R) || (2 * num =? den * (2 * shr_m R + 1))).

Lemma shr_1_sem R num den :
  0 <= shr_m R -> shr_sem R num den -> shr_sem (shr_1 R) num (2 * den).
Proof.
  destruct R as [m r s]. intros Hm (Hd & Hb & Hr & Hs). cbn [shr_m shr_r shr_s] in *.
  unfold shr_sem. subst r s.
  destruct m as [|[p|p|]|]; cbn [shr_1 shr_m shr_r shr_s]; try lia;
    repeat split; try lia;
    repeat match goal with |- context [?a =? ?b] => destruct (Z.eqb_spec a b) end;
    repeat match goal with |- context [?a <=? ?b] => destruct (Z.leb_spec a b) end;
    cbn; lia.
Qed.

Lemma shr_1_nonneg R : 0 <= shr_m R -> 0 <= shr_m (shr_1 R).
Proof. destruct R as [[|[p|p|]|p] r s]; cbn; lia. Qed.

Lemma iter_shr_1_sem n R num den :
  0 <= shr_m R -> shr_sem R num den ->
  shr_sem (Nat.iter n shr_1 R) num (2 ^ Z.of_nat n * den) /\ 0 <= shr_m (Nat.iter n shr_1 R).
Proof.
  induction n as [|n IH]; intros Hm HR; [now rewrite Z.mul_1_l|].
  destruct (IH Hm HR) as [H1 H2]. rewrite Nat.iter_succ.
  replace (2 ^ Z.of_nat (S n) * den) with (2 * (2 ^ Z.of_nat n * den))
    by (rewrite Nat2Z.inj_succ, Z.pow_succ_r by lia; lia).
  split; [now apply shr_1_sem|].
  now apply shr_1_nonneg.
Qed.

Lemma shr_sem_exact m : shr_sem (shr_record_of_loc m loc_Exact) m 1.
Proof.
  unfold shr_sem. cbn [shr_record_of_loc shr_m shr_r shr_s].
  repeat split; try lia; rewrite ?Z.mul_1_l, ?Z.eqb_refl; try reflexivity.
Qed.

(** The location [SFdiv] computes from the remainder. *)
Lemma new_location_sem m' m2 q r :
  0 < m2 -> Z.div_eucl m' m2 = (q, r) ->
  shr_sem (shr_record_of_loc q (new_location m2 r)) m' m2.
Proof.
  intros Hm2 E.
  assert (q = m' / m2 /\ r = m' mod m2) as [Hq Hr]
    by (unfold Z.div, Z.modulo; rewrite E; split; reflexivity).
  pose proof (Z.div_mod m' m2 ltac:(lia)) as Hdm. pose proof (Z.mod_pos_bound m' m2 Hm2) as Hb.
  rewrite <-Hq, <-Hr in *.
  unfold new_location, new_location_even, new_location_odd.
  destruct (Z.even m2) eqn:Ev; destruct (Z.eqb_spec r 0).
  4: assert (Z.odd m2 = true) as Ev' by (rewrite <-Z.negb_even, Ev; reflexivity);
     apply Z.odd_spec in Ev'; destruct Ev' as [h Eh]; destruct (Z.compare_spec (2 * r + 1) m2).
  2: destruct (Z.compare_spec (2 * r) m2).
  all: unfold shr_sem; cbn [shr_record_of_loc shr_m shr_r shr_s];
    (repeat split; try lia);
    repeat match goal with |- context [?a =? ?b] => destruct (Z.eqb_spec a b) end;
    repeat match goal with |- context [?a <=? ?b] => destruct (Z.leb_spec a b) end;
    cbn; lia.
Qed.

(** Rounding to nearest, ties to even, is within half a unit of [x] and
    moves the truncation up by at most one. *)
Lemma round_nearest_even_err R num den :
  shr_sem R num den ->
  let mr := round_nearest_even (shr_m R) (loc_of_shr_record R) in
  Z.abs (2 * den * mr - 2 * num) <= den /\ shr_m R <= mr <= shr_m R + 1.
Proof.
  destruct R as [m r s]. intros (Hd & Hb & Hr & Hs). cbn [shr_m shr_r shr_s] in *. subst r s.
  repeat match goal with |- context [?a =? ?b] => destruct (Z.eqb_spec a b) end;
  repeat match goal with |- context [?a <=? ?b] => destruct (Z.leb_spec a b) end;
  cbn [negb orb loc_of_shr_record round_nearest_even];
  try (destruct (Z.even m)); lia.
Qed.

(** ** [binary_round_aux] in the normal range *)

Lemma digits2_eq p n : 2 ^ (n - 1) <= Zpos p < 2 ^ n -> Zpos (digits2_pos p) = n.
Proof.
  intros [H1 H2]. pose proof (digits2_bounds p) as [D1 D2].
  destruct (Z.lt_trichotomy (Zpos (digits2_pos p)) n) as [Hlt|[Heq|Hgt]]; [|exact Heq|].
  - assert (2 ^ Zpos (digits2_pos p) <= 2 ^ (n - 1)) by (apply Z.pow_le_mono_r; lia). lia.
  - assert (2 ^ n <= 2 ^ (Zpos (digits2_pos p) - 1)) by (apply Z.pow_le_mono_r; lia). lia.
Qed.

Lemma shr_nat R e k : 0 <= k -> shr R e k = (Nat.iter (Z.to_nat k) shr_1 R, e + k).
Proof.
  intros Hk. destruct k as [|p|p]; [now rewrite Z.add_0_r| |lia].
  unfold shr. now rewrite iter_pos_nat, Z2Nat.inj_pos.
Qed.

Lemma shr_m_record_of_loc m l : shr_m (shr_record_of_loc m l) = m.
Proof. destruct l as [|[]]; reflexivity. Qed.

(** The first shift drops [k = digits mx - 53] bits and leaves a 53-digit
    truncation; rounding it gives [mr], within half a unit. *)
Lemma first_shift_sem mx ex lx num den :
  shr_sem (shr_record_of_loc mx lx) num den -> 2 ^ 52 <= mx ->
  -1074 <= ex + Zdigits2 mx - 53 ->
  let k := Zdigits2 mx - 53 in
  exists R', shr_fexp prec emax mx ex lx = (R', ex + k) /\ 0 <= k /\
    shr_sem R' num (2 ^ k * den) /\ 2 ^ 52 <= shr_m R' < 2 ^ 53.
Proof.
  intros H0 Hmx He k. destruct mx as [|p|p]; try lia.
  pose proof (digits2_bounds p) as [D1 D2]. cbn [Zdigits2] in *.
  assert (0 <= k) as Hk.
  { subst k. destruct (Z.le_gt_cases 53 (Zpos (digits2_pos p))); [lia|].
    assert (2 ^ Zpos (digits2_pos p) <= 2 ^ 52) by (apply Z.pow_le_mono_r; lia). lia. }
  unfold shr_fexp. cbn [Zdigits2]. rewrite fexp_eq by lia.
  replace (Zpos (digits2_pos p) + ex - 53 - ex) with k by lia.
  rewrite shr_nat by exact Hk.
  pose proof (iter_shr_1_sem (Z.to_nat k) (shr_record_of_loc (Zpos p) lx) num den) as [HR Hm];
    [rewrite shr_m_record_of_loc; lia|exact H0|].
  rewrite Z2Nat.id in HR by exact Hk.
  eexists. split; [reflexivity|split; [exact Hk|split; [exact HR|]]].
  destruct H0 as (Hd & Hb0 & _). destruct HR as (_ & Hb & _).
  rewrite shr_m_record_of_loc in Hb0.
  assert (2 ^ (Zpos (digits2_pos p) - 1) = 2 ^ k * 2 ^ 52) as E1 by (rewrite <-Z.pow_add_r by lia; f_equal; lia).
  assert (2 ^ Zpos (digits2_pos p) = 2 ^ k * 2 ^ 53) as E2 by (rewrite <-Z.pow_add_r by lia; f_equal; lia).
  rewrite E1 in D1. rewrite E2 in D2.
  set (M := shr_m (Nat.iter (Z.to_nat k) shr_1 (shr_record_of_loc (Zpos p) lx))) in *.
  assert (0 < 2 ^ k) by (apply Z.pow_pos_nonneg; lia).
  split; nia.
Qed.

(** The second shift of [binary_round_aux]: nothing to do below [2^53];
    at [2^53] (a carry) one exact step to [2^52]. *)
Lemma second_shift_53 q e :
  -1074 <= e -> 2 ^ 52 <= Zpos q < 2 ^ 53 ->
  shr_fexp prec emax (Zpos q) e loc_Exact = (shr_record_of_loc (Zpos q) loc_Exact, e).
Proof.
  intros He Hq. unfold shr_fexp. cbn [Zdigits2].
  rewrite (digits2_eq q 53) by (cbn; lia). rewrite fexp_53 by lia. now rewrite Z.sub_diag.
Qed.

Lemma second_shift_carry e :
  -1074 <= e ->
  shr_fexp prec emax (2 ^ 53) e loc_Exact = (shr_record_of_loc (2 ^ 52) loc_Exact, e + 1).
Proof.
  intros He. unfold shr_fexp. change (Zdigits2 (2 ^ 53)) with 54.
  rewrite fexp_eq by lia. replace (54 + e - 53 - e) with 1 by lia. reflexivity.
Qed.

Lemma binary_round_aux_sem mx ex lx num den :
  shr_sem (shr_record_of_loc mx lx) num den -> 2 ^ 52 <= mx ->
  -1074 <= ex + Zdigits2 mx - 53 -> ex + Zdigits2 mx - 53 < 971 ->
  let k := Zdigits2 mx - 53 in
  exists mr m e, binary_round_aux prec emax false mx ex lx = S754_finite false m e /\
    0 <= k /\ Z.abs (2 * (2 ^ k * den) * mr - 2 * num) <= 2 ^ k * den /\
    2 ^ 52 * (2 ^ k * den) <= num /\ Zpos (digits2_pos m) = 53 /\
    ((Zpos m = mr /\ e = ex + k) \/ (mr = 2 ^ 53 /\ Zpos m = 2 ^ 52 /\ e = ex + k + 1)).
Proof.
  intros H0 Hmx He1 He2 k.
  destruct (first_shift_sem mx ex lx num den H0 Hmx He1) as (R' & Hs & Hk & HR & HM).
  pose proof (round_nearest_even_err R' num (2 ^ k * den) HR) as [Herr Hmr].
  set (mr := round_nearest_even (shr_m R') (loc_of_shr_record R')) in *.
  assert (2 ^ 52 * (2 ^ k * den) <= num).
  { pose proof HR as (Hd & Hb & _). unfold k in *.
    assert (2 ^ 52 * (2 ^ (Zdigits2 mx - 53) * den) <= shr_m R' * (2 ^ (Zdigits2 mx - 53) * den))
      by (apply Z.mul_le_mono_nonneg_r; lia).
    lia. }
  exists mr. unfold binary_round_aux. rewrite Hs. fold k. fold mr.
  destruct (Z.eq_dec mr (2 ^ 53)) as [Ec|Ec].
  - rewrite Ec, second_shift_carry by lia. cbn [shr_record_of_loc shr_m].
    replace (ex + k + 1 <=? emax - prec) with true by (unfold emax, prec; lia).
    eexists _, _. split; [reflexivity|]. split; [exact Hk|split; [lia|split; [lia|split]]].
    + reflexivity.
    + right. split; [reflexivity|split; reflexivity].
  - destruct mr as [|q|q] eqn:Emr; try lia.
    rewrite second_shift_53 by lia. cbn [shr_record_of_loc shr_m].
    replace (ex + k <=? emax - prec) with true by (unfold emax, prec; lia).
    eexists _, _. split; [reflexivity|]. split; [exact Hk|split; [lia|split; [lia|split]]].
    + apply digits2_eq. cbn. lia.
    + left. split; reflexivity.
Qed.

(** ** The error in [R] *)

Local Open Scope R_scope.

Definition bpow (e : Z) : R := powerRZ 2 e.

(** The value of the finite number [m * 2^e]. *)
Definition fval (m : positive) (e : Z) : R := IZR (Zpos m) * bpow e.

Lemma bpow_add a b : bpow (a + b) = bpow a * bpow b.
Proof. unfold bpow. apply powerRZ_add. lra. Qed.

Lemma bpow_pos e : 0 < bpow e.
Proof. unfold bpow. apply powerRZ_lt. lra. Qed.

Lemma bpow_IZR n : (0 <= n)%Z -> bpow n = IZR (2 ^ n).
Proof.
  intros Hn. destruct n as [|p|p]; [reflexivity| |lia].
  unfold bpow. cbn [powerRZ]. rewrite pow_IZR, positive_nat_Z. reflexivity.
Qed.

Lemma bpow_m53 : bpow (-53) * IZR (2 ^ 52) = / 2.
Proof.
  assert (bpow (-53) = / bpow 53) as -> by reflexivity. rewrite bpow_IZR by lia.
  replace (2 ^ 53)%Z with (2 * 2 ^ 52)%Z by reflexivity. rewrite mult_IZR.
  field. apply not_0_IZR. lia.
Qed.

Lemma rel_err_core (B D P N Mr u K : R) :
  0 < B -> 0 < D -> 0 < P -> 0 < u -> u * K = / 2 ->
  - (P * D) <= 2 * P * D * Mr - 2 * N <= P * D -> K * P * D <= N ->
  Rabs (Mr * P * B - N / D * B) <= N / D * B * u.
Proof.
  intros HB HD HP Hu HuK [H1 H2] H3.
  assert (Mr * P * B - N / D * B = (P * D * Mr - N) * (B / D)) as -> by (field; lra).
  assert (N / D * B * u = (N * u) * (B / D)) as -> by (field; lra).
  assert (0 < B / D) as HBD by (apply Rdiv_lt_0_compat; lra).
  rewrite Rabs_mult, (Rabs_right (B / D)) by lra.
  apply Rmult_le_compat_r; [lra|].
  assert (P * D / 2 <= N * u).
  { assert (K * P * D * u <= N * u) as Hm by (apply Rmult_le_compat_r; lra).
    replace (K * P * D * u) with (P * D * (u * K)) in Hm by ring. rewrite HuK in Hm. lra. }
  apply Rabs_le. lra.
Qed.

(** [binary_round_aux] on [x = num / den * 2^ex], with at least 53 digits
    in its truncation and within the normal range, returns a 53-digit
    number within [x * 2^-53] of [x]. *)
Lemma binary_round_aux_rel mx ex lx num den :
  shr_sem (shr_record_of_loc mx lx) num den -> (2 ^ 52 <= mx)%Z ->
  (-1074 <= ex + Zdigits2 mx - 53)%Z -> (ex + Zdigits2 mx - 53 < 971)%Z ->
  exists m e, binary_round_aux prec emax false mx ex lx = S754_finite false m e /\
    Zpos (digits2_pos m) = 53%Z /\ (ex <= e <= ex + Zdigits2 mx - 53 + 1)%Z /\
    Rabs (fval m e - IZR num / IZR den * bpow ex) <= IZR num / IZR den * bpow ex * bpow (-53).
Proof.
  intros H0 Hmx He1 He2.
  destruct (binary_round_aux_sem mx ex lx num den H0 Hmx He1 He2)
    as (mr & m & e & Heq & Hk & Herr & H52 & Hd & Hcase).
  set (k := (Zdigits2 mx - 53)%Z) in *.
  exists m, e. split; [exact Heq|split; [exact Hd|split; [lia|]]].
  assert (fval m e = IZR mr * IZR (2 ^ k) * bpow ex) as ->.
  { unfold fval. destruct Hcase as [[-> ->]|(-> & -> & ->)].
    - rewrite Z.add_comm, bpow_add, bpow_IZR by exact Hk. ring.
    - rewrite <-Z.add_assoc, Z.add_comm, !bpow_add, !bpow_IZR by lia.
      replace (2 ^ 53)%Z with (2 ^ 52 * 2 ^ 1)%Z by reflexivity. rewrite mult_IZR. ring. }
  destruct H0 as (Hden & _).
  apply Z.abs_le in Herr.
  assert (0 < 2 ^ k)%Z by (apply Z.pow_pos_nonneg; lia).
  apply (rel_err_core _ _ _ _ _ _ (IZR (2 ^ 52))).
  - apply bpow_pos.
  - now apply IZR_lt.
  - now apply IZR_lt.
  - apply bpow_pos.
  - apply bpow_m53.
  - destruct Herr as [E1 E2]. apply IZR_le in E1, E2.
    rewrite ?minus_IZR, ?opp_IZR, ?mult_IZR in E1. rewrite ?minus_IZR, ?mult_IZR in E2. split; nra.
  - apply IZR_le in H52. rewrite !mult_IZR in H52. lra.
Qed.

(** ** Division and multiplication *)

Lemma digits2_le p n : (0 <= n)%Z -> (Zpos p < 2 ^ n)%Z -> (Zpos (digits2_pos p) <= n)%Z.
Proof.
  intros Hn H. pose proof (digits2_bounds p) as [H1 _].
  destruct (Z.le_gt_cases (Zpos (digits2_pos p)) n) as [|Hgt]; [assumption|].
  assert (2 ^ n <= 2 ^ (Zpos (digits2_pos p) - 1))%Z by (apply Z.pow_le_mono_r; lia). lia.
Qed.

Lemma canon_value p : (Zpos p < 2 ^ 53)%Z -> fval (canon_mant p) (canon_exp p) = IZR (Zpos p).
Proof.
  intros Hp. pose proof (digits2_le_53 p Hp). unfold fval, canon_mant, canon_exp.
  rewrite shl_Z, Z2Nat.id by lia. rewrite mult_IZR, <-bpow_IZR by lia.
  rewrite Rmult_assoc, <-bpow_add. replace (53 - _ + _)%Z with 0%Z by lia.
  cbn. ring.
Qed.

Lemma canon_bounds p :
  (Zpos p < 2 ^ 53)%Z -> (2 ^ 52 <= Zpos (canon_mant p) < 2 ^ 53)%Z /\ (-52 <= canon_exp p <= 0)%Z.
Proof.
  intros Hp. pose proof (digits2_canon_mant p Hp) as Hc. pose proof (digits2_le_53 p Hp).
  pose proof (digits2_bounds (canon_mant p)) as [H1 H2]. rewrite Hc in H1, H2.
  unfold canon_exp. lia.
Qed.

(** [a / b] of two integers below [2^53]. *)
Lemma js_div_rel a b :
  (0 < a < 2 ^ 53)%Z -> (0 < b < 2 ^ 53)%Z ->
  exists m e, js_div (of_Z a) (of_Z b) = S754_finite false m e /\
    Zpos (digits2_pos m) = 53%Z /\ (-106 <= e <= 1)%Z /\
    Rabs (fval m e - IZR a / IZR b) <= IZR a / IZR b * bpow (-53).
Proof.
  intros Ha Hb. destruct a as [|pa|]; try lia. destruct b as [|pb|]; try lia.
  rewrite !of_Z_canon by lia.
  destruct (canon_bounds pa ltac:(lia)) as [Ma Ea]. destruct (canon_bounds pb ltac:(lia)) as [Mb Eb].
  pose proof (digits2_canon_mant pa ltac:(lia)) as Da. pose proof (digits2_canon_mant pb ltac:(lia)) as Db.
  set (ma := canon_mant pa) in *. set (mb := canon_mant pb) in *.
  set (ea := canon_exp pa) in *. set (eb := canon_exp pb) in *.
  unfold js_div, SFdiv, SFdiv_core_binary. cbn [Zdigits2]. rewrite Da, Db.
  rewrite fexp_eq by lia.
  replace (Z.min _ _) with (ea - eb - 53)%Z by lia.
  replace (ea - eb - (ea - eb - 53))%Z with 53%Z by lia.
  rewrite Z.shiftl_mul_pow2 by lia.
  destruct (Z.div_eucl (Zpos ma * 2 ^ 53) (Zpos mb)) as [q r] eqn:E.
  pose proof (new_location_sem (Zpos ma * 2 ^ 53) (Zpos mb) q r ltac:(lia) E) as Hs.
  pose proof Hs as (_ & Hq & _). rewrite shr_m_record_of_loc in Hq.
  assert (2 ^ 52 <= q < 2 ^ 54)%Z as Hqb by nia.
  assert (53 <= Zdigits2 q <= 54)%Z as Hd.
  { destruct q as [|pq|]; try lia. cbn [Zdigits2]. pose proof (digits2_bounds pq) as [D1 _].
    split; [|apply digits2_le; lia].
    destruct (Z.le_gt_cases 53 (Zpos (digits2_pos pq))) as [|Hlt]; [lia|].
    assert (2 ^ (Zpos (digits2_pos pq) - 1) < 2 ^ 52)%Z by (apply Z.pow_lt_mono_r; lia). 
    pose proof (digits2_bounds pq) as [_ D2]. assert (2 ^ Zpos (digits2_pos pq) <= 2 ^ 52)%Z by (apply Z.pow_le_mono_r; lia). lia. }
  destruct (binary_round_aux_rel q (ea - eb - 53) _ _ _ Hs ltac:(lia) ltac:(lia) ltac:(lia))
    as (m & e & Heq & Hdm & He & Herr).
  exists m, e. cbn [xorb]. split; [exact Heq|split; [exact Hdm|split; [lia|]]].
  assert (IZR (Zpos ma * 2 ^ 53) / IZR (Zpos mb) * bpow (ea - eb - 53) = IZR (Zpos pa) / IZR (Zpos pb)) as Ex.
  { rewrite <-(canon_value pa), <-(canon_value pb) by lia. fold ma mb ea eb. unfold fval.
    rewrite mult_IZR, <-bpow_IZR by lia.
    replace (ea - eb - 53)%Z with (ea + (- eb) + (- 53))%Z by lia. rewrite !bpow_add.
    assert (bpow (- eb) = / bpow eb) as -> by apply powerRZ_neg'.
    assert (bpow (-53) = / bpow 53) as -> by reflexivity.
    pose proof (bpow_pos eb). pose proof (bpow_pos 53).
    assert (0 < IZR (Zpos mb)) by (apply IZR_lt; lia).
    field. lra. }
  rewrite Ex in Herr. exact Herr.
Qed.

Lemma digits53_bounds m : Zpos (digits2_pos m) = 53%Z -> (2 ^ 52 <= Zpos m < 2 ^ 53)%Z.
Proof. intros H. pose proof (digits2_bounds m) as [H1 H2]. rewrite H in H1, H2. lia. Qed.

(** The product of two normal numbers, away from the ends of the range. *)
Lemma js_mul_rel m1 e1 m2 e2 :
  Zpos (digits2_pos m1) = 53%Z -> Zpos (digits2_pos m2) = 53%Z -> (-1100 <= e1 + e2 <= 900)%Z ->
  exists m e, js_mul (S754_finite false m1 e1) (S754_finite false m2 e2) = S754_finite false m e /\
    Zpos (digits2_pos m) = 53%Z /\ (e1 + e2 <= e <= e1 + e2 + 54)%Z /\
    Rabs (fval m e - fval m1 e1 * fval m2 e2) <= fval m1 e1 * fval m2 e2 * bpow (-53).
Proof.
  intros D1 D2 He. apply digits53_bounds in D1, D2.
  assert (2 ^ 104 <= Zpos (m1 * m2) < 2 ^ 106)%Z as Hp by (rewrite Pos2Z.inj_mul; split; nia).
  assert (Zdigits2 (Zpos (m1 * m2)) <= 106)%Z by (apply digits2_le; lia).
  assert (105 <= Zdigits2 (Zpos (m1 * m2)))%Z.
  { cbn [Zdigits2]. pose proof (digits2_bounds (m1 * m2)) as [_ B].
    destruct (Z.le_gt_cases 105 (Zpos (digits2_pos (m1 * m2)))) as [|Hlt]; [lia|].
    assert (2 ^ Zpos (digits2_pos (m1 * m2)) <= 2 ^ 104)%Z by (apply Z.pow_le_mono_r; lia). lia. }
  destruct (binary_round_aux_rel (Zpos (m1 * m2)) (e1 + e2) loc_Exact (Zpos (m1 * m2)) 1
              (shr_sem_exact _) ltac:(lia) ltac:(lia) ltac:(lia)) as (m & e & Heq & Hd & Hb & Herr).
  exists m, e. split; [exact Heq|split; [exact Hd|split; [lia|]]].
  replace (IZR (Zpos (m1 * m2)) / IZR 1 * bpow (e1 + e2)) with (fval m1 e1 * fval m2 e2) in Herr
    by (unfold fval; rewrite Pos2Z.inj_mul, mult_IZR, bpow_add; field).
  exact Herr.
Qed.

(** ** [toFixed(2)] of the percentage *)

(** Step 8.a of [toFixed(2)] on [x = m * 2^e], [e < 0], is within half a
    hundredth of [100 x]. *)
Lemma round_fixed_err m e :
  (e < 0)%Z -> Rabs (IZR (round_fixed 2 m e) - 100 * fval m e) <= / 2.
Proof.
  intros He. unfold round_fixed, scaled. replace (0 <=? e)%Z with false by lia.
  set (D := (- e)%Z). change (Z.of_nat 2) with 2%Z.
  assert (0 < 2 ^ D)%Z as HD by (apply Z.pow_pos_nonneg; lia).
  set (n := ((2 * Zpos m * 10 ^ 2 + 2 ^ D) / (2 * 2 ^ D))%Z).
  assert (2 * (n * 2 ^ D) <= 2 * (Zpos m * 100) + 2 ^ D < 2 * (n * 2 ^ D) + 2 * 2 ^ D)%Z as [L U].
  { subst n. pose proof (Z.mul_div_le (2 * Zpos m * 10 ^ 2 + 2 ^ D) (2 * 2 ^ D)).
    pose proof (Z.mod_pos_bound (2 * Zpos m * 10 ^ 2 + 2 ^ D) (2 * 2 ^ D)).
    pose proof (Z.div_mod (2 * Zpos m * 10 ^ 2 + 2 ^ D) (2 * 2 ^ D)). lia. }
  apply IZR_le in L. apply IZR_lt in U.
  repeat (rewrite plus_IZR in L || rewrite mult_IZR in L).
  repeat (rewrite plus_IZR in U || rewrite mult_IZR in U).
  assert (fval m e = IZR (Zpos m) / IZR (2 ^ D)) as ->.
  { unfold fval. rewrite <-bpow_IZR by lia. unfold bpow, D. unfold Rdiv. rewrite powerRZ_neg', Rinv_inv. reflexivity. }
  assert (0 < IZR (2 ^ D)) as HD' by (apply IZR_lt; exact HD).
  apply Rabs_le. split.
  - apply (Rmult_le_reg_r (2 * IZR (2 ^ D))); [lra|].
    field_simplify; [|lra]. nra.
  - apply (Rmult_le_reg_r (2 * IZR (2 ^ D))); [lra|].
    field_simplify; [|lra]. nra.
Qed.

Lemma Rabs_le_split x a : Rabs x <= a -> - a <= x <= a.
Proof. intros H. pose proof (Rle_abs x). pose proof (Rle_abs (- x)). rewrite Rabs_Ropp in *. lra. Qed.

Lemma bpow_m53_small : 0 < bpow (-53) < / 1000000.
Proof.
  split; [apply bpow_pos|]. assert (bpow (-53) = / bpow 53) as -> by reflexivity.
  rewrite bpow_IZR by lia. apply Rinv_lt_contravar.
  - apply Rmult_lt_0_compat; [lra|apply IZR_lt; reflexivity].
  - apply IZR_lt. reflexivity.
Qed.

Lemma fval_ge_2_52 m e : Zpos (digits2_pos m) = 53%Z -> (0 <= e)%Z -> IZR (2 ^ 52) <= fval m e.
Proof.
  intros Hd He. apply digits53_bounds in Hd. unfold fval. rewrite bpow_IZR by exact He.
  rewrite <-mult_IZR. apply IZR_le. assert (0 < 2 ^ e)%Z by (apply Z.pow_pos_nonneg; lia). nia.
Qed.

(** [((c / T) * 100)] in binary64, for integers [0 < c <= T < 2^53]: a
    number with a negative exponent, whose hundred-fold is within a half
    of [10000 c / T]. *)
Lemma percent_value_err c T :
  (0 < c <= T)%Z -> (T < 2 ^ 53)%Z ->
  exists m e, js_mul (js_div (of_Z c) (of_Z T)) (of_Z 100) = S754_finite false m e /\
    Zpos (digits2_pos m) = 53%Z /\ (e < 0)%Z /\
    Rabs (100 * fval m e - 10000 * (IZR c / IZR T)) < / 2.
Proof.
  intros Hc HT.
  destruct (js_div_rel c T ltac:(lia) ltac:(lia)) as (m1 & e1 & Hq & Hd1 & He1 & E1).
  rewrite Hq. rewrite (of_Z_canon 100) by reflexivity.
  destruct (js_mul_rel m1 e1 (canon_mant 100) (canon_exp 100) Hd1 (digits2_canon_mant 100 ltac:(reflexivity)))
    as (m & e & Hv & Hd & He & E2).
  { change (canon_exp 100) with (-46)%Z. lia. }
  rewrite (canon_value 100) in E2 by reflexivity.
  exists m, e. split; [exact Hv|split; [exact Hd|]].
  set (x := IZR c / IZR T) in *. set (u := bpow (-53)) in *.
  assert (0 < x <= 1).
  { subst x. assert (0 < IZR c <= IZR T) as [A B] by (split; [apply IZR_lt|apply IZR_le]; lia).
    split; [apply Rdiv_lt_0_compat; lra|].
    replace 1 with (IZR T / IZR T) by (field; lra). unfold Rdiv.
    apply Rmult_le_compat_r; [left; apply Rinv_0_lt_compat; lra|lra]. }
  pose proof bpow_m53_small as Hu. fold u in Hu.
  apply Rabs_le_split in E1, E2.
  split.
  - destruct (Z.lt_ge_cases e 0) as [|He0]; [assumption|exfalso].
    pose proof (fval_ge_2_52 m e Hd He0). assert (1000 < IZR (2 ^ 52)) by (apply IZR_lt; reflexivity).
    nra.
  - apply Rabs_def1; nra.
Qed.

(** The percentage cell of a count [c] of a total [T] prints the integer
    [r] of hundredths with [|r - 10000 c / T| < 1]: each row is within
    [0.01] of its exact percentage. *)
Lemma percent_hundredths c T :
  (0 <= c <= T)%Z -> (0 < T < 2 ^ 53)%Z ->
  exists r, to_fixed 2 (js_mul (js_div (of_Z c) (of_Z T)) (of_Z 100)) = fixed_digits 2 r /\
    (0 <= r)%Z /\ (Z.abs (r * T - 10000 * c) < T)%Z.
Proof.
  intros Hc HT. destruct (Z.eq_dec c 0) as [->|Hc0].
  - exists 0%Z. destruct T as [|pT|]; try lia. rewrite (of_Z_canon pT) by lia.
    split; [reflexivity|lia].
  - destruct (percent_value_err c T ltac:(lia) ltac:(lia)) as (m & e & Hv & Hd & He & Herr).
    apply digits53_bounds in Hd.
    exists (round_fixed 2 m e). rewrite Hv. split; [|split].
    + unfold to_fixed, scaled. replace (0 <=? e)%Z with false by lia.
      replace (10 ^ 21 * 2 ^ (- e) <=? Zpos m)%Z with false; [reflexivity|].
      symmetry. apply Z.leb_gt. assert (0 < 2 ^ (- e))%Z by (apply Z.pow_pos_nonneg; lia). nia.
    + unfold round_fixed, scaled. replace (0 <=? e)%Z with false by lia.
      apply Z.div_pos; [|lia]. assert (0 < 2 ^ (- e))%Z by (apply Z.pow_pos_nonneg; lia). lia.
    + pose proof (round_fixed_err m e He) as Hr.
      apply lt_IZR. rewrite abs_IZR, minus_IZR, !mult_IZR.
      assert (0 < IZR T) by (apply IZR_lt; lia).
      replace (IZR (round_fixed 2 m e) * IZR T - IZR 10000 * IZR c)
        with ((IZR (round_fixed 2 m e) - 10000 * (IZR c / IZR T)) * IZR T) by (field; lra).
      rewrite Rabs_mult, (Rabs_right (IZR T)) by lra.
      apply Rlt_le_trans with (1 * IZR T); [apply Rmult_lt_compat_r; [lra|]|lra].
      apply Rabs_le_split in Hr. apply Rabs_def2 in Herr. apply Rabs_def1; lra.
Qed.
