(* ===== verification/ToString.v ===== *)
(** * [Number::toString] of integral counts

    The stat cards (lines 63-71) and the table's rank and count cells
    (lines 229, 231) convert integers to text through [Number::toString].
    This file shows that on an integer [0 <= z < 2^53] the shortest-digits
    search of [JsNumber.number_to_string] returns the decimal digits of [z]:
    every candidate the search tries is an integer below [10^16 < 2^54];
    below [2^53] it rounds to itself ([round_q_int]), above it rounds to a
    number of positive exponent ([round_q_above], from [Rounding]), so it
    identifies [z] exactly when it equals [z] ([round_q_eq_of_Z]); the
    exponent estimate is off by
    at most one ([dec_exponent_int]); the first digit count that succeeds is
    that of [z] with its trailing zeros removed, and [format_decimal] puts
    the zeros back. *)

From stdpp Require Import base list numbers strings pretty.
From Stdlib Require Import ZArith Lia SpecFloat Ascii.
From S2P Require Import Prelude JsString JsNumber Exact Rounding.

Local Open Scope Z_scope.

(** ** Integers below 2^53 as binary64 values *)

Lemma div_eucl_1 a : Z.div_eucl a 1 = (a, 0).
Proof.
  pose proof (Z.div_1_r a) as H1. pose proof (Z.mod_1_r a) as H2.
  unfold Z.div, Z.modulo in *. destruct (Z.div_eucl a 1). simpl in *. by subst.
Qed.

(** Dividing an integer below [2^53] by one is exact. *)
Lemma round_q_int a : 0 < a < 2 ^ 53 -> round_q a 1 = of_Z a.
Proof.
  intros Ha. destruct a as [|p|p]; try lia.
  rewrite of_Z_canon by lia.
  pose proof (digits2_le_53 p ltac:(lia)) as Hd.
  pose proof (digits2_canon_mant p ltac:(lia)) as Hc.
  unfold round_q, SFdiv_core_binary. cbn [Zdigits2].
  change (digits2_pos 1) with 1%positive. rewrite fexp_eq by lia.
  replace (Z.min _ _) with (Zpos (digits2_pos p) - 54) by lia.
  set (n := Z.to_nat (53 - Zpos (digits2_pos p))).
  replace (0 - 0 - (Zpos (digits2_pos p) - 54)) with (Z.of_nat (S n)) by lia.
  change (Z.of_nat (S n)) with (Zpos (Pos.of_succ_nat n)).
  rewrite Z.shiftl_mul_pow2 by lia. rewrite div_eucl_1.
  change (Zpos (Pos.of_succ_nat n)) with (Z.of_nat (S n)).
  rewrite <-shl_Z. change (shl (S n) p) with (shl 1 (canon_mant p)).
  cbn [new_location Z.even new_location_odd Z.eqb Z.compare].
  apply binary_round_aux_exact; [|done|unfold canon_exp; lia].
  rewrite shr_fexp_shl.
  - f_equal. unfold canon_exp. lia.
  - rewrite digits2_shl, Hc, fexp_eq; lia.
Qed.

Lemma of_Z_inj a b : 0 < a < 2 ^ 53 -> 0 < b < 2 ^ 53 -> of_Z a = of_Z b -> a = b.
Proof.
  intros Ha Hb. destruct a as [|p|]; [lia| |lia]. destruct b as [|q|]; [lia| |lia].
  rewrite !of_Z_canon by lia. intros [= Hm He]. unfold canon_exp in He.
  assert (Zpos (digits2_pos p) = Zpos (digits2_pos q)) as Hd by lia.
  unfold canon_mant in Hm. rewrite Hd in Hm.
  apply (f_equal Zpos) in Hm. rewrite !shl_Z in Hm.
  apply Z.mul_cancel_r in Hm; [done|]. pose proof (Z.pow_pos_nonneg 2 (Z.of_nat (Z.to_nat (53 - Zpos (digits2_pos q))))). lia.
Qed.

(** Dividing an integer of 54 binary digits by one rounds to a number of
    exponent at least [1], never to an integer below [2^53]. *)
Lemma round_q_above a :
  2 ^ 53 <= a < 2 ^ 54 -> exists m e, round_q a 1 = S754_finite false m e /\ 1 <= e.
Proof.
  intros Ha. destruct a as [|p|p]; try lia.
  assert (Zpos (digits2_pos p) = 54) as Hd by (apply digits2_eq; cbn; lia).
  unfold round_q, SFdiv_core_binary. cbn [Zdigits2]. change (digits2_pos 1) with 1%positive.
  rewrite Hd, fexp_eq by lia. replace (Z.min _ _) with 0 by lia. cbn [Z.sub Z.add].
  rewrite div_eucl_1. cbn [new_location Z.even new_location_odd Z.eqb].
  destruct (binary_round_aux_sem (Zpos p) 0 loc_Exact (Zpos p) 1 (shr_sem_exact _))
    as (mr & m & e & Heq & _ & _ & _ & _ & Hcase); cbn [Zdigits2]; try lia.
  exists m, e. split; [exact Heq|]. cbn [Zdigits2] in Hcase. lia.
Qed.

(** A candidate value below [2^54] identifies the integer [z < 2^53]
    exactly when it equals it. *)
Lemma round_q_eq_of_Z a z :
  0 < a < 2 ^ 54 -> 0 < z < 2 ^ 53 -> round_q a 1 = of_Z z <-> a = z.
Proof.
  intros Ha Hz. destruct (Z.lt_ge_cases a (2 ^ 53)).
  - rewrite round_q_int by lia. split; [apply of_Z_inj; lia|by intros ->].
  - destruct (round_q_above a ltac:(lia)) as (m & e & -> & He).
    destruct z as [|q|]; try lia. rewrite of_Z_canon by lia.
    pose proof (canon_bounds q ltac:(lia)) as [_ Eq].
    split; [intros [= _ E]; lia|intros ->; lia].
Qed.

(** The exact value of [p] in [Number::toString]'s terms: [p * 2^den / 2^den]. *)
Lemma scaled_canon p :
  Zpos p < 2 ^ 53 ->
  scaled (canon_mant p) (canon_exp p) =
    (Zpos p * 2 ^ (53 - Zpos (digits2_pos p)), 53 - Zpos (digits2_pos p)).
Proof.
  intros Hp. pose proof (digits2_le_53 p Hp) as Hd.
  unfold scaled, canon_exp, canon_mant. rewrite shl_Z, Z2Nat.id by lia.
  destruct (0 <=? _) eqn:E; [|f_equal; lia].
  replace (Zpos (digits2_pos p)) with 53 by lia. by rewrite !Z.sub_diag, !Z.mul_1_r.
Qed.

(** ** The decimal exponent *)

Section Exponent.
Context (z den N : Z).
Hypothesis (Hz : 0 < z) (Hden : 0 <= den) (HN : 10 ^ (N - 1) <= z < 10 ^ N).

Lemma digits_pos : 1 <= N.
Proof.
  destruct (Z.le_gt_cases 1 N) as [|H]; [done|].
  assert (10 ^ N <= 1) by (destruct (Z.lt_ge_cases N 0); [rewrite Z.pow_neg_r by lia|replace N with 0 by lia]; cbn; lia).
  lia.
Qed.

(** [z >= 10^j] exactly when [j] is below the digit count of [z]. *)
Lemma ge_pow10_int j : ge_pow10 (z * 2 ^ den) den j = (j <? N).
Proof.
  pose proof digits_pos. assert (0 < 2 ^ den) by (apply Z.pow_pos_nonneg; lia).
  unfold ge_pow10. apply Bool.eq_iff_eq_true. rewrite Z.ltb_lt.
  destruct (0 <=? j) eqn:Ej; rewrite ?Z.leb_le; [|split; [lia|intros _]].
  - split; intros H1.
    + assert (10 ^ j <= z) by nia.
      destruct (Z.lt_ge_cases j N) as [|Hge]; [done|].
      assert (10 ^ N <= 10 ^ j) by (apply Z.pow_le_mono_r; lia). lia.
    + assert (10 ^ j <= 10 ^ (N - 1)) by (apply Z.pow_le_mono_r; lia). nia.
  - assert (0 < 10 ^ (- j)) by (apply Z.pow_pos_nonneg; lia).
    assert (1 <= z * 10 ^ (- j)) by nia. nia.
Qed.

Lemma adjust_up_int fuel n :
  N - Z.of_nat fuel <= n -> adjust_up (z * 2 ^ den) den n fuel = Z.max n N.
Proof.
  revert n. induction fuel as [|fuel IH]; intros n Hn; cbn [adjust_up]; [lia|].
  rewrite ge_pow10_int. destruct (n <? N) eqn:E; [rewrite IH; lia|lia].
Qed.

Lemma adjust_down_int fuel n :
  N <= n <= N + Z.of_nat fuel -> adjust_down (z * 2 ^ den) den n fuel = N.
Proof.
  revert n. induction fuel as [|fuel IH]; intros n Hn; cbn [adjust_down]; [lia|].
  rewrite ge_pow10_int. destruct (n - 1 <? N) eqn:E; [lia|]. apply IH. lia.
Qed.

End Exponent.

(** ** Decimal digits ([stdpp]'s [pretty]) *)

Fixpoint zeros (j : nat) : string :=
  match j with O => EmptyString | S j => String "0"%char (zeros j) end.

Lemma zeros_S_app j s : zeros (S j) +:+ s = zeros j +:+ String "0"%char s.
Proof.
  induction j as [|j IH]; [done|]. simpl in *.
  change (String ?c ?a +:+ ?b) with (String c (a +:+ b)). by rewrite IH.
Qed.

Lemma pretty_N_go_app x s1 s2 : pretty_N_go x (s1 +:+ s2) = pretty_N_go x s1 +:+ s2.
Proof.
  revert s1. induction (N.lt_wf_0 x) as [x _ IH]; intros s1.
  destruct (decide (x = 0)%N) as [->|Hx]; [by rewrite !pretty_N_go_0|].
  rewrite !(pretty_N_go_step x) by lia.
  change (String ?c (s1 +:+ s2)) with (String c s1 +:+ s2).
  apply IH, N.div_lt; lia.
Qed.

(** [k] is the number of decimal digits of [x]. *)
Definition ndigits_spec (x k : Z) : Prop := 10 ^ (k - 1) <= x < 10 ^ k.

Lemma ndigits_spec_pos x k : 0 < x -> ndigits_spec x k -> 1 <= k.
Proof.
  unfold ndigits_spec. intros Hx Hk. destruct (Z.le_gt_cases 1 k) as [|H]; [done|].
  assert (10 ^ k <= 1) by (destruct (Z.lt_ge_cases k 0); [rewrite Z.pow_neg_r by lia|replace k with 0 by lia]; cbn; lia).
  lia.
Qed.

Lemma ndigits_spec_div10 x k : 10 <= x -> ndigits_spec x k -> ndigits_spec (x / 10) (k - 1).
Proof.
  unfold ndigits_spec. intros Hx Hk. pose proof (ndigits_spec_pos x k ltac:(lia) Hk).
  destruct (decide (k = 1)) as [->|]; [cbn in Hk; lia|].
  replace (10 ^ (k - 1)) with (10 * 10 ^ (k - 1 - 1)) in Hk by (rewrite <-Z.pow_succ_r by lia; f_equal; lia).
  replace (10 ^ k) with (10 * 10 ^ (k - 1)) in Hk by (rewrite <-Z.pow_succ_r by lia; f_equal; lia).
  split; [apply Z.div_le_lower_bound|apply Z.div_lt_upper_bound]; lia.
Qed.

Lemma ndigits_exists x : 0 < x -> exists k, ndigits_spec x k.
Proof.
  intros Hx. assert (forall n : nat, forall x, 0 < x <= Z.of_nat n -> exists k, ndigits_spec x k) as H.
  { induction n as [|n IH]; intros y Hy; [lia|].
    destruct (Z.lt_ge_cases y 10).
    - exists 1. unfold ndigits_spec. cbn. lia.
    - destruct (IH (y / 10)) as [k Hk].
      + split; [apply Z.div_str_pos; lia|]. assert (y / 10 < y) by (apply Z.div_lt; lia). lia.
      + exists (k + 1). unfold ndigits_spec in *. rewrite Z.add_simpl_r, Z.pow_add_r by (pose proof (ndigits_spec_pos (y / 10) k ltac:(apply Z.div_str_pos; lia) Hk); lia).
        pose proof (ndigits_spec_pos (y / 10) k ltac:(apply Z.div_str_pos; lia) Hk).
        assert (10 ^ k = 10 * 10 ^ (k - 1)) by (rewrite <-Z.pow_succ_r by lia; f_equal; lia).
        pose proof (Z.div_mod y 10 ltac:(lia)). pose proof (Z.mod_pos_bound y 10 ltac:(lia)). cbn. lia. }
  apply (H (Z.to_nat x)). lia.
Qed.

Lemma pretty_N_go_length x s k :
  (0 < x)%N -> ndigits_spec (Z.of_N x) k -> String.length (pretty_N_go x s) = (String.length s + Z.to_nat k)%nat.
Proof.
  revert s k. induction (N.lt_wf_0 x) as [x _ IH]; intros s k Hx Hk.
  pose proof (ndigits_spec_pos (Z.of_N x) k ltac:(lia) Hk).
  rewrite pretty_N_go_step by done.
  destruct (decide (x < 10)%N) as [Hs|Hs].
  - replace (x `div` 10)%N with 0%N by (symmetry; apply N.div_small; lia).
    rewrite pretty_N_go_0. cbn [String.length].
    assert (k <= 1); [|lia]. destruct Hk as [Hk _].
    destruct (Z.le_gt_cases k 1) as [|Hgt]; [done|].
    assert (10 ^ 1 <= 10 ^ (k - 1)) by (apply Z.pow_le_mono_r; lia). cbn in *. lia.
  - assert (ndigits_spec (Z.of_N (x `div` 10)) (k - 1))
      by (rewrite N2Z.inj_div; apply ndigits_spec_div10; [lia|exact Hk]).
    assert (x `div` 10 < x)%N by (apply N.div_lt; lia).
    assert (0 < x `div` 10)%N by (apply N.div_str_pos; lia).
    rewrite (IH _ ltac:(done) _ (k - 1)) by done. cbn [String.length]. lia.
Qed.

Lemma pretty_N_go_mul10 j x s :
  (0 < x)%N -> pretty_N_go (x * 10 ^ N.of_nat j) s = pretty_N_go x (zeros j +:+ s).
Proof.
  intros Hx. revert s. induction j as [|j IH]; intros s.
  - by rewrite N.mul_1_r.
  - assert (0 < 10 ^ N.of_nat j)%N by (apply N.neq_0_lt_0, N.pow_nonzero; lia).
    replace (x * 10 ^ N.of_nat (S j))%N with (x * 10 ^ N.of_nat j * 10)%N
      by (rewrite Nat2N.inj_succ, N.pow_succ_r'; lia).
    rewrite pretty_N_go_step by lia. rewrite N.div_mul, N.Div0.mod_mul by lia.
    rewrite zeros_S_app. apply IH.
Qed.

Lemma append_empty_r s : s +:+ EmptyString = s.
Proof.
  induction s as [|a s IH]; [done|].
  change (String a s +:+ EmptyString) with (String a (s +:+ EmptyString)). by rewrite IH.
Qed.

Lemma js_app s1 s2 : js (s1 +:+ s2) = js s1 ++ js s2.
Proof.
  unfold js. induction s1 as [|a s1 IH]; [done|].
  change (String a s1 +:+ s2) with (String a (s1 +:+ s2)). cbn. by rewrite IH.
Qed.

Lemma js_length s : length (js s) = String.length s.
Proof. unfold js. induction s as [|a s IH]; [done|]. cbn. by rewrite IH. Qed.

Lemma js_zeros j : js (zeros j) = replicate j 48.
Proof. unfold js. induction j as [|j IH]; [done|]. cbn. by rewrite IH. Qed.

Lemma digits_of_pos p : digits_of (Zpos p) = js (pretty_N_go (Npos p) EmptyString).
Proof. done. Qed.

Lemma ndigits_eq x k : 0 < x -> ndigits_spec x k -> ndigits x = k.
Proof.
  intros Hx Hk. pose proof (ndigits_spec_pos x k Hx Hk).
  destruct x as [|p|p]; [lia| |lia].
  unfold ndigits. rewrite digits_of_pos, js_length, (pretty_N_go_length _ _ k) by (done || lia).
  cbn [String.length]. lia.
Qed.

(** Trailing zeros: the digits of [s * 10^j]. *)
Lemma digits_of_mul10 s j :
  0 < s -> digits_of (s * 10 ^ Z.of_nat j) = digits_of s ++ replicate j 48.
Proof.
  intros Hs. destruct s as [|p|p]; [lia| |lia].
  assert (0 < 10 ^ Z.of_nat j) by (apply Z.pow_pos_nonneg; lia).
  destruct (Zpos p * 10 ^ Z.of_nat j) as [|q|q] eqn:E; [lia| |lia].
  rewrite !digits_of_pos, <-js_zeros, <-js_app.
  replace (Npos q) with (Npos p * 10 ^ N.of_nat j)%N by lia.
  rewrite pretty_N_go_mul10 by lia.
  by rewrite <-(pretty_N_go_app _ EmptyString), append_empty_r.
Qed.

(** ** The estimate [den * log10 2] *)

Definition log2_estimate_ok (den : Z) : bool :=
  let l := den * 30103 / 100000 in (10 ^ l <=? 2 ^ den) && (2 ^ den <? 10 ^ (l + 1)).

(** [30103 / 100000] gives [floor (den * log10 2)] for every [den <= 53]. *)
Lemma log2_estimate den :
  0 <= den <= 53 ->
  10 ^ (den * 30103 / 100000) <= 2 ^ den < 10 ^ (den * 30103 / 100000 + 1).
Proof.
  intros Hd.
  assert (forallb (fun n => log2_estimate_ok (Z.of_nat n)) (seq 0 54) = true) as Hall
    by (vm_compute; reflexivity).
  rewrite forallb_forall in Hall.
  specialize (Hall (Z.to_nat den) ltac:(apply in_seq; lia)).
  rewrite Z2Nat.id in Hall by lia. unfold log2_estimate_ok in Hall.
  apply andb_prop in Hall as [H1 H2]. rewrite Z.leb_le in H1. rewrite Z.ltb_lt in H2. done.
Qed.

Lemma pow10_lt_iff a b : 0 <= a -> 0 <= b -> 10 ^ a < 10 ^ b <-> a < b.
Proof. intros. symmetry. apply Z.pow_lt_mono_r_iff; lia. Qed.

(** [dec_exponent] finds the digit count of an integer. *)
Lemma dec_exponent_int z den N :
  0 < z -> 0 <= den <= 53 -> ndigits_spec z N ->
  dec_exponent (z * 2 ^ den) den = N.
Proof.
  intros Hz Hden HN. pose proof (ndigits_spec_pos z N Hz HN).
  assert (0 < 2 ^ den) by (apply Z.pow_pos_nonneg; lia).
  destruct (ndigits_exists (z * 2 ^ den)) as [D HD]; [nia|].
  pose proof (ndigits_spec_pos (z * 2 ^ den) D ltac:(nia) HD).
  assert (ndigits (z * 2 ^ den) = D) as ED by (apply ndigits_eq; [nia|done]).
  pose proof (log2_estimate den Hden) as [L1 L2].
  set (L := den * 30103 / 100000) in *.
  assert (0 <= L) by (apply Z.div_pos; lia).
  destruct HN as [N1 N2]. destruct HD as [D1 D2].
  assert (10 ^ (N - 1 + L) < 10 ^ D).
  { rewrite Z.pow_add_r by lia. nia. }
  assert (10 ^ (D - 1) < 10 ^ (N + (L + 1))).
  { rewrite Z.pow_add_r by lia. nia. }
  rewrite pow10_lt_iff in * by lia.
  unfold dec_exponent. rewrite ED. fold L.
  assert (ndigits_spec z N) as HN by (split; done).
  rewrite (adjust_up_int z den N Hz ltac:(lia) HN 8) by lia.
  apply (adjust_down_int z den N Hz ltac:(lia) HN 8). lia.
Qed.

(** ** The shortest-digits search on an integer *)

Section Search.
Context (p : positive) (N : Z).
Hypothesis (Hp : Zpos p < 2 ^ 53) (HN : ndigits_spec (Zpos p) N).

Let z := Zpos p.
Let den := 53 - Zpos (digits2_pos p).
Let xv := S754_finite false (canon_mant p) (canon_exp p).

Lemma pow2_53_lt : 2 ^ 53 < 10 ^ 16 < 2 ^ 54.
Proof. split; reflexivity. Qed.

Lemma search_N_range : 1 <= N <= 16.
Proof.
  pose proof (ndigits_spec_pos z N ltac:(lia) HN). destruct HN as [H1 _].
  pose proof pow2_53_lt. assert (10 ^ (N - 1) < 10 ^ 16) by lia. rewrite pow10_lt_iff in *; lia.
Qed.

(** A candidate with [k <= n] digits is an integer; below [2^54] it
    identifies [x] exactly when it equals [z]. *)
Lemma cand_rounds_int k s n :
  1 <= k <= n -> 0 < s * 10 ^ (n - k) < 2 ^ 54 ->
  cand_rounds_to xv k (s, n) = bool_decide (s * 10 ^ (n - k) = z).
Proof.
  intros Hk Hv. unfold cand_rounds_to, cand_frac. cbn [fst snd].
  replace (0 <=? n - k) with true by lia.
  apply bool_decide_ext. subst xv. rewrite <-of_Z_canon by lia.
  apply round_q_eq_of_Z; lia.
Qed.

(** At [k] digits, only the truncation can be [z], and it is when the
    dropped digits are zeros. *)
Lemma filter_candidates_int k :
  1 <= k <= N ->
  filter (fun c => cand_rounds_to xv k c = true) (candidates (z * 2 ^ den) den N k) =
    if decide (z mod 10 ^ (N - k) = 0) then [(z / 10 ^ (N - k), N)] else [].
Proof.
  intros Hk. pose proof search_N_range. pose proof pow2_53_lt.
  assert (0 < 2 ^ den) by (apply Z.pow_pos_nonneg; subst den; pose proof (digits2_le_53 p ltac:(lia)); lia).
  assert (0 < 10 ^ (N - k)) by (apply Z.pow_pos_nonneg; lia).
  assert (10 ^ N = 10 ^ (N - k) * 10 ^ k) as Ek by (rewrite <-Z.pow_add_r by lia; f_equal; lia).
  assert (10 ^ (N - k) <= 10 ^ (N - 1)) by (apply Z.pow_le_mono_r; lia).
  assert (10 ^ N <= 10 ^ 16) by (apply Z.pow_le_mono_r; lia).
  destruct HN as [N1 N2]. fold z in N1, N2.
  set (lo := z / 10 ^ (N - k)).
  assert (1 <= lo) by (apply Z.div_le_lower_bound; lia).
  assert (lo < 10 ^ k) by (apply Z.div_lt_upper_bound; lia).
  pose proof (Z.div_mod z (10 ^ (N - k)) ltac:(lia)) as Hdm.
  pose proof (Z.mod_pos_bound z (10 ^ (N - k)) ltac:(lia)) as Hmb. fold lo in Hdm.
  unfold candidates.
  replace (if 0 <=? k - N then _ else _) with lo.
  2:{ destruct (0 <=? k - N) eqn:E.
      - assert (k = N) as -> by lia. subst lo.
        rewrite Z.sub_diag, Z.pow_0_r, Z.mul_1_r, Z.div_1_r, Z.div_mul by lia. done.
      - subst lo. by rewrite (Z.mul_comm z), Z.div_mul_cancel_l by lia. }
  rewrite filter_cons, cand_rounds_int by nia.
  assert (0 < lo * 10 ^ (N - k) <= z) by nia.
  destruct (lo + 1 =? 10 ^ k) eqn:Ehi.
  - assert (10 ^ (k - 1) * 10 ^ (N + 1 - k) = 10 ^ N) as Eh
      by (rewrite <-Z.pow_add_r by lia; f_equal; lia).
    rewrite filter_cons, cand_rounds_int, Eh by (rewrite ?Eh; lia).
    rewrite (bool_decide_false (10 ^ N = z)) by lia. rewrite filter_nil.
    repeat (case_bool_decide || case_decide); try done; nia.
  - assert ((lo + 1) * 10 ^ (N - k) <= 10 ^ N) by nia.
    rewrite filter_cons, cand_rounds_int by nia.
    rewrite (bool_decide_false ((lo + 1) * _ = z)) by nia. rewrite filter_nil.
    repeat (case_bool_decide || case_decide); try done; nia.
Qed.

(** The search ends, at the latest at [k = N], on a digit count whose
    dropped digits are zeros. *)
Lemma shortest_from_int fuel k :
  1 <= k <= N -> N - k < Z.of_nat fuel ->
  exists k', shortest_from xv (z * 2 ^ den) den N k fuel = Some (z / 10 ^ (N - k'), N, k') /\
    k <= k' <= N /\ z mod 10 ^ (N - k') = 0.
Proof.
  revert k. induction fuel as [|fuel IH]; intros k Hk Hf; [lia|].
  cbn [shortest_from]. unfold best_candidate. rewrite filter_candidates_int by done.
  case_decide as Hm; [exists k; split; [done|split; [lia|done]]|].
  destruct (decide (k = N)) as [->|]; [by rewrite Z.sub_diag, Z.pow_0_r, Z.mod_1_r in Hm|].
  destruct (IH (k + 1)) as (k' & H1 & H2 & H3); [lia|lia|].
  exists k'. split; [done|split; [lia|done]].
Qed.

End Search.

(** ** [Number::toString] of an integer *)

(** Below [2^53], [Number::toString] of an integer is its decimal digits:
    the text the template literals of the stat cards and the table show
    for a count. *)
Lemma number_to_string_of_Z z :
  0 <= z < 2 ^ 53 -> number_to_string (of_Z z) = digits_of z.
Proof.
  intros Hz. destruct z as [|p|p]; [done| |lia].
  pose proof (digits2_le_53 p ltac:(lia)).
  destruct (ndigits_exists (Zpos p)) as [N HN]; [lia|].
  pose proof (search_N_range p N ltac:(lia) HN).
  rewrite of_Z_canon by lia. cbn [number_to_string]. unfold pos_to_string.
  rewrite scaled_canon by lia. cbv zeta.
  rewrite (dec_exponent_int (Zpos p) _ N) by (done || lia).
  destruct (shortest_from_int p N ltac:(lia) HN 17 1) as (k & -> & Hk & Hm); [lia|lia|].
  unfold format_decimal. replace ((k <=? N) && (N <=? 21)) with true by lia.
  assert (N - k = Z.of_nat (Z.to_nat (N - k))) as Ej by lia.
  set (j := Z.to_nat (N - k)) in *. rewrite Ej in Hm |- *.
  assert (0 < 10 ^ Z.of_nat j) by (apply Z.pow_pos_nonneg; lia).
  rewrite <-digits_of_mul10.
  - f_equal. pose proof (Z.div_mod (Zpos p) (10 ^ Z.of_nat j) ltac:(lia)). lia.
  - apply Z.div_str_pos. split; [done|].
    destruct HN as [HN _]. assert (10 ^ Z.of_nat j <= 10 ^ (N - 1)) by (apply Z.pow_le_mono_r; lia). lia.
Qed.
