(* ===== verification/Table.v ===== *)
(** * The ranked table: [displayTable]

    [displayTable(wordsData)] (lines 218-236 of [script.js]) sums the counts,
    sorts the array in place by [(a, b) => b.count - a.count], and writes one
    [<tr>] per entry: the 1-based rank, the word, the count and
    [((item.count / totalWords) * 100).toFixed(2)] followed by [%].

    [WordCount] is an entry of [words_data] as the spec's AnalysisResponse
    describes it: an object with a string [word] and an integral [count].
    Counts are JSON integers, kept in [Z] and converted to binary64 where
    the code computes with them: the total, the comparator's difference
    [b.count - a.count] (of which [sort] uses the sign), the division and
    the multiplication of the percentage column are binary64 operations
    ([JsNumber]), in the order the code performs them, and the cells print
    numbers with [Number::toString].  [Exact] shows these operations exact
    for counts below 2^53 ([count_ok]); the theorems that depend on it say
    so, and C22 shows what goes wrong above.  With [ToString], the rank and
    count cells are the decimal digits of their integers (C25); with
    [Rounding], the percentages add up to 100 within the tolerance of spec
    8.3 (C27). *)

From stdpp Require Import base list numbers strings.
From Stdlib Require Import ZArith Lia SpecFloat.
From S2P Require Import Prelude JsString StableSort JsNumber Exact ToString Rounding.

Local Open Scope Z_scope.

Record WordCount := mkWordCount { word : jsstr; count : Z }.

(** One row of the table, cell by cell. *)
Record Row := mkRow {
  row_rank : jsstr;      (* ${index + 1} *)
  row_word : jsstr;      (* ${item.word} *)
  row_count : jsstr;     (* ${item.count} *)
  row_percent : jsstr    (* ${percentage} *)
}.

(** [wordsData.reduce((sum, item) => sum + item.count, 0)], in binary64,
    left to right over the array before it is sorted. *)
Definition total_words (ws : list WordCount) : number :=
  fold_left (fun sum item => js_add sum (of_Z (count item))) ws (of_Z 0).

(** The comparator [(a, b) => b.count - a.count]. *)
Definition by_count_desc (a b : WordCount) : number := js_sub (of_Z (count b)) (of_Z (count a)).

(** [wordsData.sort(by_count_desc)]: the engine's stable sort, deciding by
    the sign of the comparator's result. *)
Definition sorted_data (ws : list WordCount) : list WordCount :=
  sort_by (fun a b => number_sign (by_count_desc a b)) ws.

(** [((item.count / totalWords) * 100).toFixed(2)] *)
Definition percentage (c : Z) (total : number) : jsstr :=
  to_fixed 2 (js_mul (js_div (of_Z c) total) (of_Z 100)).

(** The row the [map] callback renders for [item] at [index]. *)
Definition make_row (total : number) (index : nat) (item : WordCount) : Row :=
  mkRow (number_to_string (of_Z (Z.of_nat index + 1))) (word item)
        (number_to_string (of_Z (count item))) (percentage (count item) total).

(** The rows of the table, in display order. *)
Definition table_rows (ws : list WordCount) : list Row :=
  let total := total_words ws in
  mapi_from (make_row total) 0 (sorted_data ws).

(** ** The markup written to [tableBody.innerHTML] *)

Definition nl : jsstr := [10].
Definition spaces (n : nat) : jsstr := replicate n 32.

(** The template literal of lines 227-234, character for character. *)
Definition row_html (r : Row) : jsstr :=
  nl ++ spaces 12 ++ js "<tr>" ++
  nl ++ spaces 16 ++ js "<td>" ++ row_rank r ++ js "</td>" ++
  nl ++ spaces 16 ++ js "<td><strong>" ++ row_word r ++ js "</strong></td>" ++
  nl ++ spaces 16 ++ js "<td>" ++ row_count r ++ js "</td>" ++
  nl ++ spaces 16 ++ js "<td>" ++ row_percent r ++ js "%</td>" ++
  nl ++ spaces 12 ++ js "</tr>" ++
  nl ++ spaces 8.

(** [sortedData.map(...).join('')] *)
Definition table_body_html (ws : list WordCount) : jsstr := mjoin (row_html <$> table_rows ws).

(** A count the binary64 computations of the table handle exactly. *)
Definition count_ok (w : WordCount) : Prop := 0 <= count w < 2 ^ 53.

#[export] Instance count_ok_dec w : Decision (count_ok w).
Proof. unfold count_ok. apply _. Defined.

(** The entries of the scenario of spec 8.5 ("the cat sat on the mat"). *)
Definition scenario_words : list WordCount :=
  [ mkWordCount (js "the") 2; mkWordCount (js "cat") 1; mkWordCount (js "sat") 1;
    mkWordCount (js "on") 1; mkWordCount (js "mat") 1 ].

(** Two entries whose counts differ by one above [2^53]. *)
Definition big_words : list WordCount :=
  [ mkWordCount (js "a") (2 ^ 53); mkWordCount (js "b") (2 ^ 53 + 1) ].

(** ** Lemmas *)

(** The word cell of a row, inside its markup. *)
Lemma row_html_word r :
  exists a b, row_html r = a ++ js "<td><strong>" ++ row_word r ++ js "</strong></td>" ++ b.
Proof.
  eexists (nl ++ spaces 12 ++ js "<tr>" ++ nl ++ spaces 16 ++ js "<td>" ++ row_rank r ++
           js "</td>" ++ nl ++ spaces 16), _.
  unfold row_html. rewrite <- !app_assoc. reflexivity.
Qed.

Lemma by_count_desc_sign a b :
  count_ok a -> count_ok b -> number_sign (by_count_desc a b) = Z.sgn (desc_cmp count a b).
Proof.
  unfold count_ok, by_count_desc, desc_cmp. intros Ha Hb.
  rewrite js_sub_exact by done. apply number_sign_of_Z. lia.
Qed.

(** Below [2^53] the binary64 comparator sorts as the integer one. *)
Lemma sorted_data_desc ws : Forall count_ok ws -> sorted_data ws = sort_by (desc_cmp count) ws.
Proof.
  apply sort_by_ext. intros a b Ha Hb. rewrite by_count_desc_sign by done.
  destruct (Z.sgn_spec (desc_cmp count a b)) as [[? ->]|[[? ->]|[? ->]]]; lia.
Qed.

Lemma length_table_rows ws : length (table_rows ws) = length ws.
Proof. unfold table_rows, sorted_data. by rewrite length_mapi_from, length_sort_by. Qed.

Lemma lookup_table_rows ws i :
  table_rows ws !! i =
  make_row (total_words ws) i <$> sorted_data ws !! i.
Proof. unfold table_rows. by rewrite lookup_mapi_from. Qed.

Lemma sorted_data_contract ws : Forall count_ok ws -> sort_contract count ws (sorted_data ws).
Proof. intros H. rewrite sorted_data_desc by done. apply sort_by_contract. Qed.

Lemma sorted_data_Permutation ws : sorted_data ws ≡ₚ ws.
Proof. apply sort_by_Permutation. Qed.

Lemma sorted_data_elem ws w : w ∈ sorted_data ws <-> w ∈ ws.
Proof. apply elem_of_Permutation_proper, sorted_data_Permutation. Qed.

(** The integer deviations of the rows, added up. *)
Lemma sum_dev_bound l rs T :
  Forall2 (fun w r => Z.abs (r * T - 10000 * count w) < T) l rs ->
  Z.abs (sumZ (fun r => r) rs * T - 10000 * sumZ count l) <= (T - 1) * Z.of_nat (length l).
Proof. induction 1; cbn [sumZ length]; [lia|]. rewrite Nat2Z.inj_succ. nia. Qed.

(** ** Claims *)

(** C7: the rows of the table are determined by the ES2019 contract of
    [sort]: whatever stable sorting algorithm the engine uses, the rows are
    ranked [1, 2, ...] over the unique arrangement of [wordsData] that is a
    permutation, ordered by decreasing count and keeps equal counts in input
    order; each row shows the word, its count and its share of the total. *)
Theorem table_rows_contract ws arranged :
  Forall count_ok ws -> sort_contract count ws arranged ->
  table_rows ws = mapi_from (make_row (total_words ws)) 0 arranged.
Proof.
  intros Hok H%sort_contract_sort_by. unfold table_rows.
  by rewrite sorted_data_desc, H.
Qed.

(** Witness of C7: the words of spec 8.5 are already in the order the
    contract requires. *)
Lemma table_rows_contract_witness :
  Forall count_ok scenario_words /\ sort_contract count scenario_words scenario_words /\
  table_rows scenario_words = mapi_from (make_row (total_words scenario_words)) 0 scenario_words.
Proof.
  assert (sort_contract count scenario_words scenario_words) as H.
  { split; [done|split; [|done]]. repeat constructor; simpl; lia. }
  assert (Forall count_ok scenario_words) as Hok by decide_by_eval.
  split; [done|split; [done|]]. by apply table_rows_contract.
Defined.

(** C8: the table has one row per entry of [wordsData]; the row at index
    [i] has rank [i + 1], and the counts of the rows never increase down the
    table. *)
Theorem table_rows_ranked ws :
  Forall count_ok ws ->
  length (table_rows ws) = length ws /\
  (forall i r, table_rows ws !! i = Some r ->
     row_rank r = number_to_string (of_Z (Z.of_nat i + 1))) /\
  (forall i j a b, (i <= j)%nat -> sorted_data ws !! i = Some a ->
     sorted_data ws !! j = Some b -> count b <= count a).
Proof.
  intros Hok. split; [apply length_table_rows|split].
  - intros i r. rewrite lookup_table_rows.
    destruct (sorted_data ws !! i); intros; simplify_eq/=. done.
  - intros i j a b Hij Ha Hb.
    destruct (decide (i = j)) as [<-|Hne]; [simplify_eq; lia|].
    rewrite sorted_data_desc in Ha, Hb by done.
    eapply sorted_desc_lookup; [apply sort_by_sorted| |exact Ha|exact Hb]. lia.
Qed.

(** Witness of C8: the entries of spec 8.5. *)
Lemma table_rows_ranked_witness :
  Forall count_ok scenario_words /\ length (table_rows scenario_words) = 5%nat.
Proof.
  assert (Forall count_ok scenario_words) as Hok by decide_by_eval.
  split; [done|]. by destruct (table_rows_ranked scenario_words Hok) as [-> _].
Defined.

(** C15: the words are written into [tableBody.innerHTML] verbatim, without
    HTML escaping: for every entry of [wordsData] the markup contains
    [<td><strong>] immediately followed by the word's own characters. *)
Theorem displayTable_embeds_word ws w :
  w ∈ ws ->
  exists pre suf, table_body_html ws = pre ++ js "<td><strong>" ++ word w ++ js "</strong></td>" ++ suf.
Proof.
  intros Hw. apply sorted_data_elem, list_elem_of_lookup in Hw as [i Hi].
  destruct (mjoin_elem_split (row_html <$> table_rows ws) (row_html (make_row (total_words ws) i w)))
    as (pre & suf & E).
  { apply list_elem_of_fmap_2, list_elem_of_lookup_2 with i.
    by rewrite lookup_table_rows, Hi. }
  destruct (row_html_word (make_row (total_words ws) i w)) as (a & b & Er).
  unfold table_body_html. rewrite E, Er. exists (pre ++ a), (b ++ suf).
  by rewrite <- !app_assoc.
Qed.

(** A word carrying markup, as the server may return it for the input
    [<img src=x onerror=alert(1)>]. *)
Definition markup_word : WordCount := mkWordCount (js "<img src=x onerror=alert(1)>") 1.

(** Witness of C15: the markup of [markup_word] reaches the table body. *)
Lemma displayTable_embeds_word_witness :
  markup_word ∈ [markup_word] /\
  exists pre suf, table_body_html [markup_word] =
    pre ++ js "<td><strong>" ++ js "<img src=x onerror=alert(1)>" ++ js "</strong></td>" ++ suf.
Proof. split; [left|]. apply (displayTable_embeds_word [markup_word] markup_word). left. Defined.

(** C21: the total of the table, a binary64 [reduce] over the counts, is
    the exact sum of the counts while that sum stays below [2^53]. *)
Theorem total_words_exact ws :
  Forall count_ok ws -> sumZ count ws < 2 ^ 53 -> total_words ws = of_Z (sumZ count ws).
Proof.
  intros Hok Hlt. unfold total_words.
  apply (fold_add_exact count ws 0); [lia| |lia].
  eapply Forall_impl; [exact Hok|]. unfold count_ok. lia.
Qed.

(** Witness of C21: the total of spec 8.5 is [6]. *)
Lemma total_words_exact_witness :
  Forall count_ok scenario_words /\ sumZ count scenario_words < 2 ^ 53 /\
  total_words scenario_words = of_Z 6.
Proof.
  assert (Forall count_ok scenario_words) as Hok by decide_by_eval.
  assert (sumZ count scenario_words < 2 ^ 53) as Hlt by (simpl; lia).
  split; [done|split; [done|]]. by rewrite (total_words_exact _ Hok Hlt).
Defined.

(** C22: the count bound is needed: above [2^53] the binary64 conversion
    of the counts merges integers, and the comparator's difference then
    reads [0].  Whenever all counts of [wordsData] convert to the same
    number, whatever their integer values, [sort] keeps the input order
    and the table ranks the entries in that order. *)
Theorem table_order_beyond_2_53 ws :
  (forall a b, a ∈ ws -> b ∈ ws -> of_Z (count a) = of_Z (count b)) ->
  sorted_data ws = ws /\ table_rows ws = mapi_from (make_row (total_words ws)) 0 ws.
Proof.
  intros Heq.
  assert (sorted_data ws = ws) as Hs.
  { apply sort_by_all_ties. intros a b Ha Hb. unfold by_count_desc.
    rewrite (Heq b a Hb Ha). apply js_sub_self_sign. }
  split; [done|]. unfold table_rows. by rewrite Hs.
Qed.

(** Witness of C22: counts [2^53] and [2^53 + 1] both convert to [2^53];
    the table ranks the smaller count first. *)
Lemma table_order_beyond_2_53_witness :
  (forall a b, a ∈ big_words -> b ∈ big_words -> of_Z (count a) = of_Z (count b)) /\
  exists r1 r2, table_rows big_words = [r1; r2] /\
    row_word r1 = js "a" /\ row_count r1 = row_count r2 /\ row_word r2 = js "b".
Proof.
  assert (forall a b, a ∈ big_words -> b ∈ big_words -> of_Z (count a) = of_Z (count b)) as H.
  { intros a b Ha Hb. apply list_elem_of_In in Ha, Hb.
    destruct Ha as [<-|[<-|[]]], Hb as [<-|[<-|[]]]; vm_compute; reflexivity. }
  split; [exact H|]. destruct (table_order_beyond_2_53 big_words H) as [_ ->].
  do 2 eexists. split; [reflexivity|]. vm_compute. repeat split.
Defined.

(** C25: the rank and count cells show decimal digits: for counts and a
    table length below [2^53], the row at index [i] shows [i + 1] and the
    count of the [i]-th entry of the sorted data as their decimal digits
    ([Number::toString] of an integer), next to that entry's word. *)
Theorem table_cells_decimal ws i r w :
  Forall count_ok ws -> Z.of_nat (length ws) < 2 ^ 53 ->
  table_rows ws !! i = Some r -> sorted_data ws !! i = Some w ->
  row_rank r = digits_of (Z.of_nat i + 1) /\ row_word r = word w /\
  row_count r = digits_of (count w).
Proof.
  intros Hall Hlen Hr Hw. rewrite lookup_table_rows, Hw in Hr. injection Hr as <-.
  pose proof (lookup_lt_Some _ _ _ Hw) as Hi. unfold sorted_data in Hi. rewrite length_sort_by in Hi.
  rewrite Forall_forall in Hall. pose proof (Hall w (proj1 (sorted_data_elem ws w) (list_elem_of_lookup_2 _ _ _ Hw))).
  cbn [row_rank row_word row_count make_row].
  unfold count_ok in *. rewrite !number_to_string_of_Z by lia. done.
Qed.

(** Witness of C25: the third row of the scenario of spec 8.5. *)
Lemma table_cells_decimal_witness :
  exists r w, table_rows scenario_words !! 2%nat = Some r /\ sorted_data scenario_words !! 2%nat = Some w /\
    row_rank r = js "3" /\ row_word r = js "sat" /\ row_count r = js "1".
Proof.
  assert (Forall count_ok scenario_words) as Hall by decide_by_eval.
  assert (Z.of_nat (length scenario_words) < 2 ^ 53) as Hlen by (vm_compute; reflexivity).
  destruct (table_rows scenario_words !! 2%nat) as [r|] eqn:Hr; [|vm_compute in Hr; discriminate].
  destruct (sorted_data scenario_words !! 2%nat) as [w|] eqn:Hw; [|vm_compute in Hw; discriminate].
  exists r, w. split; [done|split; [done|]].
  destruct (table_cells_decimal scenario_words 2 r w Hall Hlen Hr Hw) as (-> & -> & ->).
  vm_compute in Hw. injection Hw as <-. vm_compute. repeat split.
Defined.

(** C27: spec 8.3: for counts whose sum [T] is positive and below [2^53],
    every percentage cell prints an integer number [r] of hundredths
    ([toFixed(2)] of the binary64 [(count / T) * 100]) that is within one
    hundredth of the exact [10000 * count / T], and the printed percentages
    add up to 100 within [0.01] per row. *)
Theorem percentages_sum_to_100 ws :
  Forall count_ok ws -> 0 < sumZ count ws < 2 ^ 53 ->
  exists rs, Forall2 (fun row r => row_percent row = fixed_digits 2 r) (table_rows ws) rs /\
    Forall2 (fun w r => Z.abs (r * sumZ count ws - 10000 * count w) < sumZ count ws) (sorted_data ws) rs /\
    Z.abs (sumZ (fun r => r) rs - 10000) < Z.of_nat (length ws).
Proof.
  intros Hok HT. set (T := sumZ count ws) in *.
  assert (total_words ws = of_Z T) as Htot.
  { unfold total_words. apply (fold_add_exact count ws 0); [lia| |lia].
    eapply Forall_impl; [exact Hok|]. unfold count_ok. lia. }
  assert (Forall (fun w => 0 <= count w <= T) (sorted_data ws)) as Hb.
  { apply Forall_forall. intros w Hw. apply (proj1 (sorted_data_elem ws w)) in Hw.
    split; [pose proof (proj1 (Forall_forall _ _) Hok w Hw); unfold count_ok in *; lia|].
    apply sumZ_elem_le; [|done]. eapply Forall_impl; [exact Hok|]. unfold count_ok. lia. }
  destruct (Forall2_exists _ (fun w r => percentage (count w) (of_Z T) = fixed_digits 2 r /\
              0 <= r /\ Z.abs (r * T - 10000 * count w) < T) _
              (fun w Hw => percent_hundredths (count w) T Hw ltac:(lia)) Hb) as [rs Hrs].
  exists rs. split; [|split].
  - apply Forall2_lookup. intros i. rewrite lookup_table_rows.
    pose proof (proj1 (Forall2_lookup _ _ _) Hrs i) as Hi.
    destruct (sorted_data ws !! i), (rs !! i); inversion Hi as [? ? (Hp & _)|]; subst; constructor.
    cbn. by rewrite Htot.
  - eapply Forall2_impl; [exact Hrs|]. by intros ? ? (_ & _ & ?).
  - assert (Forall2 (fun w r => Z.abs (r * T - 10000 * count w) < T) (sorted_data ws) rs) as Hd
      by (eapply Forall2_impl; [exact Hrs|]; by intros ? ? (_ & _ & ?)).
    apply sum_dev_bound in Hd.
    rewrite (sumZ_Permutation count _ ws), (Permutation_length (sorted_data_Permutation ws)) in Hd
      by apply sorted_data_Permutation.
    fold T in Hd. destruct ws as [|w ws']; [cbn in T; lia|].
    cbn [length] in *. nia.
Qed.

(** Witness of C27: the table of spec 8.5. *)
Lemma percentages_sum_to_100_witness :
  Forall count_ok scenario_words /\ 0 < sumZ count scenario_words < 2 ^ 53 /\
  exists rs, Forall2 (fun row r => row_percent row = fixed_digits 2 r) (table_rows scenario_words) rs /\
    Z.abs (sumZ (fun r => r) rs - 10000) < 5.
Proof.
  assert (Forall count_ok scenario_words) as Hok by decide_by_eval.
  assert (0 < sumZ count scenario_words < 2 ^ 53) as Hlt by (simpl; lia).
  split; [done|split; [done|]].
  destruct (percentages_sum_to_100 scenario_words Hok Hlt) as (rs & H1 & _ & H3).
  exists rs. split; [exact H1|exact H3].
Defined.
