(* ===== verification/JsValue.v ===== *)
(** * JavaScript values of the analysis response

    The fields of the [/analyze] answer that the code only tests or prints
    ([data.success], [data.error], [data.total_words], [data.unique_words])
    may hold any JSON value; [jsval] has a constructor per JSON type plus
    [undefined] for a missing field.  [truthy] is [ToBoolean] (used by
    [response.ok && data.success] and [data.error || ...], lines 29 and 32
    of [script.js]); [to_string] is [ToString] as the template literals
    apply it (lines 63, 67, 277). *)

From stdpp Require Import base list numbers strings.
From Stdlib Require Import ZArith Lia SpecFloat.
From S2P Require Import Prelude JsString JsNumber.

Inductive jsval :=
| VUndef
| VNull
| VBool (b : bool)
| VNum (n : number)
| VStr (s : jsstr)
| VArr (xs : list jsval)
| VObj.

(** [ToBoolean] *)
Definition truthy (v : jsval) : bool :=
  match v with
  | VUndef | VNull => false
  | VBool b => b
  | VNum (S754_zero _) | VNum S754_nan => false
  | VNum _ => true
  | VStr s => str_truthy s
  | VArr _ | VObj => true
  end.

(** [ToString]; an array prints as [join(",")] of its elements, where
    [undefined] and [null] print as the empty string. *)
Fixpoint to_string (v : jsval) : jsstr :=
  match v with
  | VUndef => js "undefined"
  | VNull => js "null"
  | VBool true => js "true"
  | VBool false => js "false"
  | VNum n => number_to_string n
  | VStr s => s
  | VArr xs =>
      join_with (js ",")
        (List.map (fun x => match x with VUndef | VNull => [] | _ => to_string x end) xs)
  | VObj => js "[object Object]"
  end.

(** [a || b]: [a] itself when truthy, else [b]. *)
Definition js_or (a b : jsval) : jsval := if truthy a then a else b.
