(* ===== verification/Json.v ===== *)
(** * The request body: [JSON.stringify({ text: text })]

    Line 24 of [script.js] sends [JSON.stringify({ text: text })].  For an
    object with one string property this is [{"text":] followed by
    [QuoteJSONString(text)] and [}].  [QuoteJSONString] (ECMA-262 25.5.2.3,
    well-formed since ES2019) walks the code points of the string: it
    escapes the quote, the backslash and the control characters, writes lone
    surrogates as [\uXXXX] in lowercase hexadecimal, and copies every other
    code point, surrogate pairs included. *)

From stdpp Require Import base list numbers strings.
From Stdlib Require Import ZArith Lia.
From S2P Require Import Prelude JsString.

Local Open Scope Z_scope.

Definition is_high_surrogate (c : Z) : bool := (0xD800 <=? c) && (c <=? 0xDBFF).
Definition is_low_surrogate (c : Z) : bool := (0xDC00 <=? c) && (c <=? 0xDFFF).

Definition hex_digit (d : Z) : Z := if d <? 10 then 48 + d else 87 + d.

(** [UnicodeEscape(C)]: [\u] and four lowercase hexadecimal digits. *)
Definition unicode_escape (c : Z) : jsstr :=
  [92; 117; hex_digit (c / 4096 mod 16); hex_digit (c / 256 mod 16);
   hex_digit (c / 16 mod 16); hex_digit (c mod 16)].

(** One code point that is not a surrogate: Table 73 of ECMA-262, then
    [UnicodeEscape] below U+0020, else the code unit itself. *)
Definition escape_unit (c : Z) : jsstr :=
  if c =? 0x08 then js "\b" else
  if c =? 0x09 then js "\t" else
  if c =? 0x0A then js "\n" else
  if c =? 0x0C then js "\f" else
  if c =? 0x0D then js "\r" else
  if c =? 0x22 then [92; 34] else
  if c =? 0x5C then [92; 92] else
  if c <? 0x20 then unicode_escape c else [c].

Fixpoint quote_units (s : jsstr) : jsstr :=
  match s with
  | [] => []
  | c :: s' =>
      if is_high_surrogate c then
        match s' with
        | d :: s'' => if is_low_surrogate d then c :: d :: quote_units s''
                      else unicode_escape c ++ quote_units s'
        | [] => unicode_escape c
        end
      else if is_low_surrogate c then unicode_escape c ++ quote_units s'
      else escape_unit c ++ quote_units s'
  end.

(** [QuoteJSONString(value)] *)
Definition quote_json_string (s : jsstr) : jsstr := [34] ++ quote_units s ++ [34].

(** [JSON.stringify({ text: text })] *)
Definition request_body (text : jsstr) : jsstr :=
  [123; 34] ++ js "text" ++ [34; 58] ++ quote_json_string text ++ [125].

(** ** Reading the body back

    The receiving side of the contract of spec section 6: a JSON string
    literal is read by the grammar of ECMA-404 (RFC 8259, section 7): a
    backslash starts an escape of the quote, the backslash or the slash,
    one of the letters [b f n r t], or [u] and four hexadecimal digits in
    either case, code units below U+0020
    may not appear raw, and every other code unit stands for itself. *)

Definition hex_value (c : Z) : option Z :=
  if (48 <=? c) && (c <=? 57) then Some (c - 48)
  else if (97 <=? c) && (c <=? 102) then Some (c - 87)
  else if (65 <=? c) && (c <=? 70) then Some (c - 55)
  else None.

Definition hex4 (a b c d : Z) : option Z :=
  va ← hex_value a; vb ← hex_value b; vc ← hex_value c; vd ← hex_value d;
  Some (((va * 16 + vb) * 16 + vc) * 16 + vd).

Definition simple_escape (e : Z) : option Z :=
  if e =? 34 then Some 34 else if e =? 92 then Some 92 else if e =? 47 then Some 47
  else if e =? 98 then Some 8 else if e =? 102 then Some 12 else if e =? 110 then Some 10
  else if e =? 114 then Some 13 else if e =? 116 then Some 9 else None.

(** The characters of a string literal after its opening quote: the code
    units they stand for and what follows the closing quote. *)
Fixpoint json_chars (s : jsstr) : option (jsstr * jsstr) :=
  match s with
  | [] => None
  | c :: s1 =>
      if c =? 34 then Some ([], s1)
      else if c =? 92 then
        match s1 with
        | e :: s2 =>
            if e =? 117 then
              match s2 with
              | a :: b :: c' :: d :: s3 =>
                  u ← hex4 a b c' d; '(t, r) ← json_chars s3; Some (u :: t, r)
              | _ => None
              end
            else u ← simple_escape e; '(t, r) ← json_chars s2; Some (u :: t, r)
        | [] => None
        end
      else if c <? 32 then None
      else '(t, r) ← json_chars s1; Some (c :: t, r)
  end.

Fixpoint strip_prefix (p s : jsstr) : option jsstr :=
  match p, s with
  | [], _ => Some s
  | c :: p', d :: s' => if c =? d then strip_prefix p' s' else None
  | _ :: _, [] => None
  end.

(** The text of a body [{"text":"..."}] written without white space, as
    [request_body] writes it; [None] for anything else. *)
Definition parse_request (s : jsstr) : option jsstr :=
  rest ← strip_prefix ([123; 34] ++ js "text" ++ [34; 58; 34]) s;
  '(t, r) ← json_chars rest;
  if bool_decide (r = [125]) then Some t else None.

(** A UTF-16 code unit. *)
Definition code_unit (c : Z) : Prop := 0 <= c < 65536.

#[export] Instance code_unit_dec c : Decision (code_unit c).
Proof. unfold code_unit. apply _. Defined.

(** ** Lemmas *)

(** One decoded unit followed by the rest of the literal. *)
Definition chars_cons (u : Z) (o : option (jsstr * jsstr)) : option (jsstr * jsstr) :=
  '(t, r) ← o; Some (u :: t, r).

Lemma hex_value_digit d : 0 <= d < 16 -> hex_value (hex_digit d) = Some d.
Proof.
  intros Hd. unfold hex_value, hex_digit.
  destruct (Z.ltb_spec d 10);
    repeat match goal with |- context [?a <=? ?b] => destruct (Z.leb_spec a b) end;
    simpl; f_equal; lia.
Qed.

Lemma hex4_unicode_escape c :
  code_unit c ->
  hex4 (hex_digit (c / 4096 mod 16)) (hex_digit (c / 256 mod 16))
       (hex_digit (c / 16 mod 16)) (hex_digit (c mod 16)) = Some c.
Proof.
  intros Hc. unfold code_unit in Hc. unfold hex4.
  rewrite !hex_value_digit by (apply Z.mod_pos_bound; lia). simpl. f_equal.
  Z.div_mod_to_equations. lia.
Qed.

Lemma json_chars_unicode_escape c rest :
  code_unit c -> json_chars (unicode_escape c ++ rest) = chars_cons c (json_chars rest).
Proof. intros Hc. simpl. by rewrite hex4_unicode_escape. Qed.

Lemma json_chars_raw c rest :
  32 <= c -> c <> 34 -> c <> 92 -> json_chars (c :: rest) = chars_cons c (json_chars rest).
Proof.
  intros H1 H2 H3. simpl.
  rewrite (proj2 (Z.eqb_neq c 34) H2), (proj2 (Z.eqb_neq c 92) H3).
  destruct (Z.ltb_spec c 32); [lia|done].
Qed.

Lemma json_chars_escape_unit c rest :
  code_unit c -> json_chars (escape_unit c ++ rest) = chars_cons c (json_chars rest).
Proof.
  intros Hc. unfold escape_unit.
  do 7 (match goal with |- context [c =? ?k] =>
          destruct (Z.eqb_spec c k) as [->|]; [reflexivity|] end).
  destruct (Z.ltb_spec c 32); [by apply json_chars_unicode_escape|].
  apply json_chars_raw; lia.
Qed.

Lemma surrogate_raw c :
  is_high_surrogate c = true \/ is_low_surrogate c = true -> 32 <= c /\ c <> 34 /\ c <> 92.
Proof.
  unfold is_high_surrogate, is_low_surrogate.
  intros [H|H]; apply andb_prop in H as [H1 H2]; apply Z.leb_le in H1; lia.
Qed.

Lemma json_chars_quote_units s rest :
  Forall code_unit s -> json_chars (quote_units s ++ 34 :: rest) = Some (s, rest).
Proof.
  remember (length s) as n eqn:Hn. revert s Hn.
  induction n as [n IH] using lt_wf_ind. intros [|c s] Hn Hs; [done|].
  apply Forall_cons in Hs as [Hc Hs]. cbn [quote_units length] in *.
  destruct (is_high_surrogate c) eqn:Eh.
  - destruct s as [|d s']; [by rewrite json_chars_unicode_escape|].
    apply Forall_cons in Hs as [Hd Hs'].
    destruct (is_low_surrogate d) eqn:El.
    + destruct (surrogate_raw c (or_introl Eh)) as (? & ? & ?).
      destruct (surrogate_raw d (or_intror El)) as (? & ? & ?).
      cbn [app]. rewrite !json_chars_raw by done.
      rewrite (IH (length s')) by (first [done|simpl in *; lia]). done.
    + rewrite <-app_assoc, json_chars_unicode_escape by done.
      rewrite (IH (length (d :: s'))) by (first [done|by constructor|simpl in *; lia]). done.
  - destruct (is_low_surrogate c); rewrite <-app_assoc;
      [rewrite json_chars_unicode_escape by done|rewrite json_chars_escape_unit by done];
      by rewrite (IH (length s)) by (first [done|lia]).
Qed.

Lemma strip_prefix_app p s : strip_prefix p (p ++ s) = Some s.
Proof. induction p as [|c p IH]; simpl; [done|]. by rewrite Z.eqb_refl. Qed.

(** ** Claims *)

(** C19: the request body round-trips: reading [JSON.stringify({ text })]
    back by the JSON grammar gives exactly the text that was sent, for
    every string of UTF-16 code units, quotes, backslashes, control
    characters and lone surrogates included (spec section 6). *)
Theorem request_body_roundtrip t : Forall code_unit t -> parse_request (request_body t) = Some t.
Proof.
  intros Ht. unfold parse_request.
  replace (request_body t) with (([123; 34] ++ js "text" ++ [34; 58; 34]) ++ quote_units t ++ [34; 125])
    by (unfold request_body, quote_json_string; by rewrite <-!app_assoc).
  rewrite strip_prefix_app. simpl mbind at 1.
  by rewrite json_chars_quote_units.
Qed.

(** Witness of C19: a text holding a quote, a newline, a lone high
    surrogate and a backslash. *)
Lemma request_body_roundtrip_witness :
  Forall code_unit [104; 105; 34; 10; 0xD800; 92] /\
  parse_request (request_body [104; 105; 34; 10; 0xD800; 92]) = Some [104; 105; 34; 10; 0xD800; 92].
Proof.
  assert (Forall code_unit [104; 105; 34; 10; 0xD800; 92]) as H by decide_by_eval.
  split; [done|]. by apply request_body_roundtrip.
Defined.
