(* ===== verification/Charts.v ===== *)
(** * The two charts of [displayCharts]

    [displayCharts(chartData)] (lines 77-216 of [script.js]) derives the
    labels ([item.word]), the values ([item.count]) and the colours
    ([generateColors]) once, and builds a bar chart and a doughnut chart on
    them.  This file holds the configuration each [new Chart(...)] receives
    (type, data and the [options] object literal, transcribed as a tree
    whose [label] callbacks name the two tooltip functions), the two
    tooltip callbacks, and the registry of live charts that the charting
    library keeps per canvas: [new Chart] refuses a canvas that still has a
    live chart, [destroy] releases it.  The theorem says what both tooltips
    show for an entry of the chart data. *)

From stdpp Require Import base list numbers strings.
From Stdlib Require Import ZArith Lia.
From S2P Require Import Prelude JsString Colors JsNumber Exact Table.

Local Open Scope Z_scope.

Inductive chart_type := BarType | DoughnutType.

(** [borderColor]: one colour per bar, or one colour for every slice. *)
Inductive border := BorderEach (cs : list jsstr) | BorderAll (c : jsstr).

(** The two tooltip [label] callbacks of the [options] blocks; what they
    return is [bar_tooltip] and [pie_tooltip] below. *)
Inductive label_callback := BarLabel | PieLabel.

(** A value of an [options] object literal. *)
Inductive option_value :=
| OBool (b : bool)
| ONum (z : Z)
| OStr (s : jsstr)
| OObj (fields : list (jsstr * option_value))
| OCallback (f : label_callback).

(** The [type], [data] (the one dataset's fields included) and [options]
    of a configuration. *)
Record ChartConfig := mkConfig {
  cfg_type : chart_type;
  cfg_labels : list jsstr;
  cfg_label : option jsstr;          (* dataset [label] *)
  cfg_data : list Z;
  cfg_background : list jsstr;
  cfg_border : border;
  cfg_border_width : Z;
  cfg_border_radius : option Z;
  cfg_border_skipped : option bool;
  cfg_hover_offset : option Z;
  cfg_options : option_value
}.

Definition tooltip_style : list (jsstr * option_value) :=
  [(js "backgroundColor", OStr (js "rgba(0, 0, 0, 0.8)")); (js "titleColor", OStr (js "white"));
   (js "bodyColor", OStr (js "white")); (js "borderColor", OStr (js "#667eea"));
   (js "borderWidth", ONum 1); (js "cornerRadius", ONum 8)].

Definition layout_padding : jsstr * option_value :=
  (js "layout", OObj [(js "padding", OObj [(js "top", ONum 10); (js "bottom", ONum 10)])]).

(** The [options] of the bar chart (lines 102-156). *)
Definition bar_options : option_value :=
  OObj [(js "responsive", OBool true); (js "maintainAspectRatio", OBool false);
        (js "plugins", OObj
           [(js "legend", OObj [(js "display", OBool false)]);
            (js "tooltip", OObj (tooltip_style ++
               [(js "displayColors", OBool false);
                (js "callbacks", OObj [(js "label", OCallback BarLabel)])]))]);
        (js "scales", OObj
           [(js "y", OObj [(js "beginAtZero", OBool true);
                           (js "grid", OObj [(js "color", OStr (js "rgba(0, 0, 0, 0.1)"))]);
                           (js "ticks", OObj [(js "color", OStr (js "#666"));
                                              (js "font", OObj [(js "size", ONum 11)])])]);
            (js "x", OObj [(js "grid", OObj [(js "display", OBool false)]);
                           (js "ticks", OObj [(js "color", OStr (js "#666")); (js "maxRotation", ONum 30);
                                              (js "font", OObj [(js "size", ONum 10)])])])]);
        layout_padding].

(** The [options] of the doughnut chart (lines 177-214). *)
Definition pie_options : option_value :=
  OObj [(js "responsive", OBool true); (js "maintainAspectRatio", OBool false);
        (js "plugins", OObj
           [(js "legend", OObj [(js "position", OStr (js "bottom"));
                                (js "labels", OObj [(js "padding", ONum 15); (js "usePointStyle", OBool true);
                                                    (js "color", OStr (js "#333"));
                                                    (js "font", OObj [(js "size", ONum 11)])])]);
            (js "tooltip", OObj (tooltip_style ++
               [(js "callbacks", OObj [(js "label", OCallback PieLabel)])]))]);
        layout_padding].

(** [chartData.map(item => item.word)], [chartData.map(item => item.count)],
    [generateColors(chartData.length)] *)
Definition chart_labels (cd : list WordCount) : list jsstr := word <$> cd.
Definition chart_counts (cd : list WordCount) : list Z := count <$> cd.
Definition chart_colors (cd : list WordCount) : list jsstr :=
  Colors.generateColors (length cd).

(** The configuration of the bar chart (lines 88-157). *)
Definition bar_config (cd : list WordCount) : ChartConfig :=
  mkConfig BarType (chart_labels cd) (Some (js "Word Frequency")) (chart_counts cd)
           (chart_colors cd) (BorderEach (Colors.border_colors (chart_colors cd)))
           2 (Some 8) (Some false) None bar_options.

(** The configuration of the doughnut chart (lines 165-215). *)
Definition pie_config (cd : list WordCount) : ChartConfig :=
  mkConfig DoughnutType (chart_labels cd) None (chart_counts cd) (chart_colors cd)
           (BorderAll (js "white")) 3 None None (Some 10) pie_options.

(** The bar tooltip: [`Frequency: ${context.parsed.y}`] (line 119). *)
Definition bar_tooltip (cfg : ChartConfig) (i : nat) : option jsstr :=
  (fun v => js "Frequency: " ++ number_to_string (of_Z v)) <$> cfg_data cfg !! i.

(** [context.dataset.data.reduce((a, b) => a + b, 0)] (line 201), in
    binary64 arithmetic. *)
Definition dataset_total (data : list Z) : number :=
  fold_left (fun a b => js_add a (of_Z b)) data (of_Z 0).

(** The doughnut tooltip (lines 200-204):
    [`${context.label}: ${context.parsed} (${percentage}%)`] with
    [percentage = ((context.parsed / total) * 100).toFixed(1)]. *)
Definition pie_tooltip (cfg : ChartConfig) (i : nat) : option jsstr :=
  match cfg_labels cfg !! i, cfg_data cfg !! i with
  | Some l, Some v =>
      let total := dataset_total (cfg_data cfg) in
      let pct := to_fixed 1 (js_mul (js_div (of_Z v) total) (of_Z 100)) in
      Some (l ++ js ": " ++ number_to_string (of_Z v) ++ js " (" ++ pct ++ js "%)")
  | _, _ => None
  end.

(** ** The charting library's registry of live charts *)

Inductive canvas := BarCanvas | PieCanvas.

#[export] Instance canvas_eq_dec : EqDecision canvas.
Proof. solve_decision. Defined.

Record ChartInst := mkInst { inst_id : nat; inst_canvas : canvas; inst_config : ChartConfig }.

Record Registry := mkRegistry { live : list ChartInst; next_id : nat }.

Definition empty_registry : Registry := mkRegistry [] 0.

Definition canvas_in_use (r : Registry) (cv : canvas) : bool :=
  existsb (fun c => bool_decide (inst_canvas c = cv)) (live r).

(** [new Chart(ctx, config)]: [None] when the canvas still has a live chart
    (the library throws "Canvas is already in use"), else the new chart's
    id and the registry with it. *)
Definition new_chart (r : Registry) (cv : canvas) (cfg : ChartConfig) : option (nat * Registry) :=
  if canvas_in_use r cv then None
  else Some (next_id r, mkRegistry (mkInst (next_id r) cv cfg :: live r) (S (next_id r))).

(** [chart.destroy()] *)
Definition destroy_chart (r : Registry) (id : nat) : Registry :=
  mkRegistry (filter (fun c => inst_id c <> id) (live r)) (next_id r).

(** ** Lemmas *)

(** [context.dataset.data.reduce((a, b) => a + b, 0)] over the chart's
    counts is their exact sum below [2^53]. *)
Lemma dataset_total_exact cd :
  Forall count_ok cd -> sumZ count cd < 2 ^ 53 ->
  dataset_total (chart_counts cd) = of_Z (sumZ count cd).
Proof.
  intros Hok Hlt. unfold dataset_total, chart_counts.
  rewrite <-(sumZ_fmap (fun z => z) count). apply (fold_add_exact (fun z => z)); [lia| |].
  - apply Forall_fmap. eapply Forall_impl; [exact Hok|]. unfold count_ok. simpl. lia.
  - rewrite sumZ_fmap, Z.add_0_l. exact Hlt.
Qed.

(** ** Claims *)

(** C23: the tooltips of entry [i] of [chart_data]: the bar chart shows
    [Frequency: ] and the entry's count; the doughnut shows the entry's
    word, its count and its share of the sum of the chart's own counts
    (spec 4.3: the current dataset's total, not [total_words]), rounded by
    [toFixed(1)], while the counts and their sum are below [2^53]. *)
Theorem chart_tooltips cd i w :
  Forall count_ok cd -> sumZ count cd < 2 ^ 53 -> cd !! i = Some w ->
  bar_tooltip (bar_config cd) i = Some (js "Frequency: " ++ number_to_string (of_Z (count w))) /\
  pie_tooltip (pie_config cd) i =
    Some (word w ++ js ": " ++ number_to_string (of_Z (count w)) ++ js " (" ++
          to_fixed 1 (js_mul (js_div (of_Z (count w)) (of_Z (sumZ count cd))) (of_Z 100)) ++
          js "%)").
Proof.
  intros Hok Hlt Hw. unfold bar_tooltip, pie_tooltip, bar_config, pie_config. cbn [cfg_data cfg_labels].
  assert (chart_labels cd !! i = Some (word w)) as Hl
    by (unfold chart_labels; by rewrite list_lookup_fmap, Hw).
  assert (chart_counts cd !! i = Some (count w)) as Hc
    by (unfold chart_counts; by rewrite list_lookup_fmap, Hw).
  rewrite Hl, Hc, dataset_total_exact by done. done.
Qed.

(** Witness of C23: the first entry of spec 8.5 is [the: 2 (33.3%)]. *)
Lemma chart_tooltips_witness :
  Forall count_ok scenario_words /\ sumZ count scenario_words < 2 ^ 53 /\
  scenario_words !! 0%nat = Some (mkWordCount (js "the") 2) /\
  pie_tooltip (pie_config scenario_words) 0 = Some (js "the: 2 (33.3%)").
Proof.
  assert (Forall count_ok scenario_words) as Hok by decide_by_eval.
  assert (sumZ count scenario_words < 2 ^ 53) as Hlt by (simpl; lia).
  assert (scenario_words !! 0%nat = Some (mkWordCount (js "the") 2)) as Hw by reflexivity.
  split; [done|split; [done|split; [done|]]].
  destruct (chart_tooltips _ _ _ Hok Hlt Hw) as [_ ->]. vm_compute. reflexivity.
Defined.
