(* ===== verification/Page.v ===== *)
(** * The page and the synchronous handlers

    [Page] is the part of the DOM and of the script's globals the code reads
    or writes: the textarea, the [display] style of [#loading] and
    [#results], the [.error] banners at the top of [.main-content], the
    [innerHTML] of [#stats] and [#tableBody], the charting library's
    registry with the globals [barChart] and [pieChart], and the log of
    requests sent to [/analyze].

    The handlers are written in [M], a state monad over [Page] with
    exceptions: an exception thrown half-way (a [TypeError] on a missing
    field, the library refusing a busy canvas) keeps the effects already
    made, as in JavaScript.  The one theorem of the file (C26) computes
    what [displayStats] writes for integral totals. *)

From stdpp Require Import base list numbers strings.
From Stdlib Require Import ZArith Lia SpecFloat.
From S2P Require Import Prelude JsString JsNumber ToString JsValue Table Charts.

(** [element.style.display]: [DisplayInitial] until the script sets it
    (the stylesheet hides [#loading] and [#results] initially). *)
Inductive display := DisplayInitial | DisplayBlock | DisplayNone.

Record Page := mkPage {
  textarea : jsstr;
  placeholder : jsstr;
  keydown_installed : bool;
  loading : display;
  results : display;
  banners : list jsstr;       (* innerHTML of each [.error] div, first child first *)
  stats_html : jsstr;
  table_html : jsstr;
  registry : Registry;
  barChart : option nat;
  pieChart : option nat;
  scrolls : nat;              (* calls of [results.scrollIntoView] *)
  sent : list jsstr           (* bodies POSTed to [/analyze], oldest first *)
}.

(** The page as served, before [DOMContentLoaded]. *)
Definition initial_page : Page :=
  mkPage [] [] false DisplayInitial DisplayInitial [] [] [] empty_registry None None 0 [].

(** ** A state monad with exceptions *)

Inductive exn := TypeError | CanvasInUse | SyntaxError.

Definition M (A : Type) : Type := Page -> (exn + A) * Page.

Definition ret {A} (a : A) : M A := fun p => (inr a, p).
Definition bind {A B} (m : M A) (k : A -> M B) : M B :=
  fun p => match m p with
           | (inl e, p') => (inl e, p')
           | (inr a, p') => k a p'
           end.
Definition throw {A} (e : exn) : M A := fun p => (inl e, p).
Definition modify (f : Page -> Page) : M unit := fun p => (inr tt, f p).
Definition gets {A} (f : Page -> A) : M A := fun p => (inr (f p), p).

(** [try { m } catch { h }]: the handler runs on the page as the exception
    left it. *)
Definition try_catch {A} (m : M A) (h : exn -> M A) : M A :=
  fun p => match m p with
           | (inl e, p') => h e p'
           | r => r
           end.

(** [try { ... } finally { f }] for a [finally] block that cannot throw. *)
Definition finally {A} (m : M A) (f : M unit) : M A :=
  fun p => let '(r, p') := m p in (r, snd (f p')).

Declare Scope dom_scope.
Delimit Scope dom_scope with dom.
Notation "x <- m ;; k" := (bind m (fun x => k))
  (at level 100, m at next level, k at level 200) : dom_scope.
Notation "m ;; k" := (bind m (fun _ => k))
  (at level 100, k at level 200) : dom_scope.
Local Open Scope dom_scope.

(** A field of the response that must be an array: [FArr] when it is one
    (of entries of the spec's shape), [FMissing] when it is [undefined] or
    [null], where any property access throws [TypeError]. *)
Inductive arr_field := FMissing | FArr (items : list WordCount).

Definition need_array (f : arr_field) : M (list WordCount) :=
  match f with FMissing => throw TypeError | FArr xs => ret xs end.

(** The parsed body [data] of a response that is a JSON object. *)
Record Payload := mkPayload {
  p_success : jsval;
  p_error : jsval;
  p_total_words : jsval;
  p_unique_words : jsval;
  p_chart_data : arr_field;
  p_words_data : arr_field
}.

(** ** The handlers *)

Definition set_loading (d : display) (p : Page) : Page :=
  mkPage (textarea p) (placeholder p) (keydown_installed p) d (results p) (banners p)
    (stats_html p) (table_html p) (registry p) (barChart p) (pieChart p) (scrolls p) (sent p).

Definition set_results (d : display) (p : Page) : Page :=
  mkPage (textarea p) (placeholder p) (keydown_installed p) (loading p) d (banners p)
    (stats_html p) (table_html p) (registry p) (barChart p) (pieChart p) (scrolls p) (sent p).

Definition set_banners (bs : list jsstr) (p : Page) : Page :=
  mkPage (textarea p) (placeholder p) (keydown_installed p) (loading p) (results p) bs
    (stats_html p) (table_html p) (registry p) (barChart p) (pieChart p) (scrolls p) (sent p).

(** [showLoading(show)] (lines 260-263) *)
Definition showLoading (show : bool) : M unit :=
  modify (set_loading (if show then DisplayBlock else DisplayNone)).

(** [showResults()] and [hideResults()] (lines 265-271) *)
Definition showResults : M unit := modify (set_results DisplayBlock).
Definition hideResults : M unit := modify (set_results DisplayNone).

(** [hideError()] (lines 283-288): [querySelector('.error')] finds the
    first banner in document order, which is removed; the others stay. *)
Definition hideError : M unit := modify (fun p => set_banners (tail (banners p)) p).

(** The banner's [innerHTML] (line 277). *)
Definition error_html (message : jsval) : jsstr :=
  js "<i class=" ++ dq ++ js "fas fa-exclamation-triangle" ++ dq ++ js "></i> " ++
  to_string message.

(** [showError(message)] (lines 273-281): remove one banner, insert the new
    one as the first child of [.main-content]. *)
Definition showError (message : jsval) : M unit :=
  hideError;;
  modify (fun p => set_banners (error_html message :: banners p) p).

Definition set_stats (h : jsstr) (p : Page) : Page :=
  mkPage (textarea p) (placeholder p) (keydown_installed p) (loading p) (results p) (banners p)
    h (table_html p) (registry p) (barChart p) (pieChart p) (scrolls p) (sent p).

Definition set_table (h : jsstr) (p : Page) : Page :=
  mkPage (textarea p) (placeholder p) (keydown_installed p) (loading p) (results p) (banners p)
    (stats_html p) h (registry p) (barChart p) (pieChart p) (scrolls p) (sent p).

Definition set_charts (r : Registry) (b c : option nat) (p : Page) : Page :=
  mkPage (textarea p) (placeholder p) (keydown_installed p) (loading p) (results p) (banners p)
    (stats_html p) (table_html p) r b c (scrolls p) (sent p).

Definition set_scrolls (n : nat) (p : Page) : Page :=
  mkPage (textarea p) (placeholder p) (keydown_installed p) (loading p) (results p) (banners p)
    (stats_html p) (table_html p) (registry p) (barChart p) (pieChart p) n (sent p).

(** One [stat-card] of the template of lines 61-74. *)
Definition stat_card (value label : jsstr) : jsstr :=
  nl ++ spaces 8 ++ js "<div class=" ++ dq ++ js "stat-card" ++ dq ++ js ">" ++
  nl ++ spaces 12 ++ js "<div class=" ++ dq ++ js "stat-number" ++ dq ++ js ">" ++ value ++ js "</div>" ++
  nl ++ spaces 12 ++ js "<div class=" ++ dq ++ js "stat-label" ++ dq ++ js ">" ++ label ++ js "</div>" ++
  nl ++ spaces 8 ++ js "</div>".

Definition stats_template (total unique shown : jsstr) : jsstr :=
  stat_card total (js "Total Words") ++ stat_card unique (js "Unique Words") ++
  stat_card shown (js "Top Words Shown") ++ nl ++ spaces 4.

(** [displayStats(data)] (lines 59-75): the template reads
    [data.chart_data.length], which throws when [chart_data] is missing;
    nothing is written then. *)
Definition displayStats (data : Payload) : M unit :=
  cd <- need_array (p_chart_data data);;
  modify (set_stats (stats_template (to_string (p_total_words data))
                                    (to_string (p_unique_words data))
                                    (number_to_string (of_Z (Z.of_nat (length cd)))))).

Definition chart_handle (cv : canvas) (p : Page) : option nat :=
  match cv with BarCanvas => barChart p | PieCanvas => pieChart p end.

Definition set_handle (cv : canvas) (h : option nat) (r : Registry) (p : Page) : Page :=
  match cv with
  | BarCanvas => set_charts r h (pieChart p) p
  | PieCanvas => set_charts r (barChart p) h p
  end.

(** [if (barChart) { barChart.destroy(); }] (lines 84-86, 161-163).  The
    global keeps the destroyed chart until it is reassigned. *)
Definition destroy_handle (cv : canvas) : M unit :=
  modify (fun p => match chart_handle cv p with
                   | Some id => set_handle cv (Some id) (destroy_chart (registry p) id) p
                   | None => p
                   end).

(** [barChart = new Chart(barCtx, {...})] (lines 88, 165): the global is
    assigned only when the constructor returns. *)
Definition create_chart (cv : canvas) (cfg : ChartConfig) : M unit :=
  fun p => match new_chart (registry p) cv cfg with
           | None => (inl CanvasInUse, p)
           | Some (id, r) => (inr tt, set_handle cv (Some id) r p)
           end.

(** [displayCharts(chartData)] (lines 77-216) *)
Definition displayCharts (chart_data : arr_field) : M unit :=
  cd <- need_array chart_data;;
  destroy_handle BarCanvas;;
  create_chart BarCanvas (bar_config cd);;
  destroy_handle PieCanvas;;
  create_chart PieCanvas (pie_config cd).

(** [displayTable(wordsData)] (lines 218-236): [wordsData.reduce] throws on
    a missing array before anything is written. *)
Definition displayTable (words_data : arr_field) : M unit :=
  ws <- need_array words_data;;
  modify (set_table (table_body_html ws)).

(** [document.getElementById('results').scrollIntoView(...)] (line 56):
    only the viewport moves; the model counts the calls. *)
Definition scrollIntoView : M unit := modify (fun p => set_scrolls (S (scrolls p)) p).

(** [displayResults(data)] (lines 42-57) *)
Definition displayResults (data : Payload) : M unit :=
  displayStats data;;
  displayCharts (p_chart_data data);;
  displayTable (p_words_data data);;
  showResults;;
  scrollIntoView.

(** ** The stat cards *)

(** C26: with [chart_data] present and integral totals below [2^53],
    [displayStats] succeeds and writes the three cards with the decimal
    digits of the total, of the number of distinct words and of the length
    of [chart_data], touching nothing else of the page. *)
Theorem displayStats_decimal d cd t u p :
  p_chart_data d = FArr cd -> p_total_words d = VNum (of_Z t) -> p_unique_words d = VNum (of_Z u) ->
  (0 <= t < 2 ^ 53)%Z -> (0 <= u < 2 ^ 53)%Z -> (Z.of_nat (length cd) < 2 ^ 53)%Z ->
  displayStats d p =
    (inr tt, set_stats (stats_template (digits_of t) (digits_of u) (digits_of (Z.of_nat (length cd)))) p).
Proof.
  intros Hcd Ht Hu Ht' Hu' Hl. unfold displayStats. rewrite Hcd, Ht, Hu. cbn [to_string].
  rewrite !number_to_string_of_Z by lia. cbn. by rewrite number_to_string_of_Z by lia.
Qed.

(** Witness of C26: the answer of spec 8.5 writes 6, 5 and 5. *)
Lemma displayStats_decimal_witness :
  let d := mkPayload (VBool true) VUndef (VNum (of_Z 6)) (VNum (of_Z 5))
             (FArr scenario_words) (FArr scenario_words) in
  displayStats d initial_page =
    (inr tt, set_stats (stats_template (js "6") (js "5") (js "5")) initial_page).
Proof.
  cbv zeta. rewrite (displayStats_decimal _ scenario_words 6%Z 5%Z) by (reflexivity || lia || (vm_compute; reflexivity)).
  reflexivity.
Defined.
