(* ===== verification/Controller.v ===== *)
(** * [analyzeText] on the event loop

    [analyzeText] (lines 4-40 of [script.js]) is [async]: its body runs
    synchronously up to [await fetch(...)], resumes when the fetch settles,
    suspends again at [await response.json()] and resumes once more when the
    body is parsed.  Between these points the page keeps handling events, so
    several analyses may be in flight and settle in any order.

    A [World] is the page with the suspended invocations ([tasks], each
    waiting for its fetch or for its body).  [handle_event] runs one event
    to completion: the page loading ([DOMContentLoaded], lines 291-301),
    typing, a key press in the textarea, a click on the analyse button, a
    fetch settling, a body being parsed.  The server's answers are the
    events' parameters, so the step relation [step] covers every answer and
    every interleaving.

    The lemmas at the end compute the synchronous slices; the claims state
    what a submission and a settlement do to the page. *)

From stdpp Require Import base list numbers strings.
From Stdlib Require Import ZArith Lia SpecFloat.
From S2P Require Import Prelude JsString JsNumber JsValue Json Table Charts Page.

Local Open Scope dom_scope.

(** ** The answer of [/analyze] *)

(** What [response.json()] yields: a parse failure, [null], another
    non-object JSON value (number, string, boolean, array: every field reads
    as [undefined]), or an object. *)
Inductive Body := BodyInvalid | BodyNull | BodyOther | BodyObject (d : Payload).

(** How [fetch] settles: rejected (no response), or a response with its
    [ok] flag and its body. *)
Inductive FetchOutcome := FetchRejected | FetchResolved (ok : bool) (b : Body).

Definition blank_message : jsval := VStr (js "Please enter some text to analyze.").
Definition network_message : jsval :=
  VStr (js "Network error. Please check your connection and try again.").
Definition fallback_message : jsval := VStr (js "An error occurred while analyzing the text.").

Definition set_sent (l : list jsstr) (p : Page) : Page :=
  mkPage (textarea p) (placeholder p) (keydown_installed p) (loading p) (results p) (banners p)
    (stats_html p) (table_html p) (registry p) (barChart p) (pieChart p) (scrolls p) l.

(** [fetch('/analyze', { method: 'POST', ..., body })] puts the request on
    the wire before returning its promise. *)
Definition send (body : jsstr) : M unit := modify (fun p => set_sent (sent p ++ [body]) p).

(** ** The three slices of [analyzeText] *)

(** Lines 5-25, up to the first [await]: [Some text] when a request was
    sent, [None] when the guard returned early. *)
Definition analyze_start : M (option jsstr) :=
  raw <- gets textarea;;
  let text := trim raw in
  if str_truthy text then
    showLoading true;;
    hideResults;;
    hideError;;
    send (request_body text);;
    ret (Some text)
  else
    showError blank_message;;
    ret None.

(** Lines 29-33, run once [data] is known. *)
Definition handle_data (ok : bool) (b : Body) : M unit :=
  match b with
  | BodyInvalid => throw SyntaxError
  | BodyNull => throw TypeError
  | BodyOther => showError fallback_message
  | BodyObject d =>
      if ok && truthy (p_success d) then displayResults d
      else showError (js_or (p_error d) fallback_message)
  end.

(** [catch (error) { showError(...) } finally { showLoading(false) }]
    around what remains of the [try] block. *)
Definition settle (m : M unit) : M unit :=
  finally (try_catch m (fun _ => showError network_message)) (showLoading false).

(** ** The event loop *)

Inductive task := AwaitFetch | AwaitJson (ok : bool) (b : Body).

Record World := mkWorld { page : Page; tasks : list (nat * task); next_task : nat }.

Definition initial_world : World := mkWorld initial_page [] 0.

Inductive event :=
| EvLoaded
| EvInput (s : jsstr)
| EvKeyDown (key : jsstr) (ctrl : bool)
| EvClick
| EvFetch (id : nat) (o : FetchOutcome)
| EvJson (id : nat).

Definition run_page (m : M unit) (w : World) : World :=
  mkWorld (snd (m (page w))) (tasks w) (next_task w).

Definition set_textarea (s : jsstr) (p : Page) : Page :=
  mkPage s (placeholder p) (keydown_installed p) (loading p) (results p) (banners p)
    (stats_html p) (table_html p) (registry p) (barChart p) (pieChart p) (scrolls p) (sent p).

Definition placeholder_text : jsstr :=
  js "Paste or type your text here to analyze word frequencies..." ++ nl ++ nl ++
  js "Example: The quick brown fox jumps over the lazy dog. This is a sample text for testing the word frequency analyzer.".

(** The [DOMContentLoaded] listener (lines 291-301): install the key
    listener and set the placeholder. *)
Definition on_loaded (p : Page) : Page :=
  mkPage (textarea p) placeholder_text true (loading p) (results p) (banners p)
    (stats_html p) (table_html p) (registry p) (barChart p) (pieChart p) (scrolls p) (sent p).

(** A call of [analyzeText()]: its synchronous slice, and a new task when a
    request went out. *)
Definition analyzeText (w : World) : World :=
  match analyze_start (page w) with
  | (inr (Some _), p') => mkWorld p' (tasks w ++ [(next_task w, AwaitFetch)]) (S (next_task w))
  | (_, p') => mkWorld p' (tasks w) (next_task w)
  end.

(** The [keydown] listener (lines 293-297): [analyzeText()] when the key
    is Enter with Ctrl held, nothing otherwise. *)
Definition on_keydown (key : jsstr) (ctrl : bool) (w : World) : World :=
  if bool_decide (key = js "Enter") && ctrl then analyzeText w else w.

Fixpoint lookup_task (id : nat) (ts : list (nat * task)) : option task :=
  match ts with
  | [] => None
  | (i, t) :: ts' => if decide (i = id) then Some t else lookup_task id ts'
  end.

Definition find_task (id : nat) (w : World) : option task := lookup_task id (tasks w).

Definition drop_task (id : nat) (ts : list (nat * task)) : list (nat * task) :=
  filter (fun t => t.1 <> id) ts.

Definition replace_task (id : nat) (t : task) (ts : list (nat * task)) : list (nat * task) :=
  (fun x => if decide (x.1 = id) then (id, t) else x) <$> ts.

(** Run one event to completion; [None] when the event cannot happen (a
    settlement for a task that is not waiting for it). *)
Definition handle_event (e : event) (w : World) : option World :=
  match e with
  | EvLoaded => Some (mkWorld (on_loaded (page w)) (tasks w) (next_task w))
  | EvInput s => Some (mkWorld (set_textarea s (page w)) (tasks w) (next_task w))
  | EvKeyDown key ctrl =>
      (* the listener exists once [DOMContentLoaded] has run *)
      if keydown_installed (page w) then Some (on_keydown key ctrl w) else Some w
  | EvClick => Some (analyzeText w)
  | EvFetch id o =>
      match find_task id w with
      | Some AwaitFetch =>
          match o with
          | FetchRejected =>
              Some (run_page (settle (throw TypeError))
                      (mkWorld (page w) (drop_task id (tasks w)) (next_task w)))
          | FetchResolved ok b =>
              Some (mkWorld (page w) (replace_task id (AwaitJson ok b) (tasks w)) (next_task w))
          end
      | _ => None
      end
  | EvJson id =>
      match find_task id w with
      | Some (AwaitJson ok b) =>
          Some (run_page (settle (handle_data ok b))
                  (mkWorld (page w) (drop_task id (tasks w)) (next_task w)))
      | _ => None
      end
  end.

Inductive step : World -> World -> Prop :=
| step_event e w w' : handle_event e w = Some w' -> step w w'.

Definition reachable (w : World) : Prop := initial_world =[ step ]=>* w.

(** Run a sequence of events; [None] if one of them cannot happen. *)
Fixpoint run (w : World) (es : list event) : option World :=
  match es with
  | [] => Some w
  | e :: es' => handle_event e w ≫= fun w' => run w' es'
  end.

(** ** Lemmas on the slices *)

Lemma analyze_start_blank p :
  str_truthy (trim (textarea p)) = false ->
  analyze_start p = (inr None, set_banners (error_html blank_message :: tail (banners p))
                                            (set_banners (tail (banners p)) p)).
Proof. intros H. unfold analyze_start, bind, gets. simpl. by rewrite H. Qed.

Lemma analyze_start_send p :
  str_truthy (trim (textarea p)) = true ->
  analyze_start p =
    (inr (Some (trim (textarea p))),
     set_sent (sent p ++ [request_body (trim (textarea p))])
       (set_banners (tail (banners p)) (set_results DisplayNone (set_loading DisplayBlock p)))).
Proof. intros H. unfold analyze_start, bind, gets. simpl. by rewrite H. Qed.

(** The page after [catch { showError(network) } finally { showLoading(false) }]. *)
Lemma settle_page m p :
  snd (settle m p) =
  set_loading DisplayNone
    (match m p with
     | (inl _, p') => snd (showError network_message p')
     | (inr _, p') => p'
     end).
Proof. unfold settle, finally, try_catch. by destruct (m p) as [[e|[]] p']. Qed.

(** ** Claims *)

(** C4: a submission whose text is only white space (spec 8.1, 8.6) sends
    no request and starts no task, leaves the loading indicator and the
    results panel as they were, and shows the validation message as the only
    new banner. *)
Theorem analyzeText_blank w :
  Forall (fun c => is_ws c) (textarea (page w)) ->
  sent (page (analyzeText w)) = sent (page w) /\ tasks (analyzeText w) = tasks w /\
  loading (page (analyzeText w)) = loading (page w) /\
  results (page (analyzeText w)) = results (page w) /\
  banners (page (analyzeText w)) = error_html blank_message :: tail (banners (page w)).
Proof.
  intros Hblank%trim_nil_iff_blank. unfold analyzeText.
  assert (str_truthy (trim (textarea (page w))) = false) as Hf by (by rewrite Hblank).
 
  rewrite (analyze_start_blank _ Hf). done.
Qed.

(** C5: a submission with non-blank text shows the loading indicator,
    hides the results and the current banner, sends exactly one request
    whose body is [JSON.stringify] of the trimmed text, and leaves one new
    task waiting for the fetch. *)
Theorem analyzeText_sends w :
  str_truthy (trim (textarea (page w))) = true ->
  sent (page (analyzeText w)) = sent (page w) ++ [request_body (trim (textarea (page w)))] /\
  tasks (analyzeText w) = tasks w ++ [(next_task w, AwaitFetch)] /\
  loading (page (analyzeText w)) = DisplayBlock /\
  results (page (analyzeText w)) = DisplayNone /\
  banners (page (analyzeText w)) = tail (banners (page w)).
Proof.
  intros Hs. unfold analyzeText. rewrite (analyze_start_send _ Hs). done.
Qed.

(** C6: every settlement of an analysis, a rejected fetch or a parsed (or
    unparsable) body, hides the loading indicator, whatever the answer and
    whatever else is pending ([finally { showLoading(false) }]). *)
Theorem settlement_hides_loading w w' id :
  handle_event (EvFetch id FetchRejected) w = Some w' \/ handle_event (EvJson id) w = Some w' ->
  loading (page w') = DisplayNone.
Proof.
  intros [H|H]; simpl in H.
  - destruct (find_task id w) as [[|]|]; try done. injection H as <-.
    unfold run_page. cbn [page]. by rewrite settle_page.
  - destruct (find_task id w) as [[|ok b]|]; try done. injection H as <-.
    unfold run_page. cbn [page]. by rewrite settle_page.
Qed.

(** C9: [analyzeText] refines the validation contract of lines 6-12 stated
    on the abstract [TrimString]: if [t] is the text between the blank
    prefix and the blank suffix of the textarea, the call sends the one
    request [JSON.stringify({text: t})] and starts one task when [t] is not
    empty, and sends nothing and starts nothing when it is. *)
Theorem analyzeText_trim_contract w t :
  trim_spec (textarea (page w)) t ->
  sent (page (analyzeText w)) =
    sent (page w) ++ (if decide (t = []) then [] else [request_body t]) /\
  tasks (analyzeText w) =
    tasks w ++ (if decide (t = []) then [] else [(next_task w, AwaitFetch)]).
Proof.
  intros Ht%trim_spec_unique. unfold analyzeText.
  destruct (str_truthy (trim (textarea (page w)))) eqn:E.
  - rewrite (analyze_start_send _ E), Ht. rewrite Ht in E.
    destruct t; [done|]. by rewrite decide_False.
  - rewrite (analyze_start_blank _ E). rewrite Ht in E.
    destruct t; [|done]. simpl. by rewrite !app_nil_r.
Qed.

(** Witness of C9: the textarea holds [" cat "]; the request carries [cat]. *)
Lemma analyzeText_trim_contract_witness :
  let w := mkWorld (set_textarea (js " cat ") initial_page) [] 0 in
  trim_spec (textarea (page w)) (js "cat") /\
  sent (page (analyzeText w)) = [request_body (js "cat")] /\
  tasks (analyzeText w) = [(0%nat, AwaitFetch)].
Proof.
  intros w.
  assert (trim_spec (textarea (page w)) (js "cat")) as Ht
    by (exists [32%Z], [32%Z]; split; [reflexivity|]; split; [repeat constructor|];
        split; [repeat constructor|]; vm_compute; split; reflexivity).
  split; [exact Ht|]. destruct (analyzeText_trim_contract w _ Ht) as [H1 H2].
  rewrite H1, H2. split; reflexivity.
Defined.
