(* ===== verification/Invariants.v ===== *)
(** * Invariants of the page

    Three properties hold in every reachable world:
    - at most one [.error] banner is on the page ([banners_ok]): [showError]
      always removes one before inserting one;
    - the charting library's registry agrees with the globals [barChart]
      and [pieChart] ([charts_ok]): every live chart is the one its canvas's
      global points to, and chart ids are distinct.  Hence a canvas never
      holds two live charts and [new Chart] never meets a busy canvas;
    - the globals hold ids the registry has issued ([handles_ok]), so a
      destroyed chart's id left in [pieChart] never names the bar chart
      just created.
    With them, [displayCharts] leaves exactly the two new charts live.
    Over worlds, the loading indicator shows only while an analysis is
    pending ([loading_ok]).

    The proof goes operation by operation: [preserves m] says that [m]
    keeps [page_inv]; the lemmas for [bind], [modify], [try_catch] and
    [finally] compose, and the hint database [wfv] assembles the handlers'
    proofs. *)

From stdpp Require Import base list numbers strings.
From Stdlib Require Import ZArith Lia SpecFloat.
From S2P Require Import Prelude JsString JsNumber JsValue Json Table Charts Page Controller.

Local Open Scope dom_scope.

Definition banners_ok (p : Page) : Prop := length (banners p) <= 1.

Definition charts_ok (p : Page) : Prop :=
  Forall (fun c => chart_handle (inst_canvas c) p = Some (inst_id c) /\
                   inst_id c < next_id (registry p)) (live (registry p)) /\
  NoDup (inst_id <$> live (registry p)).

(** Both globals hold ids the registry has already issued (a destroyed
    chart's id stays in its global). *)
Definition handles_ok (p : Page) : Prop :=
  forall cv id, chart_handle cv p = Some id -> id < next_id (registry p).

Definition page_inv (p : Page) : Prop := banners_ok p /\ charts_ok p /\ handles_ok p.

Definition world_inv (w : World) : Prop := page_inv (page w).

Definition preserves {A} (m : M A) : Prop := forall p, page_inv p -> page_inv (snd (m p)).

(** ** Composition *)

Lemma preserves_ret {A} (a : A) : preserves (ret a).
Proof. by intros p. Qed.

Lemma preserves_throw {A} e : preserves (@throw A e).
Proof. by intros p. Qed.

Lemma preserves_bind {A B} (m : M A) (k : A -> M B) :
  preserves m -> (forall a, preserves (k a)) -> preserves (bind m k).
Proof.
  intros Hm Hk p Hp. unfold bind. specialize (Hm p Hp).
  destruct (m p) as [[e|a] p']; simpl in *; [done|by apply Hk].
Qed.

Lemma preserves_try_catch {A} (m : M A) h :
  preserves m -> (forall e, preserves (h e)) -> preserves (try_catch m h).
Proof.
  intros Hm Hh p Hp. unfold try_catch. specialize (Hm p Hp).
  destruct (m p) as [[e|a] p']; simpl in *; [by apply Hh|done].
Qed.

Lemma preserves_finally {A} (m : M A) f :
  preserves m -> preserves f -> preserves (finally m f).
Proof.
  intros Hm Hf p Hp. unfold finally. specialize (Hm p Hp).
  destruct (m p) as [r p']; simpl in *. by apply Hf.
Qed.

Lemma preserves_gets {A} (f : Page -> A) : preserves (gets f).
Proof. by intros p. Qed.

(** A page update that leaves the banners, the registry and both globals
    alone keeps the invariant. *)
Lemma page_inv_frame (f : Page -> Page) p :
  (banners (f p) = banners p /\ registry (f p) = registry p /\
   barChart (f p) = barChart p /\ pieChart (f p) = pieChart p) ->
  page_inv p -> page_inv (f p).
Proof.
  intros (E1 & E2 & E3 & E4) [Hb [[Hc Hn] Hh]].
  split; [by unfold banners_ok; rewrite E1|split; [split|]].
  - rewrite E2. eapply Forall_impl; [exact Hc|]. intros c. simpl.
    destruct (inst_canvas c); simpl; by rewrite ?E3, ?E4.
  - by rewrite E2.
  - intros cv id. rewrite E2.
    destruct cv; simpl; rewrite ?E3, ?E4; [apply (Hh BarCanvas)|apply (Hh PieCanvas)].
Qed.

Lemma preserves_modify_frame (f : Page -> Page) :
  (forall p, banners (f p) = banners p /\ registry (f p) = registry p /\
             barChart (f p) = barChart p /\ pieChart (f p) = pieChart p) ->
  preserves (modify f).
Proof. intros Hf p. apply page_inv_frame, Hf. Qed.

Ltac frame := apply preserves_modify_frame; intros; simpl; auto.

Lemma preserves_showLoading b : preserves (showLoading b).
Proof. frame. Qed.

Lemma preserves_showResults : preserves showResults.
Proof. frame. Qed.

Lemma preserves_hideResults : preserves hideResults.
Proof. frame. Qed.

Lemma preserves_send body : preserves (send body).
Proof. frame. Qed.

Lemma charts_ok_banners p bs : charts_ok p -> charts_ok (set_banners bs p).
Proof. by unfold charts_ok. Qed.

Lemma handles_ok_banners p bs : handles_ok p -> handles_ok (set_banners bs p).
Proof. intros Hh [] id; [exact (Hh BarCanvas id)|exact (Hh PieCanvas id)]. Qed.

Lemma preserves_hideError : preserves hideError.
Proof.
  intros p [Hb [Hc Hh]].
  split; [|split; [by apply charts_ok_banners|by apply handles_ok_banners]].
  unfold banners_ok in *. simpl. destruct (banners p); simpl in *; lia.
Qed.

Lemma preserves_showError m : preserves (showError m).
Proof.
  intros p [Hb [Hc Hh]]. split; [|split].
  - unfold banners_ok in *. simpl. destruct (banners p) as [|? [|? ?]]; simpl in *; lia.
  - simpl. by apply charts_ok_banners, charts_ok_banners.
  - simpl. by apply handles_ok_banners, handles_ok_banners.
Qed.

#[export] Hint Resolve preserves_ret preserves_throw preserves_bind preserves_try_catch
  preserves_finally preserves_gets preserves_showLoading preserves_showResults
  preserves_hideResults preserves_send preserves_hideError preserves_showError : wfv.

(** ** The chart registry *)

Definition canvas_free (cv : canvas) (p : Page) : Prop :=
  Forall (fun c => inst_canvas c <> cv) (live (registry p)).

Lemma chart_handle_set_same cv h r p : chart_handle cv (set_handle cv h r p) = h.
Proof. by destruct cv. Qed.

Lemma chart_handle_set_other cv cv' h r p :
  cv' <> cv -> chart_handle cv' (set_handle cv h r p) = chart_handle cv' p.
Proof. destruct cv, cv'; simpl; congruence. Qed.

Lemma registry_set_handle cv h r p : registry (set_handle cv h r p) = r.
Proof. by destruct cv. Qed.

Lemma banners_set_handle cv h r p : banners (set_handle cv h r p) = banners p.
Proof. by destruct cv. Qed.

#[export] Hint Rewrite chart_handle_set_same registry_set_handle banners_set_handle : wfv.

Lemma NoDup_fmap_filter {A B} (f : A -> B) (P : A -> Prop) `{forall x, Decision (P x)} l :
  NoDup (f <$> l) -> NoDup (f <$> filter P l).
Proof.
  intros Hnd. eapply sublist_NoDup; [exact Hnd|]. apply fmap_sublist, sublist_filter.
Qed.

(** [if (chart) chart.destroy()] leaves the canvas free and the invariant. *)
Lemma destroy_handle_spec cv p :
  charts_ok p ->
  let p' := snd (destroy_handle cv p) in
  charts_ok p' /\ canvas_free cv p' /\ banners p' = banners p /\
  (forall cv', chart_handle cv' p' = chart_handle cv' p).
Proof.
  intros [Hc Hnd]. simpl. unfold canvas_free.
  destruct (chart_handle cv p) as [id|] eqn:Eh.
  - split; [|split; [|split; [by rewrite banners_set_handle|]]].
    + unfold charts_ok. rewrite registry_set_handle. split.
      * apply Forall_forall. intros c [_ Hin]%list_elem_of_filter.
        rewrite Forall_forall in Hc. destruct (Hc c Hin) as [Hcv Hlt]. split; [|done].
        destruct (decide (inst_canvas c = cv)) as [Heq|Hne].
        -- rewrite Heq in Hcv |- *. rewrite chart_handle_set_same. congruence.
        -- by rewrite chart_handle_set_other.
      * simpl. by apply NoDup_fmap_filter.
    + rewrite registry_set_handle. simpl. apply Forall_forall. intros c Hin Hcv.
      apply list_elem_of_filter in Hin as [Hne Hin].
      rewrite Forall_forall in Hc. destruct (Hc c Hin) as [Hh _].
      rewrite Hcv in Hh. congruence.
    + intros cv'. destruct (decide (cv' = cv)) as [->|Hne].
      * by rewrite chart_handle_set_same.
      * by rewrite chart_handle_set_other.
  - split; [done|split; [|done]].
    apply Forall_forall. intros c Hin Hcv.
    rewrite Forall_forall in Hc. destruct (Hc c Hin) as [Hh _].
    rewrite Hcv in Hh. congruence.
Qed.

Lemma canvas_free_not_in_use cv p : canvas_free cv p -> canvas_in_use (registry p) cv = false.
Proof.
  intros Hfree. unfold canvas_free in Hfree. apply not_true_is_false. unfold canvas_in_use. rewrite existsb_exists.
  intros (c & Hin & Hcv%bool_decide_eq_true). apply list_elem_of_In in Hin.
  rewrite Forall_forall in Hfree. by apply (Hfree c).
Qed.

(** On a free canvas [new Chart] succeeds: the chart takes the next id and
    the global is assigned. *)
Lemma create_chart_free cv cfg p :
  canvas_free cv p ->
  create_chart cv cfg p =
    (inr tt, set_handle cv (Some (next_id (registry p)))
               (mkRegistry (mkInst (next_id (registry p)) cv cfg :: live (registry p))
                           (S (next_id (registry p)))) p).
Proof. intros Hf. unfold create_chart, new_chart. by rewrite canvas_free_not_in_use. Qed.

(** [chart = new Chart(ctx, config)] on a free canvas succeeds and keeps the
    invariant. *)
Lemma create_chart_spec cv cfg p :
  charts_ok p -> canvas_free cv p ->
  fst (create_chart cv cfg p) = inr tt /\
  charts_ok (snd (create_chart cv cfg p)) /\
  banners (snd (create_chart cv cfg p)) = banners p.
Proof.
  intros [Hc Hnd] Hfree. rewrite create_chart_free by done. unfold canvas_free in Hfree.
  unfold charts_ok. simpl. rewrite !registry_set_handle, !banners_set_handle.
  split; [done|split; [split|done]]; simpl.
  - constructor.
    + rewrite chart_handle_set_same, ?registry_set_handle. simpl. split; [done|lia].
    + rewrite Forall_forall in Hc, Hfree |- *. intros c Hin.
      destruct (Hc c Hin) as [Hh Hlt]. rewrite ?registry_set_handle. simpl. split; [|lia].
      rewrite chart_handle_set_other; [done|]. by apply Hfree.
  - constructor; [|done]. intros Hin.
    apply list_elem_of_fmap in Hin as (c & Heq & Hin).
    rewrite Forall_forall in Hc. destruct (Hc c Hin) as [_ Hlt]. lia.
Qed.

Lemma destroy_then_create cv cfg p :
  charts_ok p ->
  let p1 := snd (destroy_handle cv p) in
  fst (create_chart cv cfg p1) = inr tt /\ charts_ok (snd (create_chart cv cfg p1)) /\
  banners (snd (create_chart cv cfg p1)) = banners p.
Proof.
  intros Hc. cbv zeta. destruct (destroy_handle_spec cv p Hc) as (Hc1 & Hf & Hb & _).
  destruct (create_chart_spec cv cfg _ Hc1 Hf) as (H1 & H2 & H3).
  split; [done|split; [done|]]. by rewrite H3.
Qed.

Lemma bind_ok {A B} (m : M A) (k : A -> M B) p a :
  fst (m p) = inr a -> bind m k p = k a (snd (m p)).
Proof. unfold bind. destruct (m p) as [[e|a'] p']; simpl; congruence. Qed.

(** [displayCharts] on an array replaces both charts and never meets a busy
    canvas. *)
Lemma displayCharts_spec cd p :
  charts_ok p ->
  fst (displayCharts (FArr cd) p) = inr tt /\ charts_ok (snd (displayCharts (FArr cd) p)) /\
  banners (snd (displayCharts (FArr cd) p)) = banners p.
Proof.
  intros Hc. unfold displayCharts.
  rewrite (bind_ok _ _ p cd) by done. simpl snd.
  rewrite (bind_ok _ _ p tt) by done.
  destruct (destroy_then_create BarCanvas (bar_config cd) p Hc) as (H1 & H2 & H3).
  rewrite (bind_ok _ _ _ tt) by done.
  set (p2 := snd (create_chart _ _ _)) in *.
  rewrite (bind_ok _ _ p2 tt) by done.
  destruct (destroy_then_create PieCanvas (pie_config cd) p2 H2) as (H4 & H5 & H6).
  split; [done|split; [done|]]. by rewrite H6.
Qed.

Lemma destroy_handle_next cv p :
  next_id (registry (snd (destroy_handle cv p))) = next_id (registry p).
Proof. simpl. by destruct (chart_handle cv p); [rewrite registry_set_handle|]. Qed.

Lemma destroy_handle_live cv p :
  live (registry (snd (destroy_handle cv p))) =
  match chart_handle cv p with
  | Some id => filter (fun c => inst_id c <> id) (live (registry p))
  | None => live (registry p)
  end.
Proof. simpl. by destruct (chart_handle cv p); [rewrite registry_set_handle|]. Qed.

Lemma handles_ok_destroy cv p : charts_ok p -> handles_ok p -> handles_ok (snd (destroy_handle cv p)).
Proof.
  intros Hc Hh cv' id. destruct (destroy_handle_spec cv p Hc) as (_ & _ & _ & E).
  rewrite E, destroy_handle_next. apply Hh.
Qed.

Lemma handles_ok_create cv cfg p : canvas_free cv p -> handles_ok p -> handles_ok (snd (create_chart cv cfg p)).
Proof.
  intros Hf Hh cv' id. rewrite create_chart_free by done. simpl. rewrite registry_set_handle. simpl.
  destruct (decide (cv' = cv)) as [->|Hne].
  - rewrite chart_handle_set_same. intros [= <-]. lia.
  - rewrite chart_handle_set_other by done. intros H%Hh. lia.
Qed.

(** [displayCharts] on an array is its four page updates in sequence. *)
Lemma displayCharts_pages cd p :
  charts_ok p ->
  let p1 := snd (destroy_handle BarCanvas p) in
  let p2 := snd (create_chart BarCanvas (bar_config cd) p1) in
  let p3 := snd (destroy_handle PieCanvas p2) in
  displayCharts (FArr cd) p = create_chart PieCanvas (pie_config cd) p3.
Proof.
  intros Hc. cbv zeta. unfold displayCharts.
  rewrite (bind_ok _ _ p cd) by done. simpl snd.
  rewrite (bind_ok _ _ p tt) by done.
  destruct (destroy_then_create BarCanvas (bar_config cd) p Hc) as (H1 & _ & _).
  rewrite (bind_ok _ _ _ tt) by done. by rewrite (bind_ok _ _ _ tt).
Qed.

Lemma handles_ok_displayCharts cd p :
  charts_ok p -> handles_ok p -> handles_ok (snd (displayCharts (FArr cd) p)).
Proof.
  intros Hc Hh. rewrite displayCharts_pages by done. cbv zeta.
  destruct (destroy_handle_spec BarCanvas p Hc) as (Hc1 & Hf1 & _).
  destruct (create_chart_spec BarCanvas (bar_config cd) _ Hc1 Hf1) as (_ & Hc2 & _).
  destruct (destroy_handle_spec PieCanvas _ Hc2) as (Hc3 & Hf3 & _).
  apply handles_ok_create; [done|]. apply handles_ok_destroy; [done|].
  apply handles_ok_create; [done|]. by apply handles_ok_destroy.
Qed.

Lemma no_canvas_nil l :
  Forall (fun c => inst_canvas c <> BarCanvas) l ->
  Forall (fun c => inst_canvas c <> PieCanvas) l -> l = [].
Proof.
  destruct l as [|c l]; [done|]. intros [Hb _]%Forall_cons [Hp _]%Forall_cons.
  by destruct (inst_canvas c).
Qed.

Lemma Forall_filter_sub {A} (P : A -> Prop) (Q : A -> Prop) `{forall x, Decision (Q x)} l :
  Forall P l -> Forall P (filter Q l).
Proof. rewrite !Forall_forall. intros HP x [_ Hx]%list_elem_of_filter. by apply HP. Qed.

(** After [displayCharts], exactly the two new charts are live: every
    earlier chart has been destroyed. *)
Lemma displayCharts_live cd p :
  charts_ok p -> handles_ok p ->
  live (registry (snd (displayCharts (FArr cd) p))) =
    [mkInst (S (next_id (registry p))) PieCanvas (pie_config cd);
     mkInst (next_id (registry p)) BarCanvas (bar_config cd)].
Proof.
  intros Hc Hh. rewrite displayCharts_pages by done. cbv zeta.
  destruct (destroy_handle_spec BarCanvas p Hc) as (Hc1 & Hf1 & _ & E1).
  pose proof (destroy_handle_next BarCanvas p) as N1.
  set (p1 := snd (destroy_handle BarCanvas p)) in *.
  destruct (create_chart_spec BarCanvas (bar_config cd) p1 Hc1 Hf1) as (_ & Hc2 & _).
  rewrite (create_chart_free BarCanvas) in Hc2 |- * by done. cbn [snd] in Hc2 |- *.
  set (p2 := set_handle BarCanvas _ _ p1) in *.
  destruct (destroy_handle_spec PieCanvas p2 Hc2) as (Hc3 & Hf3 & _ & _).
  rewrite create_chart_free by done. cbn [snd]. rewrite registry_set_handle. cbn [live].
  rewrite destroy_handle_next. subst p2. rewrite registry_set_handle. cbn [next_id].
  rewrite N1. f_equal. unfold canvas_free in Hf3. rewrite destroy_handle_live in Hf3 |- *.
  subst p1. rewrite chart_handle_set_other, registry_set_handle by done.
  rewrite chart_handle_set_other, registry_set_handle in Hf3 by done. cbn [live] in Hf3 |- *.
  rewrite E1 in Hf3 |- *. rewrite ?N1 in Hf3. rewrite ?N1. unfold canvas_free in Hf1.
  destruct (chart_handle PieCanvas p) as [b|] eqn:Eb.
  - assert (b < next_id (registry p)) by (by apply (Hh PieCanvas)).
    rewrite filter_cons_True in Hf3 |- * by (simpl; lia).
    apply Forall_cons in Hf3 as [_ Hf3]. f_equal.
    by apply no_canvas_nil; [apply Forall_filter_sub|].
  - apply Forall_cons in Hf3 as [_ Hf3]. f_equal. by apply no_canvas_nil.
Qed.

Lemma preserves_displayCharts f : preserves (displayCharts f).
Proof.
  intros p [Hb [Hc Hh]]. destruct f as [|cd]; [done|].
  destruct (displayCharts_spec cd p Hc) as (_ & H2 & H3).
  split; [by unfold banners_ok; rewrite H3|split; [done|by apply handles_ok_displayCharts]].
Qed.

Lemma preserves_need_array f : preserves (need_array f).
Proof. destruct f; [apply preserves_throw|apply preserves_ret]. Qed.

Lemma preserves_displayStats d : preserves (displayStats d).
Proof. unfold displayStats. apply preserves_bind; [apply preserves_need_array|]. intros. frame. Qed.

Lemma preserves_displayTable f : preserves (displayTable f).
Proof. unfold displayTable. apply preserves_bind; [apply preserves_need_array|]. intros. frame. Qed.

Lemma preserves_scrollIntoView : preserves scrollIntoView.
Proof. frame. Qed.

#[export] Hint Resolve preserves_displayCharts preserves_need_array preserves_displayStats
  preserves_displayTable preserves_scrollIntoView : wfv.

Lemma preserves_displayResults d : preserves (displayResults d).
Proof. unfold displayResults. eauto 10 with wfv. Qed.

Lemma preserves_analyze_start : preserves analyze_start.
Proof.
  unfold analyze_start. apply preserves_bind; [apply preserves_gets|].
  intros raw. destruct (str_truthy (trim raw)); eauto 10 with wfv.
Qed.

Lemma preserves_handle_data ok b : preserves (handle_data ok b).
Proof.
  destruct b as [| | |d]; simpl; repeat case_match; auto using preserves_displayResults with wfv.
Qed.

Lemma preserves_settle m : preserves m -> preserves (settle m).
Proof. intros Hm. unfold settle. auto with wfv. Qed.

#[export] Hint Resolve preserves_displayResults preserves_analyze_start
  preserves_handle_data preserves_settle : wfv.

(** ** Every event keeps the invariant *)

Lemma page_analyzeText w : page (analyzeText w) = snd (analyze_start (page w)).
Proof. unfold analyzeText. by destruct (analyze_start (page w)) as [[?|[?|]] ?]. Qed.

Lemma analyzeText_inv w : world_inv w -> world_inv (analyzeText w).
Proof. unfold world_inv. rewrite page_analyzeText. apply preserves_analyze_start. Qed.

Lemma handle_event_inv e w w' : handle_event e w = Some w' -> world_inv w -> world_inv w'.
Proof.
  unfold world_inv. destruct e as [| s | key ctrl | | id o | id]; simpl; intros H Hw.
  - injection H as <-. simpl. apply page_inv_frame; [simpl; auto|done].
  - injection H as <-. simpl. apply page_inv_frame; [simpl; auto|done].
  - destruct (keydown_installed _); injection H as <-; [|done].
    unfold on_keydown. destruct (_ && _); [by apply analyzeText_inv|done].
  - injection H as <-. by apply analyzeText_inv.
  - destruct (find_task id w) as [[|ok b]|]; [|done|done].
    destruct o; injection H as <-; unfold run_page; cbn [page]; [|done].
    apply preserves_settle; [apply preserves_throw|done].
  - destruct (find_task id w) as [[|ok b]|]; [done| |done].
    injection H as <-. unfold run_page; cbn [page].
    apply preserves_settle; [apply preserves_handle_data|done].
Qed.

Lemma step_inv w w' : step w w' -> world_inv w -> world_inv w'.
Proof. intros [e ? ? H]. by apply handle_event_inv with e. Qed.

Lemma initial_inv : world_inv initial_world.
Proof. split; [cbv; lia|split; [split; constructor|by intros []]]. Qed.

Lemma reachable_inv w : reachable w -> world_inv w.
Proof. intros H. eapply star_invariant; [exact step_inv|exact H|exact initial_inv]. Qed.

Lemma NoDup_all_equal {A} (l : list A) x : NoDup l -> Forall (fun y => y = x) l -> length l <= 1.
Proof.
  destruct l as [|a [|b l]]; simpl; [lia|lia|].
  intros Hnd Hall. apply Forall_cons in Hall as [-> [-> _]%Forall_cons].
  apply NoDup_cons in Hnd as [Hn _]. exfalso. apply Hn. left.
Qed.

Lemma charts_ok_one_per_canvas p cv :
  charts_ok p -> length (filter (fun c => inst_canvas c = cv) (live (registry p))) <= 1.
Proof.
  intros [Hc Hnd]. rewrite <- (length_fmap inst_id).
  destruct (chart_handle cv p) as [h|] eqn:Eh.
  - apply (NoDup_all_equal _ h).
    + by apply NoDup_fmap_filter.
    + apply Forall_forall. intros i (c & -> & [Hcv Hin]%list_elem_of_filter)%list_elem_of_fmap.
      rewrite Forall_forall in Hc. destruct (Hc c Hin) as [Hh _]. rewrite Hcv in Hh. congruence.
  - replace (filter _ _) with (@nil ChartInst); [simpl; lia|].
    symmetry. apply filter_Forall_not. eapply Forall_impl; [exact Hc|].
    intros c [Hh _] Hcv. rewrite Hcv in Hh. congruence.
Qed.

(** ** The loading indicator *)

(** The indicator shows only while some analysis is pending. *)
Definition loading_ok (w : World) : Prop := loading (page w) = DisplayBlock -> tasks w <> [].

Lemma loading_showError m p : loading (snd (showError m p)) = loading p.
Proof. done. Qed.

(** A call of [analyzeText] that starts no analysis leaves the indicator
    alone; one that starts one adds a task. *)
Lemma analyzeText_loading w :
  (loading (page (analyzeText w)) = loading (page w) /\ tasks (analyzeText w) = tasks w) \/
  tasks (analyzeText w) = tasks w ++ [(next_task w, AwaitFetch)].
Proof.
  unfold analyzeText, analyze_start, bind, gets. cbn.
  destruct (str_truthy (trim (textarea (page w)))); cbn; [right|left]; done.
Qed.

Lemma loading_ok_analyzeText w : loading_ok w -> loading_ok (analyzeText w).
Proof.
  intros Hw. destruct (analyzeText_loading w) as [[E1 E2]|E].
  - unfold loading_ok in *. rewrite E1, E2. exact Hw.
  - intros _. rewrite E. by destruct (tasks w).
Qed.

Lemma loading_ok_settle m w : loading_ok (run_page (settle m) w).
Proof. unfold loading_ok, run_page. cbn [page]. by rewrite settle_page. Qed.

Lemma replace_task_nil n t ts : replace_task n t ts = [] -> ts = [].
Proof. by destruct ts. Qed.

Lemma loading_ok_event e w w' : handle_event e w = Some w' -> loading_ok w -> loading_ok w'.
Proof.
  intros H Hw. destruct e as [| s | key ctrl | | id o | id]; simpl in H.
  - by injection H as <-.
  - by injection H as <-.
  - destruct (keydown_installed _); injection H as <-; [|done].
    unfold on_keydown. destruct (_ && _); [by apply loading_ok_analyzeText|done].
  - injection H as <-. by apply loading_ok_analyzeText.
  - destruct (find_task id w) as [[|]|]; [|done|done]. destruct o; injection H as <-.
    + apply loading_ok_settle.
    + intros Hl Ht. apply replace_task_nil in Ht. by apply Hw.
  - destruct (find_task id w) as [[|ok b]|]; [done| |done]. injection H as <-.
    apply loading_ok_settle.
Qed.

(** ** Claims *)

(** C2: in every reachable state of the page at most one error banner is
    shown: [showError] removes the first [.error] element before inserting
    its own, and no other code inserts one. *)
Theorem reachable_one_banner w : reachable w -> banners_ok (page w).
Proof. intros H. apply (reachable_inv w H). Qed.

(** C3: in every reachable state every live chart is the one its canvas's
    global ([barChart] or [pieChart]) holds, with distinct ids, so each
    canvas holds at most one live chart; and [displayCharts] on any chart data completes without the charting
    library refusing a busy canvas: the [destroy()] before each
    [new Chart(...)] always releases the canvas. *)
Theorem reachable_charts_safe w :
  reachable w -> charts_ok (page w) /\
  (forall cv, length (filter (fun c => inst_canvas c = cv) (live (registry (page w)))) <= 1) /\
  (forall cd, fst (displayCharts (FArr cd) (page w)) = inr tt).
Proof.
  intros H. destruct (reachable_inv w H) as [_ [Hc _]]. split; [done|split].
  - intros cv. by apply charts_ok_one_per_canvas.
  - intros cd. apply (displayCharts_spec cd _ Hc).
Qed.

(** Witness of C2: the page as served. *)
Lemma reachable_one_banner_witness :
  reachable initial_world /\ length (banners (page initial_world)) <= 1.
Proof. split; [constructor|apply reachable_one_banner; constructor]. Defined.

(** Witness of C3: the page as served. *)
Lemma reachable_charts_safe_witness :
  reachable initial_world /\
  fst (displayCharts (FArr [mkWordCount (js "a") 1%Z]) (page initial_world)) = inr tt.
Proof.
  split; [constructor|]. apply (reachable_charts_safe initial_world); constructor.
Defined.

(** C20: the resource rule of spec 4.3: from any reachable page,
    [displayCharts(chartData)] destroys every earlier chart and leaves
    exactly two live charts, held by [barChart] and [pieChart] under fresh
    ids: the bar chart and the doughnut chart built on [chartData] (its
    words as labels in the given order, its counts, the palette colours). *)
Theorem displayCharts_exactly_two w cd :
  reachable w ->
  let n := next_id (registry (page w)) in
  let p' := snd (displayCharts (FArr cd) (page w)) in
  live (registry p') = [mkInst (S n) PieCanvas (pie_config cd); mkInst n BarCanvas (bar_config cd)] /\
  barChart p' = Some n /\ pieChart p' = Some (S n).
Proof.
  intros H. cbv zeta. destruct (reachable_inv w H) as (_ & Hc & Hh).
  destruct (displayCharts_spec cd _ Hc) as (_ & [Hall _] & _).
  pose proof (displayCharts_live cd _ Hc Hh) as Hl. rewrite Hl in Hall.
  apply Forall_cons in Hall as [[Hp _] Hall]. apply Forall_cons in Hall as [[Hb _] _].
  split; [done|split; [exact Hb|exact Hp]].
Qed.

(** Witness of C20: the first rendering on the page as served, with the
    chart data of spec 8.5. *)
Lemma displayCharts_exactly_two_witness :
  reachable initial_world /\
  live (registry (snd (displayCharts (FArr scenario_words) (page initial_world)))) =
    [mkInst 1 PieCanvas (pie_config scenario_words); mkInst 0 BarCanvas (bar_config scenario_words)].
Proof.
  assert (reachable initial_world) as H by constructor.
  split; [done|]. pose proof (displayCharts_exactly_two initial_world scenario_words H) as Hx.
  cbv zeta in Hx. destruct Hx as [Hl _]. exact Hl.
Defined.

(** C28: in every reachable world the loading indicator shows only while
    some analysis is pending: whenever [#loading] is displayed, a request
    has been dispatched and not yet settled (the half of spec section 4.1's
    rule on [loading] that the code keeps; C13 shows the other half fails). *)
Theorem reachable_loading_pending w :
  reachable w -> loading (page w) = DisplayBlock -> tasks w <> [].
Proof.
  intros H. change (loading_ok w).
  apply (star_invariant step loading_ok) with initial_world; [|exact H|intros Hl; cbv in Hl; discriminate Hl].
  intros w1 w2 [e ? ? He]. by apply loading_ok_event with e.
Qed.
