(* ===== verification/Behaviour.v ===== *)
(** * What an analysis leaves on the page

    [view_of] abstracts the page to what spec section 4.1 promises the user:
    the results panel alone, or one error banner alone.  [code_view] is the
    view an analysis running alone ends in, as a function of the server's
    answer.  The refinement theorem runs [analyzeText] and its settlement
    events through [handle_event] and shows that the page ends in that view
    with the loading indicator hidden; the lemmas compute each handler's
    effect on the results panel and the banners ([keeps] frames the parts a
    handler does not touch).  [run_settle_events] computes the settlement
    of one analysis on any world; from it, the claims show what a success,
    a failure and an answer without [words_data] leave on a page that
    already held something, and that the states the spec rules out (both
    views at once, the indicator hidden during a request) are reached from
    every world of the right shape. *)

From stdpp Require Import base list numbers strings.
From Stdlib Require Import ZArith Lia SpecFloat.
From S2P Require Import Prelude JsString JsNumber JsValue Json Table Charts Page Controller Invariants.

Local Open Scope dom_scope.

(** ** What the user sees after an analysis *)

Inductive view := ViewResults | ViewError (html : jsstr).

(** The visible outcome, when exactly one of the two panels shows. *)
Definition view_of (p : Page) : option view :=
  match results p, banners p with
  | DisplayBlock, [] => Some ViewResults
  | DisplayNone, [b] => Some (ViewError b)
  | _, _ => None
  end.

(** The view an analysis running alone ends in, by the server's answer. *)
Definition code_view (o : FetchOutcome) : view :=
  match o with
  | FetchRejected => ViewError (error_html network_message)
  | FetchResolved ok b =>
      match b with
      | BodyInvalid | BodyNull => ViewError (error_html network_message)
      | BodyOther => ViewError (error_html fallback_message)
      | BodyObject d =>
          if ok && truthy (p_success d) then
            match p_chart_data d, p_words_data d with
            | FArr _, FArr _ => ViewResults
            | _, _ => ViewError (error_html network_message)
            end
          else ViewError (error_html (js_or (p_error d) fallback_message))
      end
  end.

(** The events that complete the analysis [n] once the user triggered it. *)
Definition settle_events (n : nat) (o : FetchOutcome) : list event :=
  match o with
  | FetchRejected => [EvFetch n o]
  | FetchResolved _ _ => [EvFetch n o; EvJson n]
  end.

(** What the rest of [analyzeText] runs under its [try] once the analysis
    settles: the rejected [await fetch] throws, a parsed body goes through
    lines 29-33. *)
Definition settled_body (o : FetchOutcome) : M unit :=
  match o with
  | FetchRejected => throw TypeError
  | FetchResolved ok b => handle_data ok b
  end.

(** ** Lemmas *)

Lemma run_app w es1 es2 :
  run w (es1 ++ es2) = run w es1 ≫= fun w' => run w' es2.
Proof.
  revert w. induction es1 as [|e es1 IH]; intros w; simpl; [done|].
  destruct (handle_event e w); simpl; [apply IH|done].
Qed.

Lemma run_star w es w' : run w es = Some w' -> w =[ step ]=>* w'.
Proof.
  revert w. induction es as [|e es IH]; intros w; simpl.
  - intros [= ->]. constructor.
  - destruct (handle_event e w) as [w1|] eqn:E; simpl; [|done].
    intros H. econstructor; [econstructor; exact E|]. by apply IH.
Qed.

Lemma run_reachable w es w' : reachable w -> run w es = Some w' -> reachable w'.
Proof. intros Hr Hrun. eapply star_trans; [exact Hr|]. by eapply run_star. Qed.

Lemma bind_err {A B} (m : M A) (k : A -> M B) p e :
  fst (m p) = inl e -> bind m k p = (inl e, snd (m p)).
Proof. unfold bind. destruct (m p) as [[e'|a] p']; simpl; congruence. Qed.

Lemma charts_ok_set_stats h p : charts_ok p -> charts_ok (set_stats h p).
Proof. by unfold charts_ok. Qed.

(** Without [chart_data], [displayStats] throws before writing anything. *)
Lemma displayResults_no_chart d p :
  p_chart_data d = FMissing -> displayResults d p = (inl TypeError, p).
Proof. intros Hcd. unfold displayResults, displayStats. by rewrite Hcd. Qed.

(** [m] does not change the part [g] of the page. *)
Definition keeps {A X} (g : Page -> X) (m : M A) : Prop := forall p, g (snd (m p)) = g p.

Lemma keeps_bind {A B X} (g : Page -> X) (m : M A) (k : A -> M B) :
  keeps g m -> (forall a, keeps g (k a)) -> keeps g (bind m k).
Proof.
  intros Hm Hk p. unfold bind. specialize (Hm p).
  destruct (m p) as [[e|a] p']; simpl in *; [done|]. by rewrite Hk.
Qed.

Lemma keeps_ret {A X} (g : Page -> X) (a : A) : keeps g (ret a).
Proof. by intros p. Qed.

Lemma keeps_throw {A X} (g : Page -> X) e : keeps g (@throw A e).
Proof. by intros p. Qed.

Lemma keeps_need_array {X} (g : Page -> X) f : keeps g (need_array f).
Proof. destruct f; [apply keeps_throw|apply keeps_ret]. Qed.

Lemma keeps_results_destroy cv : keeps results (destroy_handle cv).
Proof. intros p. unfold destroy_handle. simpl. by destruct (chart_handle cv p), cv. Qed.

Lemma keeps_results_create cv cfg : keeps results (create_chart cv cfg).
Proof. intros p. unfold create_chart. by destruct (new_chart _ _ _) as [[]|], cv. Qed.

#[export] Hint Resolve keeps_bind keeps_ret keeps_throw keeps_need_array
  keeps_results_destroy keeps_results_create : wfv.

Lemma keeps_results_displayCharts f : keeps results (displayCharts f).
Proof. unfold displayCharts. eauto 10 with wfv. Qed.

Lemma keeps_results_displayStats d : keeps results (displayStats d).
Proof. unfold displayStats. apply keeps_bind; [apply keeps_need_array|]. by intros a p. Qed.

(** The chart steps change only the registry and the two globals. *)
Lemma keeps_destroy {X} (g : Page -> X) cv :
  (forall r b c p, g (set_charts r b c p) = g p) -> keeps g (destroy_handle cv).
Proof.
  intros Hg p. unfold destroy_handle, modify. cbn [snd].
  destruct (chart_handle cv p); [|done]. destruct cv; apply Hg.
Qed.

Lemma keeps_create {X} (g : Page -> X) cv cfg :
  (forall r b c p, g (set_charts r b c p) = g p) -> keeps g (create_chart cv cfg).
Proof.
  intros Hg p. unfold create_chart.
  destruct (new_chart _ _ _) as [[]|]; [|done]. destruct cv; apply Hg.
Qed.

Lemma keeps_displayCharts {X} (g : Page -> X) f :
  (forall r b c p, g (set_charts r b c p) = g p) -> keeps g (displayCharts f).
Proof.
  intros Hg. unfold displayCharts.
  apply keeps_bind; [apply keeps_need_array|intros cd].
  pose proof (keeps_destroy g) as Hd. pose proof (keeps_create g) as Hn.
  repeat (apply keeps_bind; [by auto|intros _]). by auto.
Qed.

Lemma handles_ok_set_stats h p : handles_ok p -> handles_ok (set_stats h p).
Proof. intros Hh [] id; [exact (Hh BarCanvas id)|exact (Hh PieCanvas id)]. Qed.

(** With [chart_data] present, [displayStats] and [displayCharts] run and
    [displayResults] goes on with [displayTable] on the page they leave,
    where the results panel and the banners are as they were. *)
Lemma displayResults_prefix d cd p :
  p_chart_data d = FArr cd -> charts_ok p ->
  let p2 := snd (displayCharts (FArr cd) (snd (displayStats d p))) in
  displayResults d p = (displayTable (p_words_data d);; showResults;; scrollIntoView) p2 /\
  results p2 = results p /\ banners p2 = banners p /\ charts_ok p2.
Proof.
  intros Hcd Hc p2. unfold displayResults.
  assert (fst (displayStats d p) = inr tt) as Hs by (unfold displayStats; by rewrite Hcd).
  assert (charts_ok (snd (displayStats d p))) as Hc1
    by (unfold displayStats; rewrite Hcd; by apply charts_ok_set_stats).
  destruct (displayCharts_spec cd _ Hc1) as (H1 & H2 & H3).
  rewrite (bind_ok _ _ p tt Hs), Hcd, (bind_ok _ _ _ tt H1).
  split; [done|split; [|split; [|done]]]; subst p2.
  - by rewrite keeps_results_displayCharts, keeps_results_displayStats.
  - rewrite H3. unfold displayStats. by rewrite Hcd.
Qed.

(** [displayResults] with both arrays present shows the results panel and
    leaves the banners alone. *)
Lemma displayResults_full d cd ws p :
  p_chart_data d = FArr cd -> p_words_data d = FArr ws -> charts_ok p ->
  fst (displayResults d p) = inr tt /\ results (snd (displayResults d p)) = DisplayBlock /\
  banners (snd (displayResults d p)) = banners p.
Proof.
  intros Hcd Hws Hc. destruct (displayResults_prefix d cd p Hcd Hc) as (-> & _ & Hb & _).
  rewrite Hws. simpl. by rewrite Hb.
Qed.

(** Without [words_data], the stat cards and both charts are already
    replaced when [displayTable] throws. *)
Lemma displayResults_no_words d cd p :
  p_chart_data d = FArr cd -> p_words_data d = FMissing -> charts_ok p ->
  displayResults d p = (inl TypeError, snd (displayCharts (FArr cd) (snd (displayStats d p)))) /\
  results (snd (displayResults d p)) = results p /\ banners (snd (displayResults d p)) = banners p.
Proof.
  intros Hcd Hws Hc. destruct (displayResults_prefix d cd p Hcd Hc) as (-> & Hr & Hb & _).
  by rewrite Hws.
Qed.

(** After [displayStats] and [displayCharts] on [chart_data]: the three
    cards of this answer, the table as it was, and exactly its two charts. *)
Lemma displayResults_prefix_contents d cd p :
  p_chart_data d = FArr cd -> charts_ok p -> handles_ok p ->
  let p2 := snd (displayCharts (FArr cd) (snd (displayStats d p))) in
  stats_html p2 = stats_template (to_string (p_total_words d)) (to_string (p_unique_words d))
                    (number_to_string (of_Z (Z.of_nat (length cd)))) /\
  table_html p2 = table_html p /\
  live (registry p2) = [mkInst (S (next_id (registry p))) PieCanvas (pie_config cd);
                        mkInst (next_id (registry p)) BarCanvas (bar_config cd)].
Proof.
  intros Hcd Hc Hh p2. subst p2. unfold displayStats. rewrite Hcd. cbn [bind need_array ret modify snd].
  rewrite (keeps_displayCharts stats_html (FArr cd)), (keeps_displayCharts table_html (FArr cd))
    by done.
  rewrite displayCharts_live; [done|by apply charts_ok_set_stats|by apply handles_ok_set_stats].
Qed.

(** [displayResults] on a success with both arrays: what each part of the
    page holds afterwards. *)
Lemma displayResults_success d cd ws p :
  p_chart_data d = FArr cd -> p_words_data d = FArr ws -> charts_ok p -> handles_ok p ->
  let p' := snd (displayResults d p) in
  fst (displayResults d p) = inr tt /\ results p' = DisplayBlock /\ banners p' = banners p /\
  stats_html p' = stats_template (to_string (p_total_words d)) (to_string (p_unique_words d))
                    (number_to_string (of_Z (Z.of_nat (length cd)))) /\
  table_html p' = table_body_html ws /\
  live (registry p') = [mkInst (S (next_id (registry p))) PieCanvas (pie_config cd);
                        mkInst (next_id (registry p)) BarCanvas (bar_config cd)].
Proof.
  intros Hcd Hws Hc Hh p'. subst p'.
  pose proof (displayResults_prefix_contents d cd p Hcd Hc Hh) as (Hs & _ & Hl).
  destruct (displayResults_prefix d cd p Hcd Hc) as (-> & _ & Hb & _).
  set (p2 := snd (displayCharts _ _)) in *. rewrite Hws. cbn. by rewrite Hb, Hs, Hl.
Qed.

(** ** One event at a time *)

Lemma run_cons e es w : run w (e :: es) = handle_event e w ≫= fun w' => run w' es.
Proof. done. Qed.

Lemma handle_fetch_rejected w n :
  find_task n w = Some AwaitFetch ->
  handle_event (EvFetch n FetchRejected) w =
  Some (run_page (settle (throw TypeError)) (mkWorld (page w) (drop_task n (tasks w)) (next_task w))).
Proof. intros H. simpl. by rewrite H. Qed.

Lemma handle_fetch_resolved w n ok b :
  find_task n w = Some AwaitFetch ->
  handle_event (EvFetch n (FetchResolved ok b)) w =
  Some (mkWorld (page w) (replace_task n (AwaitJson ok b) (tasks w)) (next_task w)).
Proof. intros H. simpl. by rewrite H. Qed.

Lemma handle_json w n ok b :
  find_task n w = Some (AwaitJson ok b) ->
  handle_event (EvJson n) w =
  Some (run_page (settle (handle_data ok b)) (mkWorld (page w) (drop_task n (tasks w)) (next_task w))).
Proof. intros H. simpl. by rewrite H. Qed.

Lemma lookup_task_single n t : lookup_task n [(n, t)] = Some t.
Proof. unfold lookup_task. case_decide; congruence. Qed.

Lemma drop_task_single n t : drop_task n [(n, t)] = [].
Proof. unfold drop_task. rewrite filter_cons_False; [done|]. simpl. tauto. Qed.

Lemma replace_task_single n t t' : replace_task n t' [(n, t)] = [(n, t')].
Proof. unfold replace_task. simpl. case_decide; congruence. Qed.

Lemma lookup_replace_task n t t0 ts :
  lookup_task n ts = Some t0 -> lookup_task n (replace_task n t ts) = Some t.
Proof.
  induction ts as [|[i x] ts IH]; [done|]. unfold replace_task in *. simpl.
  case_decide as Hi; simpl; [by rewrite decide_True|]. rewrite decide_False by done. apply IH.
Qed.

Lemma drop_replace_task n t ts : drop_task n (replace_task n t ts) = drop_task n ts.
Proof.
  induction ts as [|[i x] ts IH]; [done|]. unfold drop_task, replace_task in *. simpl.
  case_decide as Hi; simpl.
  - rewrite !filter_cons_False by (simpl; congruence). apply IH.
  - rewrite !filter_cons_True by done. f_equal. apply IH.
Qed.


(** The events [settle_events n o] resume the suspended analysis [n] and
    run the rest of its body under [try/catch/finally]; every other pending
    analysis stays. *)
Lemma run_settle_events w n o :
  lookup_task n (tasks w) = Some AwaitFetch ->
  run w (settle_events n o) =
    Some (mkWorld (snd (settle (settled_body o) (page w))) (drop_task n (tasks w)) (next_task w)).
Proof.
  intros H. destruct o as [|ok b]; simpl settle_events.
  - by rewrite run_cons, handle_fetch_rejected.
  - rewrite run_cons, handle_fetch_resolved by done. cbn [mbind option_bind tasks page next_task].
    rewrite run_cons, (handle_json _ _ ok b) by (eapply lookup_replace_task; exact H).
    cbn [mbind option_bind run run_page page tasks next_task]. by rewrite drop_replace_task.
Qed.

Lemma banners_ok_tail p : banners_ok p -> tail (banners p) = [].
Proof. unfold banners_ok. destruct (banners p) as [|? [|? ?]]; simpl; [done|done|lia]. Qed.

(** A new banner put in place of the first one on a page that still shows
    its results: both are visible. *)
Lemma banner_over_results p p' x :
  banners_ok p -> results p' = results p -> banners p' = x :: tail (banners p) ->
  banners p' = [x] /\ (results p = DisplayBlock -> view_of p' = None).
Proof.
  intros Hb Hr Hb'. rewrite banners_ok_tail in Hb' by done.
  split; [done|]. intros Hres. unfold view_of. by rewrite Hr, Hres, Hb'.
Qed.

(** The click that starts an analysis when nothing else is pending. *)
Lemma analyzeText_alone w :
  tasks w = [] -> str_truthy (trim (textarea (page w))) = true ->
  analyzeText w = mkWorld (snd (analyze_start (page w))) [(next_task w, AwaitFetch)] (S (next_task w)).
Proof.
  intros Ht Hs. unfold analyzeText. rewrite (analyze_start_send _ Hs), Ht. reflexivity.
Qed.

Lemma view_of_error p x :
  results p = DisplayNone -> banners p = [] ->
  view_of (set_loading DisplayNone (snd (showError x p))) = Some (ViewError (error_html x)).
Proof. intros Hr Hb. unfold view_of. simpl. by rewrite Hr, Hb. Qed.

Lemma showError_eq x p : showError x p = (inr tt, snd (showError x p)).
Proof. done. Qed.

Lemma loading_set_loading d p : loading (set_loading d p) = d.
Proof. done. Qed.

(** The answers [code_view] calls a success carry both arrays. *)
Lemma code_view_results ok b :
  code_view (FetchResolved ok b) = ViewResults ->
  exists d cd ws, b = BodyObject d /\ ok && truthy (p_success d) = true /\
    p_chart_data d = FArr cd /\ p_words_data d = FArr ws.
Proof.
  destruct b as [| | |d]; simpl; try discriminate.
  destruct (ok && truthy (p_success d)) eqn:E; [|discriminate].
  destruct (p_chart_data d) eqn:Hcd, (p_words_data d) eqn:Hws; try discriminate.
  intros _. eauto 10.
Qed.

(** On every failing body, the settled page keeps the results panel as it
    was and shows the failure's banner in place of the first one. *)
Lemma settle_handle_data_error ok b x p :
  charts_ok p -> code_view (FetchResolved ok b) = ViewError x ->
  results (snd (settle (handle_data ok b) p)) = results p /\
  banners (snd (settle (handle_data ok b) p)) = x :: tail (banners p).
Proof.
  intros Hc. rewrite settle_page. unfold code_view.
  destruct b as [| | |d]; simpl handle_data; [intros [= <-]; done..|].
  destruct (ok && truthy (p_success d)) eqn:E; [|intros [= <-]; done].
  destruct (p_chart_data d) as [|cd] eqn:Hcd; [intros [= <-]; by rewrite displayResults_no_chart|].
  destruct (p_words_data d) as [|ws] eqn:Hws; [|intros [=]].
  intros [= <-]. destruct (displayResults_no_words d cd p Hcd Hws Hc) as (E1 & Hr & Hb).
  rewrite E1 in Hr, Hb |- *. simpl in *. by rewrite Hr, Hb.
Qed.

(** The body of an analysis running alone, from a page with no banner and
    the results hidden, ends in [code_view]. *)
Lemma settle_handle_data_view ok b p :
  results p = DisplayNone -> banners p = [] -> charts_ok p ->
  view_of (snd (settle (handle_data ok b) p)) = Some (code_view (FetchResolved ok b)).
Proof.
  intros Hr Hb Hc. destruct (code_view (FetchResolved ok b)) as [|x] eqn:Hv.
  - destruct (code_view_results ok b Hv) as (d & cd & ws & -> & E & Hcd & Hws).
    rewrite settle_page. simpl handle_data. rewrite E.
    destruct (displayResults_full d cd ws p Hcd Hws Hc) as (H1 & H2 & H3).
    destruct (displayResults d p) as [r q]. simpl in H1, H2, H3. subst r.
    unfold view_of. simpl. by rewrite H2, H3, Hb.
  - destruct (settle_handle_data_error ok b x p Hc Hv) as [H1 H2].
    unfold view_of. by rewrite H1, H2, Hr, Hb.
Qed.

(** ** Claims *)

(** C1: an analysis that runs alone (nothing else pending, non-blank
    text, from any reachable page) ends, once its fetch and its body have
    settled, with the loading indicator hidden, no task left and exactly one
    of the two outcomes on screen: the results panel with no banner, or one
    banner with the results hidden; [code_view] says which one for each
    answer of the server (spec 4.1, "exactly one terminal state"). *)
Theorem analysis_alone_view w o :
  world_inv w -> tasks w = [] -> str_truthy (trim (textarea (page w))) = true ->
  exists w', run w (EvClick :: settle_events (next_task w) o) = Some w' /\
    view_of (page w') = Some (code_view o) /\ loading (page w') = DisplayNone /\ tasks w' = [].
Proof.
  intros Hinv Ht Hs.
  pose proof (preserves_analyze_start _ Hinv) as (_ & Hc1 & _).
  set (p1 := snd (analyze_start (page w))) in *.
  assert (results p1 = DisplayNone /\ banners p1 = []) as [Hr1 Hb1].
  { subst p1. rewrite (analyze_start_send _ Hs). simpl. split; [done|].
    destruct Hinv as [Hb _]. unfold banners_ok in Hb.
    destruct (banners (page w)) as [|? [|? ?]]; simpl in *; [done|done|lia]. }
  rewrite run_cons. simpl handle_event. rewrite (analyzeText_alone w Ht Hs). cbn [mbind option_bind].
  destruct o as [|ok b]; simpl settle_events.
  - rewrite run_cons, handle_fetch_rejected by apply lookup_task_single.
    cbn [mbind option_bind run]. eexists; split; [done|]. cbn [page tasks run_page].
    rewrite drop_task_single. split; [|done].
    rewrite settle_page. by apply view_of_error.
  - rewrite run_cons, handle_fetch_resolved by apply lookup_task_single.
    cbn [mbind option_bind tasks page next_task]. rewrite replace_task_single.
    rewrite run_cons, (handle_json _ _ ok b) by apply lookup_task_single.
    cbn [mbind option_bind run]. eexists; split; [done|]. cbn [page tasks run_page].
    rewrite drop_task_single. split; [|split; [|done]].
    + by apply settle_handle_data_view.
    + by rewrite settle_page.
Qed.



(** C12: whatever was on screen, an analysis that fails (the fetch
    rejected, a body that is not JSON or [null], [success] false, a missing
    array) leaves the results panel as it was and its own banner as the
    only one: [showError] never hides the results.  So when an earlier
    analysis has rendered its results (two analyses in flight, or a
    resubmission), both are visible at the end. *)
Theorem failed_analysis_keeps_results w n o x :
  world_inv w -> lookup_task n (tasks w) = Some AwaitFetch -> code_view o = ViewError x ->
  exists w', run w (settle_events n o) = Some w' /\ tasks w' = drop_task n (tasks w) /\
    loading (page w') = DisplayNone /\ results (page w') = results (page w) /\
    banners (page w') = [x] /\ (results (page w) = DisplayBlock -> view_of (page w') = None).
Proof.
  intros (Hb & Hc & _) H Hv. rewrite run_settle_events by done.
  eexists; split; [done|]. cbn [page tasks]. split; [done|].
  split; [by rewrite settle_page|].
  assert (results (snd (settle (settled_body o) (page w))) = results (page w) /\
          banners (snd (settle (settled_body o) (page w))) = x :: tail (banners (page w)))
    as [Hr Hb'].
  { destruct o as [|ok b]; [|by apply settle_handle_data_error].
    simpl in Hv. injection Hv as <-. by rewrite settle_page. }
  split; [done|]. by apply banner_over_results.
Qed.


(** C14: an answer with [success: true] and [chart_data] but no
    [words_data] makes [displayTable] throw after [displayStats] and
    [displayCharts] have run: the results panel stays as it was while it
    already holds this answer's stat cards and exactly its two charts next
    to the previous table, and the banner reports a network error. *)
Theorem missing_words_partial_render w n d cd :
  world_inv w -> lookup_task n (tasks w) = Some AwaitFetch ->
  truthy (p_success d) = true -> p_chart_data d = FArr cd -> p_words_data d = FMissing ->
  exists w', run w (settle_events n (FetchResolved true (BodyObject d))) = Some w' /\
    tasks w' = drop_task n (tasks w) /\ loading (page w') = DisplayNone /\
    results (page w') = results (page w) /\ banners (page w') = [error_html network_message] /\
    stats_html (page w') = stats_template (to_string (p_total_words d))
      (to_string (p_unique_words d)) (number_to_string (of_Z (Z.of_nat (length cd)))) /\
    table_html (page w') = table_html (page w) /\
    inst_config <$> live (registry (page w')) = [pie_config cd; bar_config cd].
Proof.
  intros (Hb & Hc & Hh) H Hs Hcd Hws. rewrite run_settle_events by done.
  eexists; split; [done|]. cbn [page tasks]. split; [done|].
  rewrite settle_page. simpl settled_body. simpl handle_data. rewrite Hs.
  destruct (displayResults_no_words d cd (page w) Hcd Hws Hc) as (-> & _ & _).
  destruct (displayResults_prefix d cd (page w) Hcd Hc) as (_ & Hr & Hb2 & _).
  destruct (displayResults_prefix_contents d cd (page w) Hcd Hc Hh) as (Hst & Ht & Hl).
  set (p2 := snd (displayCharts _ _)) in *. clearbody p2. cbn.
  rewrite Hr, Hb2, Hst, Ht, Hl, banners_ok_tail by done. done.
Qed.

(** C24: a successful answer replaces the results, whatever an earlier
    analysis displayed: once analysis [n] settles with [ok] and a truthy
    [success] carrying both arrays, the loading indicator is hidden, the
    results section is shown, the stat cards, the table and the two live
    charts are those of this answer only (the registry holds exactly its
    pie and bar configurations), and the error banners are the ones the
    page had before (a success does not clear them, see the findings). *)
Theorem success_replaces_results w n d cd ws :
  world_inv w -> lookup_task n (tasks w) = Some AwaitFetch ->
  truthy (p_success d) = true -> p_chart_data d = FArr cd -> p_words_data d = FArr ws ->
  exists w', run w (settle_events n (FetchResolved true (BodyObject d))) = Some w' /\
    tasks w' = drop_task n (tasks w) /\
    loading (page w') = DisplayNone /\ results (page w') = DisplayBlock /\
    banners (page w') = banners (page w) /\
    stats_html (page w') = stats_template (to_string (p_total_words d))
      (to_string (p_unique_words d)) (number_to_string (of_Z (Z.of_nat (length cd)))) /\
    table_html (page w') = table_body_html ws /\
    inst_config <$> live (registry (page w')) = [pie_config cd; bar_config cd].
Proof.
  intros (_ & Hc & Hh) H Hs Hcd Hws. simpl settle_events.
  rewrite run_cons, handle_fetch_resolved by done. cbn [mbind option_bind tasks page next_task].
  rewrite run_cons, (handle_json _ _ true (BodyObject d)) by (eapply lookup_replace_task; exact H).
  cbn [mbind option_bind run]. eexists; split; [done|]. cbn [page tasks run_page].
  split; [apply drop_replace_task|]. rewrite settle_page. simpl handle_data. rewrite Hs.
  destruct (displayResults_success d cd ws (page w) Hcd Hws Hc Hh) as (H1 & H2 & H3 & H4 & H5 & H6).
  destruct (displayResults d (page w)) as [r q]. simpl in *. subst r.
  by rewrite H2, H3, H4, H5, H6.
Qed.
