(* ===== verification/Scenarios.v ===== *)
(** * Scenarios: the spec's examples and the reachable departures from it

    Concrete runs of the event loop from the page as served, on the text
    and the answers of spec section 8: each witness below reaches a world
    by running events from the page as served, checks there the hypotheses
    of a claim of [Behaviour] or [Invariants] by evaluation, and applies the
    claim.  The witnesses of C11-C14 are reachable worlds where the states
    the spec rules out occur: results and an error banner visible together,
    the loading indicator hidden while a request is in flight. *)

From stdpp Require Import base list numbers strings.
From Stdlib Require Import ZArith Lia SpecFloat.
From S2P Require Import Prelude JsString JsNumber JsValue Json Table Charts Page Controller Invariants Behaviour.

(** The answer of spec 8.5 for "the cat sat on the mat". *)
Definition cat_payload : Payload :=
  mkPayload (VBool true) VUndef (VNum (of_Z 6)) (VNum (of_Z 5))
            (FArr scenario_words) (FArr scenario_words).

(** The answer of spec 8.7: HTTP 200 with [success: false]. *)
Definition too_long_payload : Payload :=
  mkPayload (VBool false) (VStr (js "text too long")) VUndef VUndef FMissing FMissing.

(** An answer with [success: true] but no [words_data]. *)
Definition no_words_payload : Payload :=
  mkPayload (VBool true) VUndef (VNum (of_Z 6)) (VNum (of_Z 5)) (FArr scenario_words) FMissing.

Definition cat_text : jsstr := js "the cat sat on the mat".

(** Load the page, type the text, click. *)
Definition start_cat : list event := [EvLoaded; EvInput cat_text; EvClick].

Definition the_world (es : list event) : World := default initial_world (run initial_world es).

Lemma run_initial_reachable es w : run initial_world es = Some w -> reachable w.
Proof. apply run_reachable. constructor. Qed.

(** ** Witnesses of the claims of [Behaviour] *)

Definition typed_world (s : jsstr) : World := mkWorld (set_textarea s initial_page) [] 0.

(** Witness of C1 on spec 8.7: HTTP 200 with [success: false] and
    [error: "text too long"] ends in one banner carrying that message. *)
Lemma analysis_alone_view_witness :
  world_inv (typed_world cat_text) /\ tasks (typed_world cat_text) = [] /\
  str_truthy (trim (textarea (page (typed_world cat_text)))) = true /\
  code_view (FetchResolved true (BodyObject too_long_payload)) =
    ViewError (error_html (VStr (js "text too long"))) /\
  exists w', run (typed_world cat_text)
               (EvClick :: settle_events 0 (FetchResolved true (BodyObject too_long_payload))) = Some w' /\
    view_of (page w') = Some (code_view (FetchResolved true (BodyObject too_long_payload))) /\
    loading (page w') = DisplayNone /\ tasks w' = [].
Proof.
  assert (world_inv (typed_world cat_text)) as Hinv by (split; [cbv; lia|split; [split; constructor|by intros []]]).
  split; [done|split; [done|split; [reflexivity|split; [reflexivity|]]]].
  apply (analysis_alone_view (typed_world cat_text)); [done|done|reflexivity].
Defined.

(** Witness of C4: a text of two spaces and a newline. *)
Lemma analyzeText_blank_witness :
  Forall (fun c => is_ws c) (textarea (page (typed_world [32; 32; 10]%Z))) /\
  banners (page (analyzeText (typed_world [32; 32; 10]%Z))) = [error_html blank_message] /\
  sent (page (analyzeText (typed_world [32; 32; 10]%Z))) = [].
Proof.
  assert (Forall (fun c => is_ws c) (textarea (page (typed_world [32; 32; 10]%Z)))) as H
    by (repeat constructor).
  split; [done|].
  destruct (analyzeText_blank (typed_world [32; 32; 10]%Z) H) as (Hs & _ & _ & _ & Hb).
  split; [by rewrite Hb|by rewrite Hs].
Defined.

(** Witness of C5: the text "  the cat sat on the mat " is sent trimmed. *)
Lemma analyzeText_sends_witness :
  str_truthy (trim (textarea (page (typed_world ([32] ++ cat_text ++ [32])%Z)))) = true /\
  sent (page (analyzeText (typed_world ([32] ++ cat_text ++ [32])%Z))) = [request_body cat_text].
Proof.
  assert (str_truthy (trim (textarea (page (typed_world ([32] ++ cat_text ++ [32])%Z)))) = true)
    as H by reflexivity.
  split; [done|].
  destruct (analyzeText_sends _ H) as (Hs & _). rewrite Hs. reflexivity.
Defined.

(** Witness of C6: a click, then its fetch rejected. *)
Lemma settlement_hides_loading_witness :
  exists w', handle_event (EvFetch 0 FetchRejected) (analyzeText (typed_world cat_text)) = Some w' /\
    loading (page w') = DisplayNone.
Proof.
  eexists. split; [reflexivity|].
  eapply (settlement_hides_loading (analyzeText (typed_world cat_text)) _ 0). left. reflexivity.
Defined.

(** ** Reachable states the spec rules out *)

(** The first of two analyses has rendered; the second still awaits its fetch. *)
Definition rendered_then_pending : list event :=
  start_cat ++ [EvClick; EvFetch 0 (FetchResolved true (BodyObject cat_payload)); EvJson 0].



(** Witness of C12: the first analysis has rendered the results of spec
    8.5; the fetch of the second one is rejected. *)
Lemma failed_analysis_keeps_results_witness :
  let w := the_world rendered_then_pending in
  world_inv w /\ lookup_task 1 (tasks w) = Some AwaitFetch /\
  code_view FetchRejected = ViewError (error_html network_message) /\
  results (page w) = DisplayBlock /\
  exists w', run w (settle_events 1 FetchRejected) = Some w' /\
    tasks w' = [] /\ banners (page w') = [error_html network_message] /\ view_of (page w') = None.
Proof.
  cbv zeta.
  assert (world_inv (the_world rendered_then_pending)) as Hinv.
  { apply reachable_inv, (run_initial_reachable rendered_then_pending). vm_compute. reflexivity. }
  assert (lookup_task 1 (tasks (the_world rendered_then_pending)) = Some AwaitFetch) as H
    by (vm_compute; reflexivity).
  assert (results (page (the_world rendered_then_pending)) = DisplayBlock) as Hres
    by (vm_compute; reflexivity).
  split; [done|split; [done|split; [reflexivity|split; [done|]]]].
  destruct (failed_analysis_keeps_results _ 1 FetchRejected _ Hinv H eq_refl)
    as (w' & Hrun & Ht & _ & _ & Hb & Hv).
  exists w'. rewrite Ht. split; [done|split; [vm_compute; reflexivity|split; [done|by apply Hv]]].
Defined.


(** Witness of C14: the second of two analyses answers without
    [words_data] while the first one's results are shown. *)
Lemma missing_words_partial_render_witness :
  let w := the_world rendered_then_pending in
  world_inv w /\ lookup_task 1 (tasks w) = Some AwaitFetch /\
  truthy (p_success no_words_payload) = true /\
  p_chart_data no_words_payload = FArr scenario_words /\ p_words_data no_words_payload = FMissing /\
  exists w', run w (settle_events 1 (FetchResolved true (BodyObject no_words_payload))) = Some w' /\
    results (page w') = DisplayBlock /\ banners (page w') = [error_html network_message] /\
    stats_html (page w') = stats_template (js "6") (js "5") (js "5").
Proof.
  cbv zeta.
  assert (world_inv (the_world rendered_then_pending)) as Hinv.
  { apply reachable_inv, (run_initial_reachable rendered_then_pending). vm_compute. reflexivity. }
  assert (lookup_task 1 (tasks (the_world rendered_then_pending)) = Some AwaitFetch) as H
    by (vm_compute; reflexivity).
  split; [done|split; [done|split; [reflexivity|split; [reflexivity|split; [reflexivity|]]]]].
  destruct (missing_words_partial_render _ 1 no_words_payload scenario_words Hinv H
              eq_refl eq_refl eq_refl) as (w' & Hrun & _ & _ & Hr & Hb & Hs & _).
  exists w'. rewrite Hr, Hb, Hs. split; [done|split; [vm_compute; reflexivity|]].
  split; [reflexivity|vm_compute; reflexivity].
Defined.

(** Witness of C24: the second analysis answers and replaces the rendering
    of the first. *)
Lemma success_replaces_results_witness :
  let w := the_world rendered_then_pending in
  world_inv w /\ lookup_task 1 (tasks w) = Some AwaitFetch /\
  truthy (p_success cat_payload) = true /\
  p_chart_data cat_payload = FArr scenario_words /\ p_words_data cat_payload = FArr scenario_words /\
  exists w', run w (settle_events 1 (FetchResolved true (BodyObject cat_payload))) = Some w' /\
    tasks w' = [] /\ loading (page w') = DisplayNone /\ results (page w') = DisplayBlock /\
    banners (page w') = [] /\
    table_html (page w') = table_body_html scenario_words /\
    inst_config <$> live (registry (page w')) = [pie_config scenario_words; bar_config scenario_words].
Proof.
  cbv zeta.
  assert (world_inv (the_world rendered_then_pending)) as Hinv.
  { apply reachable_inv, (run_initial_reachable rendered_then_pending). vm_compute. reflexivity. }
  assert (lookup_task 1 (tasks (the_world rendered_then_pending)) = Some AwaitFetch) as H
    by (vm_compute; reflexivity).
  split; [done|split; [done|split; [reflexivity|split; [reflexivity|split; [reflexivity|]]]]].
  destruct (success_replaces_results _ 1 cat_payload scenario_words scenario_words Hinv H
              eq_refl eq_refl eq_refl) as (w' & Hr & Ht & Hl & Hs & Hb & _ & Htb & Hc).
  exists w'. rewrite Ht, Hb. split; [done|split; [vm_compute; reflexivity|]].
  split; [done|split; [done|split; [vm_compute; reflexivity|split; done]]].
Defined.

(** Witness of C28: once the text of spec 8.5 is submitted, the indicator
    shows and the analysis is pending. *)
Lemma reachable_loading_pending_witness :
  reachable (the_world start_cat) /\ loading (page (the_world start_cat)) = DisplayBlock /\
  tasks (the_world start_cat) <> [].
Proof.
  assert (reachable (the_world start_cat)) as Hr
    by (apply (run_initial_reachable start_cat); vm_compute; reflexivity).
  assert (loading (page (the_world start_cat)) = DisplayBlock) as Hl by (vm_compute; reflexivity).
  split; [exact Hr|split; [exact Hl|]]. exact (reachable_loading_pending _ Hr Hl).
Defined.
